(** * General-dashboard-bank: the ingestion pipeline, embedded and verified

    A shallow embedding of the four stages of the pipeline and of what the
    dashboard does with their result, and what holds of them.

    - The embedding, one module per source file: [Cleaning] (cleaning.py:
      [standardize_description], [clean_transactions]), [IoUtils]
      (io_utils.py: header matching, account inference,
      [read_scotiabank_csv], [remove_internal_transfers]) and [Classify]
      (classify.py: [deterministic_lookup], [fuzzy_lookup],
      [_call_enrichment_api], [classify_transactions]), over [Py], [PyStr],
      [Re] and [Pandas], which hold what the sources use of Python and of
      pandas; then [Ingest] (io_utils.py: [load_and_normalize_files]) and
      [App] (streamlit_app.py: [transform_dataset], the callbacks of the
      date widgets, [filter_dataset], [top_expenses_section]).
    - The vocabulary of the statements ([CleaningTerms], [ReadTerms],
      [TransferTerms], [ClassifyTerms], [StringTerms], [TableTerms],
      [RemovalTerms], [LabelTerms], [AppTerms]) and sample data ([Samples],
      [Fixtures]).
    - The facts: on the four stages ([CleaningFacts], [SortFacts],
      [ReadFacts], [TransferFacts], [ClassifyFacts]); on strings and the
      regular expressions ([StringFacts]); on cells, headers and tables
      ([CellFacts], [HeaderFacts], [TableFacts]); on the removal of
      transfers and the loading of several files ([RemovalFacts],
      [LoadFacts]); on the lookups ([LookupFacts]); on the dashboard
      ([AppFacts], [PipelineFacts], [RankingFacts]); on the cleaned table
      and its descriptions ([CleanedFacts], [StandardizeFacts]); and on the
      transfer keywords and the fuzzy lookup ([KeywordFacts], [FuzzyFacts]).

    Conventions of the embedding.

    - Python [str] values are Rocq strings of 8-bit characters.  The character
      classes of Python ([str.isspace], [\s], [\d], [\w], [str.lower],
      [str.isprintable]) are given on the ASCII range, which is the range
      the model covers: a character above 127 is carried along as an
      uncased symbol.
    - A float64 is a rational ([Q]); NaN is the null cell.  A Timestamp is an
      integer count of nanoseconds ([Z]); NaT is the null cell.  In a JSON
      body NaN and the infinities are values of their own, as [json.loads]
      reads them.
    - A table is the list of its rows, each a record of the columns the
      function reads and writes; the index is the position in the list.
      The table [classify_transactions] takes carries its column names as
      well, since [DataFrame.empty] looks at both.
    - A column of a CSV frame is read by its normalized name.  Where two
      columns normalize to one name pandas hands back a frame of both and
      not a column; the embedding reads the first, and what is stated of
      the errors [read_scotiabank_csv] raises is stated of headers whose
      normalized names are distinct.
    - [DataFrame.sort_values] promises the ascending order and nothing
      about rows of equal key.  Where that order matters the sort is a
      parameter ([remove_internal_transfers_by]); elsewhere a stable
      insertion sort stands for it.
    - What pandas, difflib, urllib and json do with text (parsing a date, a
      number, a body; scoring similarity) is library code: it enters as a
      Section variable, and nothing is assumed about it. *)

From stdpp Require Import gmap.
From Stdlib Require Import Bool Arith ZArith QArith Qround Qabs.
From Stdlib Require Import List Ascii String Lia.
From Stdlib Require Import Permutation Sorted.
Import ListNotations.
Close Scope Q_scope.
#[local] Set Warnings "-clear-no-such-hyp".
Local Open Scope string_scope.
Local Open Scope list_scope.
Local Open Scope nat_scope.

(** ** Python results and exceptions *)

Module Py.

(** The exception classes the sources raise, catch or let through. *)
Inductive exn : Type :=
| ValueError (msg : string)
| JSONDecodeError            (* a ValueError *)
| UnicodeDecodeError         (* a ValueError *)
| URLError
| HTTPError (code : Z)       (* a URLError *)
| TimeoutError
| OtherError (name : string) (* a class outside the ones above and below *)
| AttributeError
| KeyError (key : string).

Inductive result (A : Type) : Type :=
| Ok (a : A)
| Raise (e : exn).
Arguments Ok {A} a.
Arguments Raise {A} e.

Definition bind {A B} (m : result A) (k : A -> result B) : result B :=
  match m with
  | Ok a => k a
  | Raise e => Raise e
  end.

Definition is_ok {A} (m : result A) : bool :=
  match m with Ok _ => true | Raise _ => false end.

(** Python truthiness of an optional string: None and [""] are falsy. *)
Definition truthy (o : option string) : bool :=
  match o with
  | Some (String _ _) => true
  | _ => false
  end.

End Py.

(** ** Python strings *)

Module PyStr.

Definition ord (c : ascii) : nat := nat_of_ascii c.

Definition between (lo hi : nat) (c : ascii) : bool :=
  (lo <=? ord c) && (ord c <=? hi).

(** [str.isspace] / [\s]: TAB..CR, FS..US and the blank. *)
Definition isspace (c : ascii) : bool := between 9 13 c || between 28 32 c.

(** [\d] *)
Definition isdigit (c : ascii) : bool := between 48 57 c.

Definition isupper (c : ascii) : bool := between 65 90 c.
Definition islower (c : ascii) : bool := between 97 122 c.

(** [\w] *)
Definition isword (c : ascii) : bool :=
  isdigit c || isupper c || islower c || Ascii.eqb c "_".

(** [str.isprintable], one character. *)
Definition isprintable (c : ascii) : bool :=
  negb (between 0 31 c) && negb (Ascii.eqb c "127").

Definition lower_char (c : ascii) : ascii :=
  if isupper c then ascii_of_nat (ord c + 32) else c.

(** [s.lower()] *)
Fixpoint lower (s : string) : string :=
  match s with
  | EmptyString => EmptyString
  | String c s' => String (lower_char c) (lower s')
  end.

Fixpoint lstrip_by (p : ascii -> bool) (s : string) : string :=
  match s with
  | EmptyString => EmptyString
  | String c s' => if p c then lstrip_by p s' else s
  end.

Fixpoint rstrip_by (p : ascii -> bool) (s : string) : string :=
  match s with
  | EmptyString => EmptyString
  | String c s' =>
      match rstrip_by p s' with
      | EmptyString => if p c then EmptyString else String c EmptyString
      | r => String c r
      end
  end.

Definition strip_by (p : ascii -> bool) (s : string) : string :=
  rstrip_by p (lstrip_by p s).

(** [s.strip()] *)
Definition strip (s : string) : string := strip_by isspace s.

Fixpoint mem_char (c : ascii) (chars : string) : bool :=
  match chars with
  | EmptyString => false
  | String d chars' => Ascii.eqb c d || mem_char c chars'
  end.

(** [s.strip(chars)] *)
Definition strip_chars (chars s : string) : string :=
  strip_by (fun c => mem_char c chars) s.

(** [needle in hay] *)
Fixpoint contains (needle hay : string) : bool :=
  String.prefix needle hay
  || match hay with
     | EmptyString => false
     | String _ hay' => contains needle hay'
     end.

(** [s.endswith(suffix)] *)
Fixpoint endswith (suffix s : string) : bool :=
  match s with
  | EmptyString => String.eqb suffix EmptyString
  | String _ s' => String.eqb suffix s || endswith suffix s'
  end.

(** [s.replace(old, new)] for a one-character [old]. *)
Fixpoint replace_char (old : ascii) (new : string) (s : string) : string :=
  match s with
  | EmptyString => EmptyString
  | String c s' =>
      if Ascii.eqb c old then String.append new (replace_char old new s')
      else String c (replace_char old new s')
  end.

(** ["".join(ch for ch in s if p ch)] *)
Fixpoint keep (p : ascii -> bool) (s : string) : string :=
  match s with
  | EmptyString => EmptyString
  | String c s' => if p c then String c (keep p s') else keep p s'
  end.

(** The pieces of [s] between separator characters, empty pieces dropped:
    [[t for t in re.split(sep+, s) if t]]. *)
Fixpoint split_go (sep : ascii -> bool) (cur : string) (s : string)
  : list string :=
  match s with
  | EmptyString =>
      match cur with EmptyString => [] | _ => [cur] end
  | String c s' =>
      if sep c then
        match cur with
        | EmptyString => split_go sep EmptyString s'
        | _ => cur :: split_go sep EmptyString s'
        end
      else split_go sep (String.append cur (String c EmptyString)) s'
  end.

Definition split_nonempty (sep : ascii -> bool) (s : string) : list string :=
  split_go sep EmptyString s.

End PyStr.

(** ** The fragment of [re] the sources use *)

Module Re.
Import PyStr.

(** One item of a pattern.  Every pattern of the sources is a sequence of
    these. *)
Inductive atom : Type :=
| Cls (p : ascii -> bool)            (* one character of a class *)
| Opt (p : ascii -> bool)            (* [x?] *)
| Rep (n : nat) (p : ascii -> bool)  (* [x{n,}], greedy; [x+] is [Rep 1] *)
| WordB                              (* [\b] *)
| Eos.                               (* [$] *)

Definition pattern : Type := list atom.

Definition word_at (o : option ascii) : bool :=
  match o with Some c => isword c | None => false end.

Definition head (s : string) : option ascii :=
  match s with EmptyString => None | String c _ => Some c end.

(** [\b]: exactly one side is a word character. *)
Definition boundary (prev : option ascii) (s : string) : bool :=
  xorb (word_at prev) (word_at (head s)).

(** [$] without MULTILINE: the end, or just before a final newline. *)
Definition at_eos (s : string) : bool :=
  match s with
  | EmptyString => true
  | String c EmptyString => Ascii.eqb c "010"
  | _ => false
  end.

(** Greedy repetition with backtracking: take as many as possible, give
    back one at a time while the continuation [k] fails. *)
Fixpoint rep (k : option ascii -> string -> option string)
  (p : ascii -> bool) (n : nat) (prev : option ascii) (s : string)
  {struct s} : option string :=
  let stop := if Nat.eqb n 0 then k prev s else None in
  match s with
  | EmptyString => stop
  | String c s' =>
      if p c then
        match rep k p (Nat.pred n) (Some c) s' with
        | Some r => Some r
        | None => stop
        end
      else stop
  end.

(** Match [pat] at the start of [s] ([prev] is the character before it);
    the result is what remains of [s] after the match. *)
Fixpoint match_here (pat : pattern) (prev : option ascii) (s : string)
  {struct pat} : option string :=
  match pat with
  | [] => Some s
  | Cls p :: pat' =>
      match s with
      | String c s' => if p c then match_here pat' (Some c) s' else None
      | EmptyString => None
      end
  | Opt p :: pat' =>
      match s with
      | String c s' =>
          if p c then
            match match_here pat' (Some c) s' with
            | Some r => Some r
            | None => match_here pat' prev s
            end
          else match_here pat' prev s
      | EmptyString => match_here pat' prev s
      end
  | Rep n p :: pat' => rep (match_here pat') p n prev s
  | WordB :: pat' =>
      if boundary prev s then match_here pat' prev s else None
  | Eos :: pat' =>
      if at_eos s then match_here pat' prev s else None
  end.

(** [re.sub(pat, repl, s)], scanning left to right; [skip] counts the
    characters of the current match still to be passed over.  No pattern
    of the sources matches the empty string, and an empty match is not
    replaced here. *)
Fixpoint sub_go (pat : pattern) (repl : string) (prev : option ascii)
  (skip : nat) (s : string) {struct s} : string :=
  match s with
  | EmptyString => EmptyString
  | String c s' =>
      match skip with
      | S k => sub_go pat repl (Some c) k s'
      | O =>
          match match_here pat prev s with
          | Some rest =>
              match String.length s - String.length rest with
              | O => String c (sub_go pat repl (Some c) 0 s')
              | S k => String.append repl (sub_go pat repl (Some c) k s')
              end
          | None => String c (sub_go pat repl (Some c) 0 s')
          end
      end
  end.

Definition sub (pat : pattern) (repl s : string) : string :=
  sub_go pat repl None 0 s.

(** A literal under [re.IGNORECASE]. *)
Fixpoint icase (lit : string) : pattern :=
  match lit with
  | EmptyString => []
  | String d lit' =>
      Cls (fun c => Ascii.eqb (lower_char c) (lower_char d)) :: icase lit'
  end.

Definition is_char (d : ascii) : ascii -> bool := fun c => Ascii.eqb c d.

(** [\s+] *)
Definition spaces : pattern := [Rep 1 isspace].

End Re.

(** ** Table cells *)

Module Pandas.

(** A cell of a typed column: null (None, NaN, NaT, pd.NA), text that has
    not been coerced yet, or a value of the column's type. *)
Inductive cell (A : Type) : Type :=
| Null
| Raw (s : string)
| Val (a : A).
Arguments Null {A}.
Arguments Raw {A} s.
Arguments Val {A} a.

Definition notna {A} (c : cell A) : bool :=
  match c with Null => false | _ => true end.

Definition cell_eqb {A} (eqb : A -> A -> bool) (c d : cell A) : bool :=
  match c, d with
  | Null, Null => true
  | Raw s, Raw t => String.eqb s t
  | Val a, Val b => eqb a b
  | _, _ => false
  end.

Definition option_eqb {A} (eqb : A -> A -> bool) (c d : option A) : bool :=
  match c, d with
  | None, None => true
  | Some a, Some b => eqb a b
  | _, _ => false
  end.

(** [pd.to_datetime(col, errors="coerce")] and
    [pd.to_numeric(col, errors="coerce")], one cell: a value stays, text
    goes through the library's parser, what does not parse is null. *)
Definition coerce {A} (parse : string -> option A) (c : cell A) : cell A :=
  match c with
  | Null => Null
  | Raw s => match parse s with Some a => Val a | None => Null end
  | Val a => Val a
  end.

(** [x > 0] on a float. *)
Definition Qpositive (q : Q) : bool := negb (Qle_bool q 0).

(** [col > 0], one cell: a comparison with NaN is False. *)
Definition gt_zero (c : cell Q) : bool :=
  match c with Val q => Qpositive q | _ => false end.

(** [col < 0], one cell. *)
Definition lt_zero (c : cell Q) : bool :=
  match c with Val q => negb (Qle_bool 0 q) | _ => false end.

End Pandas.

(** ** cleaning.py *)

Module Cleaning.
Import PyStr Re Pandas.

(** A row of the table [clean_transactions] works on.  [balance] is [None]
    when the table has no such column; the three derived columns are [None]
    until the function has set them. *)
Record Row : Type := mkRow {
  date : cell Z;
  description : option string;
  amount : cell Q;
  account_name : option string;
  balance : option (cell Q);
  class_ : option string;
  weekday_name : option string;
  month : option string
}.

Definition CLASS_CATEGORIES : list string := ["Earnings"; "Expenses"].

Definition DESCRIPTION_TRAILING_PATTERNS : list pattern :=
  [ WordB :: icase "ref"
      ++ [Opt (is_char "."); Opt isspace; Opt (is_char "#");
          Rep 1 isdigit; Eos];
    WordB :: icase "transaction"
      ++ [Opt isspace; Opt (is_char "#"); Rep 1 isdigit; Eos];
    [WordB; Rep 4 isdigit; Eos] ].

(** [standardize_description] on a [str]. *)
Definition standardize_text (text : string) : string :=
  let cleaned := strip text in
  let cleaned := Re.sub spaces " " cleaned in
  let cleaned := strip_chars ". " cleaned in
  fold_left (fun cleaned pattern => strip (Re.sub pattern "" cleaned))
    DESCRIPTION_TRAILING_PATTERNS cleaned.

(** [standardize_description]: what is not a [str] gives [""]. *)
Definition standardize_description (text : option string) : string :=
  match text with
  | Some s => standardize_text s
  | None => ""
  end.

Definition row_eqb (r s : Row) : bool :=
  cell_eqb Z.eqb (date r) (date s)
  && option_eqb String.eqb (description r) (description s)
  && cell_eqb Qeq_bool (amount r) (amount s)
  && option_eqb String.eqb (account_name r) (account_name s)
  && option_eqb (cell_eqb Qeq_bool) (balance r) (balance s)
  && option_eqb String.eqb (class_ r) (class_ s)
  && option_eqb String.eqb (weekday_name r) (weekday_name s)
  && option_eqb String.eqb (month r) (month s).

(** [df.drop_duplicates()]: the first of equal rows is kept. *)
Fixpoint drop_duplicates_from (seen : list Row) (df : list Row) : list Row :=
  match df with
  | [] => []
  | r :: rest =>
      if existsb (row_eqb r) seen then drop_duplicates_from seen rest
      else r :: drop_duplicates_from (r :: seen) rest
  end.

Definition drop_duplicates (df : list Row) : list Row :=
  drop_duplicates_from [] df.

(** [series.astype(CategoricalDtype(categories))], one cell: a value
    outside the categories becomes null. *)
Definition astype_category (categories : list string) (v : string)
  : option string :=
  if existsb (String.eqb v) categories then Some v else None.

Definition fillna {A} (default : A) (c : option A) : A :=
  match c with Some a => a | None => default end.

Definition timestamp_of (c : cell Z) : option Z :=
  match c with Val t => Some t | _ => None end.

Section CleanTransactions.
(** pandas' parsers of a date and of a number, and its calendar. *)
Variable parse_datetime : string -> option Z.
Variable parse_number : string -> option Q.
Variable day_name : Z -> string.
Variable month_period : Z -> string.

Definition set_date (r : Row) : Row :=
  mkRow (coerce parse_datetime (date r)) (description r) (amount r)
    (account_name r) (balance r) (class_ r) (weekday_name r) (month r).

Definition set_amount (r : Row) : Row :=
  mkRow (date r) (description r) (coerce parse_number (amount r))
    (account_name r) (balance r) (class_ r) (weekday_name r) (month r).

Definition set_description (r : Row) : Row :=
  mkRow (date r)
    (Some (standardize_description (Some (fillna "" (description r)))))
    (amount r) (account_name r) (balance r) (class_ r) (weekday_name r)
    (month r).

Definition set_account_name (r : Row) : Row :=
  mkRow (date r) (description r) (amount r)
    (Some (lower (fillna "chequing" (account_name r))))
    (balance r) (class_ r) (weekday_name r) (month r).

Definition set_balance (r : Row) : Row :=
  mkRow (date r) (description r) (amount r) (account_name r)
    (option_map (coerce parse_number) (balance r))
    (class_ r) (weekday_name r) (month r).

Definition set_class (r : Row) : Row :=
  mkRow (date r) (description r) (amount r) (account_name r) (balance r)
    (astype_category CLASS_CATEGORIES
       (if gt_zero (amount r) then "Earnings" else "Expenses"))
    (weekday_name r) (month r).

Definition set_weekday_name (r : Row) : Row :=
  mkRow (date r) (description r) (amount r) (account_name r) (balance r)
    (class_ r) (option_map day_name (timestamp_of (date r))) (month r).

Definition set_month (r : Row) : Row :=
  mkRow (date r) (description r) (amount r) (account_name r) (balance r)
    (class_ r) (weekday_name r)
    (option_map month_period (timestamp_of (date r))).

Definition clean_transactions (df : list Row) : list Row :=
  match df with
  | [] => df
  | _ =>
      let cleaned := drop_duplicates df in
      let cleaned := map set_date cleaned in
      let cleaned := map set_amount cleaned in
      let cleaned :=
        filter (fun r => notna (date r) && notna (amount r)) cleaned in
      let cleaned := map set_description cleaned in
      let cleaned := map set_account_name cleaned in
      let cleaned := map set_balance cleaned in
      let cleaned := map set_class cleaned in
      let cleaned := map set_weekday_name cleaned in
      let cleaned := map set_month cleaned in
      cleaned
  end.

End CleanTransactions.

End Cleaning.

(** ** io_utils.py *)

Module IoUtils.
Import PyStr Re Pandas Py.

Definition CANONICAL_COLUMNS : list string :=
  ["date"; "description"; "amount"; "account_name"; "balance"].

Definition DATE_CANDIDATES : list string :=
  ["date"; "transaction date"; "posting date"; "posted date";
   "date posted"; "date/time"].

Definition DESCRIPTION_CANDIDATES : list string :=
  ["description"; "transaction details"; "details"; "memo"; "narrative";
   "description 1"].

Definition AMOUNT_CANDIDATES : list string :=
  ["amount"; "transaction amount"; "cad$"; "amount ($)"; "amount (cad)";
   "cad amount"].

Definition DEBIT_CANDIDATES : list string :=
  ["debit"; "withdrawal"; "withdrawals"; "debito"].

Definition CREDIT_CANDIDATES : list string :=
  ["credit"; "deposit"; "deposits"; "credito"].

Definition BALANCE_CANDIDATES : list string :=
  ["balance"; "account balance"; "running balance"; "available balance"].

Definition ACCOUNT_CANDIDATES : list string :=
  ["account"; "account name"; "account type"; "product"].

Definition TRANSFER_KEYWORDS : list string :=
  ["transfer"; "xfer"; "between accounts"; "online banking transfer";
   "customer transfer"; "etfr"].

Definition INTERNAL_TRANSFER_DESCRIPTIONS : list string :=
  ["customer transfer cr."; "customer transfer dr."].

(** A row of the canonical table: what [read_scotiabank_csv] builds and
    [remove_internal_transfers] consumes.  [None] is the null of the
    column (NaT, NaN, a description that is no [str]). *)
Record Transaction : Type := mkTransaction {
  date : option Z;
  description : option string;
  amount : option Q;
  account_name : string;
  balance : option Q
}.

(** The frame [pd.read_csv(..., dtype=str)] returns: the header as read and
    the records, a missing cell being null. *)
Record CsvFrame : Type := mkCsvFrame {
  columns : list string;
  records : list (list (option string))
}.

Definition first_some {A B} (f : A -> option B) (l : list A) : option B :=
  fold_right (fun a acc => match f a with Some b => Some b | None => acc end)
    None l.

Definition is_some {A} (o : option A) : bool :=
  match o with Some _ => true | None => false end.

Definition _normalize_columns (columns : list string) : list string :=
  map (fun col => Re.sub spaces " " (lower (strip col))) columns.

Definition _find_first_match (columns candidates : list string)
  : option string :=
  match find (fun candidate => existsb (String.eqb candidate) columns)
          candidates with
  | Some candidate => Some candidate
  | None =>
      first_some
        (fun candidate => find (fun col => endswith candidate col) columns)
        candidates
  end.

Definition infer_account_name (file_name : option string)
  (account_column : option (list (option string))) : string :=
  let from_file :=
    if negb (truthy file_name) then "chequing"
    else
      let lowered := lower (match file_name with Some f => f | None => "" end) in
      if contains "sav" lowered then "savings"
      else if contains "visa" lowered || contains "credit" lowered
              || contains "card" lowered then "credit card"
      else if contains "tfsa" lowered then "tfsa"
      else "chequing" in
  match account_column with
  | Some column =>
      (* account_column.dropna().iloc[0] *)
      match first_some (fun c => c) column with
      | Some cell =>
          let value := strip cell in
          if truthy (Some value) then lower value else from_file
      | None => from_file
      end
  | None => from_file
  end.

Definition _clean_string (value : option string) : string :=
  match value with
  | None => ""
  | Some value =>
      let value := strip (replace_char "160" " " value) in
      let value := Re.sub spaces " " value in
      let printable := keep isprintable value in
      strip printable
  end.

(** [df[name]]: the cells of the column called [name], the first of that
    name where the header has it more than once. *)
Fixpoint position (name : string) (columns : list string) : option nat :=
  match columns with
  | [] => None
  | c :: columns' =>
      if String.eqb c name then Some 0
      else option_map S (position name columns')
  end.

Definition cell_at (i : nat) (record : list (option string)) : option string :=
  match nth_error record i with
  | Some c => c
  | None => None
  end.

Definition getitem (columns : list string) (record : list (option string))
  (name : string) : option string :=
  match position name columns with
  | Some i => cell_at i record
  | None => None
  end.

Definition Qzero : Q := 0 # 1.

(** A stable insertion sort: rows of equal key keep their order.  It
    stands for [DataFrame.sort_values] where the order among rows of equal
    key does not matter to what is stated; pandas' default kind is not
    stable and promises the ascending order only. *)
Fixpoint insert_by {A} (le : A -> A -> bool) (x : A) (l : list A) : list A :=
  match l with
  | [] => [x]
  | y :: l' => if le x y then x :: l else y :: insert_by le x l'
  end.

Fixpoint sort_by {A} (le : A -> A -> bool) (l : list A) : list A :=
  match l with
  | [] => []
  | x :: l' => insert_by le x (sort_by le l')
  end.

(** Ascending, nulls last. *)
Definition key_le (a b : option Z) : bool :=
  match a, b with
  | Some x, Some y => (x <=? y)%Z
  | None, Some _ => false
  | _, None => true
  end.

Definition sort_values {A} (key : A -> option Z) (l : list A) : list A :=
  sort_by (fun x y => key_le (key x) (key y)) l.

Section ReadScotiabankCsv.
(** pandas' [to_datetime] on a text cell and Python's [float] on a
    string, null when the text does not parse. *)
Variable parse_datetime : string -> option Z.
Variable float : string -> option Q.

Definition _clean_numeric (value : option string) : option Q :=
  match value with
  | None => None
  | Some value =>
      let value := strip value in
      if negb (truthy (Some value)) then None
      else
        let value := replace_char "$" "" (replace_char "," "" value) in
        let value := replace_char ")" "" (replace_char "(" "-" value) in
        float value
  end.

Definition to_datetime (c : option string) : option Z :=
  match c with
  | Some s => parse_datetime s
  | None => None
  end.

Definition fillna0 (c : option Q) : Q :=
  match c with Some q => q | None => Qzero end.

Definition read_scotiabank_csv (df : CsvFrame) (file_name : option string)
  : result (list Transaction) :=
  (* .dropna(how="all") *)
  let rows := filter (existsb is_some) (records df) in
  let columns := _normalize_columns (columns df) in
  let date_column := _find_first_match columns DATE_CANDIDATES in
  let description_column := _find_first_match columns DESCRIPTION_CANDIDATES in
  let balance_column := _find_first_match columns BALANCE_CANDIDATES in
  let account_column_name := _find_first_match columns ACCOUNT_CANDIDATES in
  let amount_column := _find_first_match columns AMOUNT_CANDIDATES in
  let debit_column := _find_first_match columns DEBIT_CANDIDATES in
  let credit_column := _find_first_match columns CREDIT_CANDIDATES in
  match date_column, description_column with
  | Some date_column, Some description_column =>
      let account_series :=
        if truthy account_column_name
        then option_map (fun name => map (fun r => getitem columns r name) rows)
               account_column_name
        else None in
      let account_name := infer_account_name file_name account_series in
      (* the amount of one record, or the second schema error *)
      let amount_values : result (list (option string) -> option Q) :=
        if truthy amount_column then
          Ok (fun r =>
                match amount_column with
                | Some name => _clean_numeric (getitem columns r name)
                | None => None
                end)
        else if truthy debit_column || truthy credit_column then
          Ok (fun r =>
                let amount_value := Qzero in
                let amount_value :=
                  match debit_column with
                  | Some name =>
                      Qminus amount_value
                        (fillna0 (_clean_numeric (getitem columns r name)))
                  | None => amount_value
                  end in
                let amount_value :=
                  match credit_column with
                  | Some name =>
                      Qplus amount_value
                        (fillna0 (_clean_numeric (getitem columns r name)))
                  | None => amount_value
                  end in
                Some amount_value)
        else
          Raise (ValueError
                   "Could not determine amount columns in uploaded file.") in
      bind amount_values (fun amount_values =>
        let normalized :=
          map (fun r =>
                 mkTransaction
                   (to_datetime (getitem columns r date_column))
                   (Some (_clean_string (getitem columns r description_column)))
                   (amount_values r)
                   account_name
                   (if truthy balance_column then
                      match balance_column with
                      | Some name => _clean_numeric (getitem columns r name)
                      | None => None
                      end
                    else None))
            rows in
        let normalized :=
          filter (fun t => is_some (date t) && is_some (amount t)) normalized in
        let normalized := sort_values date normalized in
        Ok normalized)
  | _, _ =>
      Raise (ValueError "Required columns not found in uploaded file.")
  end.

End ReadScotiabankCsv.

(** *** remove_internal_transfers *)

Definition _matches_transfer_keyword (text : string) : bool :=
  let lowered := lower text in
  existsb (fun keyword => contains keyword lowered) TRANSFER_KEYWORDS.

(** Round half to even, as [numpy.round] does. *)
Definition round_half_even (q : Q) : Z :=
  let f := Qfloor q in
  match Qcompare (q - inject_Z f)%Q (1 # 2)%Q with
  | Lt => f
  | Gt => (f + 1)%Z
  | Eq => if Z.even f then f else (f + 1)%Z
  end.

(** [x.round(2)] *)
Definition round2 (q : Q) : Q := round_half_even (q * (100 # 1))%Q # 100.

(** A row of [working]: its index label, the row, and the three helper
    columns. *)
Record Working : Type := mkWorking {
  index : nat;
  row : Transaction;
  description_lower : option string;
  transfer_flag : bool;
  abs_amount : option Q
}.

(** A row of [potential_pairs]. *)
Record Pair : Type := mkPair {
  pair_index_pos : nat;
  pair_index_neg : nat;
  date_pos : option Z;
  date_neg : option Z;
  date_diff : option Z
}.

Definition nanoseconds_per_day : Z := 86400 * 1000000000.

(** [pd.Timedelta(days=d)] in nanoseconds. *)
Definition Timedelta_days (d : Z) : Z := (d * nanoseconds_per_day)%Z.

(** [(date_pos - date_neg).abs()], NaT when either date is. *)
Definition abs_diff (a b : option Z) : option Z :=
  match a, b with
  | Some x, Some y => Some (Z.abs (x - y))
  | _, _ => None
  end.

(** [date_diff <= limit]: False on NaT. *)
Definition diff_le (d : option Z) (limit : Z) : bool :=
  match d with
  | Some x => (x <=? limit)%Z
  | None => false
  end.

Definition amount_gt_zero (w : Working) : bool :=
  match amount (row w) with Some q => Qpositive q | None => false end.

Definition amount_lt_zero (w : Working) : bool :=
  match amount (row w) with Some q => negb (Qle_bool 0 q) | None => false end.

Definition key_eqb (a b : option Q) : bool :=
  match a, b with
  | Some x, Some y => Qeq_bool x y
  | None, None => true
  | _, _ => false
  end.

(** [positives.merge(negatives, on="abs_amount")]: the inner join, in the
    order of the left rows and, for one left row, of the right rows. *)
Definition merge (positives negatives : list Working) : list Pair :=
  flat_map
    (fun p =>
       map (fun n =>
              mkPair (index p) (index n) (date (row p)) (date (row n)) None)
         (filter (fun n => key_eqb (abs_amount p) (abs_amount n)) negatives))
    positives.

Definition set_date_diff (p : Pair) : Pair :=
  mkPair (pair_index_pos p) (pair_index_neg p) (date_pos p) (date_neg p)
    (abs_diff (date_pos p) (date_neg p)).

(** The loop over [potential_pairs.iterrows()]. *)
Fixpoint resolve (potential_pairs : list Pair)
  (to_drop used_pos used_neg : gset nat) : gset nat :=
  match potential_pairs with
  | [] => to_drop
  | row :: rest =>
      let pos_idx := pair_index_pos row in
      let neg_idx := pair_index_neg row in
      if bool_decide (pos_idx ∈ used_pos) || bool_decide (neg_idx ∈ used_neg)
      then resolve rest to_drop used_pos used_neg
      else resolve rest ({[neg_idx]} ∪ ({[pos_idx]} ∪ to_drop))
             ({[pos_idx]} ∪ used_pos) ({[neg_idx]} ∪ used_neg)
  end.

(** [working = df.copy().reset_index(drop=True)] with the helper column
    [description_lower]. *)
Definition reset_index (df : list Transaction) : list Working :=
  map (fun '(i, r) =>
         mkWorking i r (option_map lower (description r)) false None)
    (combine (seq 0 (List.length df)) df).

Definition mask_customer (w : Working) : bool :=
  match description_lower w with
  | Some d => existsb (fun label => String.eqb d (lower label))
                INTERNAL_TRANSFER_DESCRIPTIONS
  | None => false
  end.

Definition set_flags (w : Working) : Working :=
  mkWorking (index w) (row w) (description_lower w)
    (_matches_transfer_keyword
       (match description (row w) with Some desc => desc | None => "" end))
    (option_map (fun q => round2 (Qabs q)) (amount (row w))).

Section SortValues.
(** [potential_pairs.sort_values("date_diff")].  pandas sorts the column
    with its default kind, which is not a stable sort: the rows come back
    in ascending order of the key, and the order among rows of equal key is
    whatever the algorithm leaves.  The sort is therefore a parameter of the
    definitions of this section. *)
Variable sort_values_date_diff : list Pair -> list Pair.

(** The candidate pairs within tolerance, in the order the loop visits
    them. *)
Definition sorted_pairs_by (potential_pairs : list Pair) (tolerance_days : Z)
  : list Pair :=
  let potential_pairs := map set_date_diff potential_pairs in
  let potential_pairs :=
    filter (fun p => diff_le (date_diff p) (Timedelta_days tolerance_days))
      potential_pairs in
  sort_values_date_diff potential_pairs.

Definition remove_internal_transfers_by (df : list Transaction)
  (tolerance_days : Z) : list Transaction :=
  match df with
  | [] => df
  | _ =>
      let working := reset_index df in
      let working := filter (fun w => negb (mask_customer w)) working in
      let working := map set_flags working in
      let positives :=
        filter (fun w => amount_gt_zero w && transfer_flag w) working in
      let negatives :=
        filter (fun w => amount_lt_zero w && transfer_flag w) working in
      match positives, negatives with
      | [], _ | _, [] => map row working
      | _, _ =>
          let potential_pairs := merge positives negatives in
          match potential_pairs with
          | [] => map row working
          | _ =>
              let potential_pairs :=
                sorted_pairs_by potential_pairs tolerance_days in
              let to_drop := resolve potential_pairs ∅ ∅ ∅ in
              let working :=
                filter (fun w => negb (bool_decide (index w ∈ to_drop)))
                  working in
              map row working
          end
      end
  end.

End SortValues.

(** The function with the stable sort [sort_values] above, under which
    pairs of equal date difference are visited in the order of [merge].
    What is stated of it below does not depend on that order; what does is
    stated of [remove_internal_transfers_by], for every ascending sort. *)
Definition sorted_pairs (potential_pairs : list Pair) (tolerance_days : Z)
  : list Pair :=
  sorted_pairs_by (sort_values date_diff) potential_pairs tolerance_days.

Definition remove_internal_transfers (df : list Transaction)
  (tolerance_days : Z) : list Transaction :=
  remove_internal_transfers_by (sort_values date_diff) df tolerance_days.

End IoUtils.

(** ** classify.py *)

Module Classify.
Import PyStr Re Pandas Py.

(** A parsed JSON value, which is also what a cell of the [category] and
    [sub_category] columns holds: the tables put strings there, the remote
    answer whatever its body carried.  The fields of an object are those of
    the parsed [dict], one per key.  [json.loads] also reads the literals
    [NaN], [Infinity] and [-Infinity], as the floats they name. *)
#[local] Unset Elimination Schemes.
Inductive json : Type :=
| JNull
| JBool (b : bool)
| JNum (q : Q)
| JNaN
| JInfinity (negative : bool)
| JStr (s : string)
| JArr (items : list json)
| JObj (fields : list (string * json)).
#[local] Set Elimination Schemes.

(** Python truthiness: of the floats only zero is false. *)
Definition json_truthy (v : json) : bool :=
  match v with
  | JNull => false
  | JBool b => b
  | JNum q => negb (Qeq_bool q 0)
  | JNaN => true
  | JInfinity _ => true
  | JStr s => negb (String.eqb s "")
  | JArr items => match items with [] => false | _ => true end
  | JObj fields => match fields with [] => false | _ => true end
  end.

(** [pd.isna] on a cell: None and NaN are the nulls. *)
Definition isna (v : json) : bool :=
  match v with
  | JNull | JNaN => true
  | _ => false
  end.

Definition Mapping : Type := (json * json)%type.

Definition strings (m : string * string) : Mapping :=
  (JStr (fst m), JStr (snd m)).

(** [d.get(key)] on a [dict] with string keys. *)
Fixpoint dict_get {V} (d : list (string * V)) (key : string) : option V :=
  match d with
  | [] => None
  | (k, v) :: d' => if String.eqb k key then Some v else dict_get d' key
  end.

(** [d[key]] *)
Definition dict_getitem {V} (d : list (string * V)) (key : string)
  : result V :=
  match dict_get d key with
  | Some v => Ok v
  | None => Raise (KeyError key)
  end.

Definition DEFAULT_MAPPING : list (string * (string * string)) :=
  [ ("Earnings", ("Income", "General"));
    ("Expenses", ("Others", "Others")) ].

Definition DETERMINISTIC_KEYWORDS : list (string * (string * string)) :=
  [ ("payroll", ("Income", "Salary"));
    ("salary", ("Income", "Salary"));
    ("direct deposit", ("Income", "Salary"));
    ("interest", ("Income", "Interest"));
    ("dividend", ("Income", "Investments"));
    ("gst credit", ("Income", "Government"));
    ("rent", ("Housing", "Rent"));
    ("mortgage", ("Housing", "Mortgage"));
    ("hydro", ("Utilities", "Electricity"));
    ("enbridge", ("Utilities", "Gas"));
    ("rogers", ("Utilities", "Telecom"));
    ("bell", ("Utilities", "Telecom"));
    ("telus", ("Utilities", "Telecom"));
    ("shaw", ("Utilities", "Telecom"));
    ("internet", ("Utilities", "Telecom"));
    ("insurance", ("Insurance", "Premiums"));
    ("property tax", ("Housing", "Taxes"));
    ("scotia visa payment", ("Transfers", "Credit Card Payment"));
    ("visa payment", ("Transfers", "Credit Card Payment"));
    ("xfer", ("Transfers", "Internal Transfer"));
    ("transfer", ("Transfers", "Internal Transfer"));
    ("etfr", ("Transfers", "Internal Transfer"));
    ("uber", ("Transport", "Ride Share"));
    ("lyft", ("Transport", "Ride Share"));
    ("shell", ("Transport", "Fuel"));
    ("esso", ("Transport", "Fuel"));
    ("petro", ("Transport", "Fuel"));
    ("petro-canada", ("Transport", "Fuel"));
    ("costco", ("Living", "Groceries"));
    ("loblaws", ("Living", "Groceries"));
    ("walmart", ("Living", "Groceries"));
    ("sobeys", ("Living", "Groceries"));
    ("no frills", ("Living", "Groceries"));
    ("shoppers", ("Health", "Pharmacy"));
    ("starbucks", ("Food & Drink", "Coffee"));
    ("tim hortons", ("Food & Drink", "Coffee"));
    ("mcdonald", ("Food & Drink", "Fast Food"));
    ("netflix", ("Entertainment", "Streaming"));
    ("spotify", ("Entertainment", "Streaming"));
    ("canadian tire", ("Living", "Home"));
    ("home depot", ("Living", "Home Improvement"));
    ("amazon", ("Shopping", "Online Retail"));
    ("airbnb", ("Travel", "Accommodation"));
    ("uber eats", ("Food & Drink", "Delivery")) ].

Definition FUZZY_TARGETS : list (string * (string * string)) :=
  [ ("starbuck", ("Food & Drink", "Coffee"));
    ("mcdonalds", ("Food & Drink", "Fast Food"));
    ("wendys", ("Food & Drink", "Fast Food"));
    ("subway", ("Food & Drink", "Fast Food"));
    ("shoppers drug mart", ("Health", "Pharmacy"));
    ("ikea", ("Living", "Home"));
    ("canadian tire", ("Living", "Home"));
    ("costco wholesale", ("Living", "Groceries"));
    ("longos", ("Living", "Groceries"));
    ("freshco", ("Living", "Groceries"));
    ("no frills", ("Living", "Groceries"));
    ("uber trip", ("Transport", "Ride Share"));
    ("uber eats", ("Food & Drink", "Delivery")) ].

Definition normalize (text : string) : string :=
  let lowered := lower text in
  let lowered := Re.sub spaces " " lowered in
  strip lowered.

(** The loop over [items()], on any table in insertion order. *)
Fixpoint lookup_keyword (table : list (string * (string * string)))
  (description : string) : option (string * string) :=
  match table with
  | [] => None
  | (keyword, mapping) :: table' =>
      if contains keyword description then Some mapping
      else lookup_keyword table' description
  end.

Definition deterministic_lookup (description : string)
  : option (string * string) :=
  lookup_keyword DETERMINISTIC_KEYWORDS description.

(** What [request.urlopen] and the reading of the body can do. *)
Inductive body : Type :=
| BodyRaises (e : exn)   (* [response.read().decode(...)] or [json.loads] raised *)
| BodyJson (data : json).

Inductive outcome : Type :=
| RequestRaises (e : exn)   (* [request.Request(API_URL, ...)] raised, before the [try] *)
| UrlRaises (e : exn)
| Response (status : Z) (b : body).

(** [except (error.URLError, ValueError, TimeoutError)] *)
Definition caught (e : exn) : bool :=
  match e with
  | ValueError _ | JSONDecodeError | UnicodeDecodeError => true
  | URLError | HTTPError _ => true
  | TimeoutError => true
  | OtherError _ | AttributeError | KeyError _ => false
  end.

(** [data.get(key)]: only a [dict] has the method; a missing key is None. *)
Definition json_get (data : json) (key : string) : result json :=
  match data with
  | JObj fields =>
      Ok (match dict_get fields key with Some v => v | None => JNull end)
  | _ => Raise AttributeError
  end.

(** A row of the table to classify, and a row of the result.
    [description] is the text [str(description)] gives; [class_] is the cell
    of the class column, null when it holds no string. *)
Record Row : Type := mkRow {
  description : string;
  amount : option Q;
  class_ : option string
}.

(** The table: [columns] names the columns it has.  A table that has a
    column at all has its description and amount columns: what the code
    does on a table without them (it raises [KeyError]) is not part of the
    embedding. *)
Record DataFrame : Type := mkDataFrame {
  columns : list string;
  rows : list Row
}.

(** [df.empty]: no row, or no column. *)
Definition empty (df : DataFrame) : bool :=
  match rows df, columns df with
  | [], _ | _, [] => true
  | _, _ => false
  end.

Record Classified : Type := mkClassified {
  row : Row;
  category : json;
  sub_category : json
}.

Fixpoint mapM {A B} (f : A -> result B) (l : list A) : result (list B) :=
  match l with
  | [] => Ok []
  | a :: l' =>
      bind (f a) (fun b => bind (mapM f l') (fun bs => Ok (b :: bs)))
  end.

Section Classification.
(** [difflib.get_close_matches(word, possibilities, n, cutoff)]. *)
Variable get_close_matches : string -> list string -> nat -> Q -> list string.
(** The two environment variables, and what comes of building the request
    for the normalized description and of posting it. *)
Variable API_URL : option string.
Variable API_KEY : option string.
Variable urlopen : string -> outcome.

Definition API_TIMEOUT : Z := 3.

Fixpoint first_close_match (tokens candidates : list string)
  : option string :=
  match tokens with
  | [] => None
  | token :: tokens' =>
      match get_close_matches token candidates 1 (92 # 100)%Q with
      | best :: _ => Some best
      | [] => first_close_match tokens' candidates
      end
  end.

Definition fuzzy_lookup (description : string)
  : result (option (string * string)) :=
  let tokens :=
    split_nonempty (fun c => negb (isword c || is_char "&" c)) description in
  let candidates := map fst FUZZY_TARGETS in
  match first_close_match tokens candidates with
  | Some best =>
      bind (dict_getitem FUZZY_TARGETS best) (fun m => Ok (Some m))
  | None =>
      match get_close_matches description candidates 1 (8 # 10)%Q with
      | best :: _ =>
          bind (dict_getitem FUZZY_TARGETS best) (fun m => Ok (Some m))
      | [] => Ok None
      end
  end.

(** The body of [_call_enrichment_api].  [lru_cache] only hands back,
    for a description seen before, the value computed here. *)
Definition _call_enrichment_api (description : string)
  : result (option Mapping) :=
  if negb (truthy API_URL) || negb (truthy API_KEY) then Ok None
  else
    match urlopen description with
    | RequestRaises e => Raise e
    | opened =>
        let attempt : result (option Mapping) :=
          match opened with
          | RequestRaises e | UrlRaises e => Raise e
          | Response status b =>
              if (400 <=? status)%Z then Ok None
              else
                match b with
                | BodyRaises e => Raise e
                | BodyJson data =>
                    bind (json_get data "category") (fun category =>
                    bind (json_get data "sub_category") (fun sub_category =>
                      if json_truthy category && json_truthy sub_category
                      then Ok (Some (category, sub_category))
                      else if json_truthy category
                      then Ok (Some (category, JStr "Others"))
                      else Ok None))
                end
          end in
        match attempt with
        | Raise e => if caught e then Ok None else Raise e
        | Ok answer => Ok answer
        end
    end.

(** [DEFAULT_MAPPING.get(row_class, DEFAULT_MAPPING["Expenses"])] *)
Definition default_mapping (row_class : option string)
  : result (string * string) :=
  bind (dict_getitem DEFAULT_MAPPING "Expenses") (fun default =>
    Ok (match row_class with
        | Some c =>
            match dict_get DEFAULT_MAPPING c with
            | Some m => m
            | None => default
            end
        | None => default
        end)).

(** One turn of the loop of [classify_transactions]. *)
Definition classify_row (use_api : bool) (r : Row) : result Classified :=
  let normalized_description := normalize (description r) in
  let mapping := option_map strings (deterministic_lookup normalized_description) in
  bind (match mapping with
        | None =>
            bind (fuzzy_lookup normalized_description) (fun m =>
              Ok (option_map strings m))
        | Some _ => Ok mapping
        end) (fun mapping =>
  bind (match mapping with
        | None =>
            if use_api then
              bind (_call_enrichment_api normalized_description)
                (fun api_mapping =>
                   Ok (match api_mapping with
                       | Some m => Some m
                       | None => mapping
                       end))
            else Ok mapping
        | Some _ => Ok mapping
        end) (fun mapping =>
  bind (match mapping with
        | None =>
            bind (default_mapping (class_ r)) (fun fallback =>
              Ok (strings fallback))
        | Some m => Ok m
        end) (fun mapping =>
  Ok (mkClassified r (fst mapping) (snd mapping))))).

Definition set_class (r : Row) : Row :=
  mkRow (description r) (amount r)
    (Some (if match amount r with Some q => Qpositive q | None => false end
           then "Earnings" else "Expenses")).

Definition classify_transactions (df : DataFrame) (use_api : bool)
  : result (list Classified) :=
  if empty df then
    (* [empty["category"] = pd.Series(dtype="object")]: a table without
       rows stays so, and the rows of a table without columns get NaN in
       both new columns *)
    Ok (map (fun r => mkClassified r JNaN JNaN) (rows df))
  else
    let classified :=
      if negb (existsb (String.eqb "class") (columns df))
      then map set_class (rows df)
      else rows df in
    mapM (classify_row use_api) classified.

End Classification.

End Classify.

(** ** io_utils.py: loading several files *)

Module Ingest.
Import Py IoUtils.

Section LoadAndNormalizeFiles.
Variable parse_datetime : string -> option Z.
Variable float : string -> option Q.

(** A payload is a file name with the frame [pd.read_csv] makes of the
    content.  The loop reads the files in order and stops at the first
    that raises; [pd.concat(frames, ignore_index=True)] puts the tables one
    after the other. *)
Definition load_and_normalize_files (file_payloads : list (string * CsvFrame))
  : result (list Transaction) :=
  bind
    (Classify.mapM
       (fun '(file_name, content) =>
          read_scotiabank_csv parse_datetime float content (Some file_name))
       file_payloads)
    (fun frames =>
       match frames with
       | [] => Ok []
       | _ =>
           let combined := List.concat frames in
           let combined := remove_internal_transfers combined 2 in
           Ok combined
       end).

End LoadAndNormalizeFiles.

End Ingest.

(** ** streamlit_app.py *)

Module App.
Import PyStr Pandas Py.

(** *** The pipeline *)

Section TransformDataset.
Variable parse_datetime : string -> option Z.
Variable parse_number : string -> option Q.
Variable day_name : Z -> string.
Variable month_period : Z -> string.
Variable get_close_matches : string -> list string -> nat -> Q -> list string.
Variable API_URL : option string.
Variable API_KEY : option string.
Variable urlopen : string -> Classify.outcome.

(** A row of the cleaned table as [classify_transactions] reads it:
    [str(description)], the amount, the class. *)
Definition str (description : option string) : string :=
  match description with
  | Some s => s
  | None => "nan"
  end.

Definition float_of (c : cell Q) : option Q :=
  match c with
  | Val q => Some q
  | _ => None
  end.

Definition classify_view (r : Cleaning.Row) : Classify.Row :=
  Classify.mkRow (str (Cleaning.description r)) (float_of (Cleaning.amount r))
    (Cleaning.class_ r).

(** [raw_df.empty]: no row, or no column. *)
Definition empty (raw_columns : list string) (raw_df : list Cleaning.Row)
  : bool :=
  match raw_df, raw_columns with
  | [], _ | _, [] => true
  | _, _ => false
  end.

(** [df[name] = ...]: the column is added when the table does not have
    it. *)
Definition with_column (columns : list string) (name : string)
  : list string :=
  if existsb (String.eqb name) columns then columns else columns ++ [name].

(** The columns of the table [clean_transactions] returns: those of the
    raw table, and the three it derives unless the table was empty and
    came back as it was. *)
Definition cleaned_columns (raw_columns : list string)
  (raw_df : list Cleaning.Row) : list string :=
  if empty raw_columns raw_df then raw_columns
  else fold_left with_column ["class"; "weekday_name"; "month"] raw_columns.

(** The raw table is the names of its columns and its rows.  A table that
    has a column at all has the columns [clean_transactions] reads (what
    the code does without them, it raises [KeyError], is not part of the
    embedding); a table without columns comes back from
    [clean_transactions] as it is. *)
Definition transform_dataset (raw_columns : list string)
  (raw_df : list Cleaning.Row) (use_api : bool)
  : result (list Classify.Classified) :=
  let cleaned :=
    if empty raw_columns raw_df then raw_df
    else
      Cleaning.clean_transactions parse_datetime parse_number day_name
        month_period raw_df in
  let classified :=
    Classify.classify_transactions get_close_matches API_URL API_KEY urlopen
      (Classify.mkDataFrame (cleaned_columns raw_columns raw_df)
         (map classify_view cleaned))
      use_api in
  classified.

End TransformDataset.

(** *** The date widgets *)

(** A [datetime.date] is the number of its day, a [datetime.time] a count
    of microseconds since midnight, a [datetime.datetime] a day with a
    time. *)
Record datetime : Type := mkDatetime {
  day : Z;
  time : Z
}.

Definition time_min : Z := 0.
Definition time_max : Z := 86399999999.

(** [dt.datetime.combine(date, time)] and [datetime.date()] *)
Definition combine (date : Z) (time : Z) : datetime := mkDatetime date time.
Definition date_of (d : datetime) : Z := day d.

(** [Timestamp.date()], a Timestamp being a count of nanoseconds. *)
Definition Timestamp_date (t : Z) : Z := (t / IoUtils.nanoseconds_per_day)%Z.

(** The entries of [st.session_state] the functions below read and write;
    [None] is a key that is not there.  The date picker holds a tuple of
    dates: two once a range is chosen, fewer while it is being chosen. *)
Record SessionState : Type := mkSessionState {
  date_picker : option (list Z);
  date_slider : option (datetime * datetime);
  filter_class : option (list string);
  filter_category : option (list string);
  filter_sub_category : option (list string);
  filter_account : option (list string)
}.

Definition set_date_picker (st : SessionState) (v : list Z) : SessionState :=
  mkSessionState (Some v) (date_slider st) (filter_class st)
    (filter_category st) (filter_sub_category st) (filter_account st).

Definition set_date_slider (st : SessionState) (v : datetime * datetime)
  : SessionState :=
  mkSessionState (date_picker st) (Some v) (filter_class st)
    (filter_category st) (filter_sub_category st) (filter_account st).

Definition datetime_eqb (a b : datetime) : bool :=
  Z.eqb (day a) (day b) && Z.eqb (time a) (time b).

Definition slider_eqb (a b : option (datetime * datetime)) : bool :=
  match a, b with
  | Some (a1, a2), Some (b1, b2) => datetime_eqb a1 b1 && datetime_eqb a2 b2
  | None, None => true
  | _, _ => false
  end.

Fixpoint tuple_eqb (a b : list Z) : bool :=
  match a, b with
  | [], [] => true
  | x :: a', y :: b' => Z.eqb x y && tuple_eqb a' b'
  | _, _ => false
  end.

Definition picker_eqb (a b : option (list Z)) : bool :=
  match a, b with
  | Some a, Some b => tuple_eqb a b
  | None, None => true
  | _, _ => false
  end.

Definition ensure_state_defaults (min_date max_date : Z) (st : SessionState)
  : SessionState :=
  let start_dt := combine (Timestamp_date min_date) time_min in
  let end_dt := combine (Timestamp_date max_date) time_max in
  let st :=
    match date_picker st with
    | None => set_date_picker st [Timestamp_date min_date; Timestamp_date max_date]
    | Some _ => st
    end in
  match date_slider st with
  | None => set_date_slider st (start_dt, end_dt)
  | Some _ => st
  end.

Definition set_full_period (min_date max_date : Z) (st : SessionState)
  : SessionState :=
  let st :=
    set_date_picker st [Timestamp_date min_date; Timestamp_date max_date] in
  set_date_slider st
    (combine (Timestamp_date min_date) time_min,
     combine (Timestamp_date max_date) time_max).

(** [start_date, end_date = st.session_state["date_picker"]] unpacks a
    tuple of two; on any other the unpacking raises [ValueError], with a
    message that tells the counts. *)
Definition on_date_picker_change (st : SessionState) : result SessionState :=
  match date_picker st with
  | None => Raise (KeyError "date_picker")
  | Some ([] | [_]) => Raise (ValueError "not enough values to unpack")
  | Some (_ :: _ :: _ :: _) => Raise (ValueError "too many values to unpack")
  | Some [start_date; end_date] =>
      let '(start_date, end_date) :=
        if (end_date <? start_date)%Z then (end_date, start_date)
        else (start_date, end_date) in
      let new_slider :=
        (combine start_date time_min, combine end_date time_max) in
      if negb (slider_eqb (date_slider st) (Some new_slider))
      then Ok (set_date_slider st new_slider)
      else Ok st
  end.

Definition on_slider_change (st : SessionState) : result SessionState :=
  match date_slider st with
  | None => Raise (KeyError "date_slider")
  | Some (start_dt, end_dt) =>
      let start_date := date_of start_dt in
      let end_date := date_of end_dt in
      let new_picker := [start_date; end_date] in
      if negb (picker_eqb (date_picker st) (Some new_picker))
      then Ok (set_date_picker st new_picker)
      else Ok st
  end.

(** *** The filters *)

(** A row of the transformed table, with the columns the dashboard
    filters and ranks on; [None] is a null cell. *)
Record Entry : Type := mkEntry {
  date : option Z;
  amount : option Q;
  class_ : option string;
  category : option string;
  sub_category : option string;
  account_name : option string
}.

(** A [datetime] as the Timestamp it is compared with. *)
Definition Timestamp (d : datetime) : Z :=
  (day d * IoUtils.nanoseconds_per_day + time d * 1000)%Z.

(** [df["date"] >= start_dt] and [df["date"] <= end_dt], one cell: False
    on NaT. *)
Definition date_ge (c : option Z) (d : datetime) : bool :=
  match c with
  | Some t => (Timestamp d <=? t)%Z
  | None => false
  end.

Definition date_le (c : option Z) (d : datetime) : bool :=
  match c with
  | Some t => (t <=? Timestamp d)%Z
  | None => false
  end.

(** [series.isin(values)], one cell *)
Definition isin (c : option string) (values : list string) : bool :=
  match c with
  | Some v => existsb (String.eqb v) values
  | None => false
  end.

(** [if selected: filtered = filtered[filtered[column].isin(selected)]] *)
Definition select (selected : option (list string))
  (column : Entry -> option string) (filtered : list Entry) : list Entry :=
  match selected with
  | Some ((_ :: _) as values) => filter (fun r => isin (column r) values) filtered
  | _ => filtered
  end.

Definition filter_dataset (st : SessionState) (df : list Entry)
  : result (list Entry) :=
  match date_slider st with
  | None => Raise (KeyError "date_slider")
  | Some (start_dt, end_dt) =>
      let filtered :=
        filter (fun r => date_ge (date r) start_dt && date_le (date r) end_dt)
          df in
      let filtered := select (filter_class st) class_ filtered in
      let filtered := select (filter_category st) category filtered in
      let filtered := select (filter_sub_category st) sub_category filtered in
      let filtered := select (filter_account st) account_name filtered in
      Ok filtered
  end.

(** *** The largest expenses *)

(** [sort_values("abs_amount", ascending=False)]: descending, nulls last.
    Rows of equal key come in the order of the table here; pandas does
    not fix their order. *)
Definition key_ge (a b : option Q) : bool :=
  match a, b with
  | Some x, Some y => Qle_bool y x
  | None, Some _ => false
  | _, None => true
  end.

Definition abs_amount (r : Entry) : option Q := option_map Qabs (amount r).

Definition set_amount (r : Entry) (v : option Q) : Entry :=
  mkEntry (date r) v (class_ r) (category r) (sub_category r)
    (account_name r).

(** The frame [top_expenses_section] displays. *)
Definition top_expenses_section (expenses_df : list Entry) : list Entry :=
  let top_expenses :=
    IoUtils.sort_by (fun x y => key_ge (abs_amount x) (abs_amount y))
      expenses_df in
  let top_expenses := firstn 10 top_expenses in
  map (fun r => set_amount r (option_map (fun x => Qopp (Qabs x)) (amount r)))
    top_expenses.

End App.

(** * The vocabulary of the statements *)

(** ** cleaning.py *)

Module CleaningTerms.
Import PyStr Re Pandas Cleaning.

Section Pass.
Variable parse_datetime : string -> option Z.
Variable parse_number : string -> option Q.
Variable day_name : Z -> string.
Variable month_period : Z -> string.

(** The two halves of one pass over a row: the coercions before [dropna],
    and everything after it. *)
Definition coerce_row (r : Row) : Row :=
  set_amount parse_number (set_date parse_datetime r).

Definition finish_row (r : Row) : Row :=
  set_month month_period
    (set_weekday_name day_name
       (set_class
          (set_balance parse_number
             (set_account_name (set_description r))))).

End Pass.

Definition survives (r : Row) : bool := notna (date r) && notna (amount r).

Definition distinct_rows (df : list Row) : Prop :=
  ForallOrdPairs (fun earlier later => row_eqb later earlier = false) df.

End CleaningTerms.

(** ** io_utils.py: reading a statement *)

Module ReadTerms.
Import PyStr Re Pandas Py IoUtils.

(** A table has a column for a list of candidate names when one of its
    column names is, or ends with, one of the candidates. *)
Definition has_column (columns candidates : list string) : bool :=
  existsb (fun candidate => existsb (endswith candidate) columns) candidates.

(** The label the file name alone gives. *)
Definition filename_label (file_name : option string) : string :=
  match file_name with
  | None | Some EmptyString => "chequing"
  | Some name =>
      let lowered := lower name in
      if contains "sav" lowered then "savings"
      else if contains "visa" lowered || contains "credit" lowered
              || contains "card" lowered then "credit card"
      else if contains "tfsa" lowered then "tfsa"
      else "chequing"
  end.

(** The first cell of a column that is not null. *)
Definition first_notna (column : list (option string)) : option string :=
  first_some (fun c => c) column.

(** The function raised one of its two schema errors. *)
Definition schema_error {A} (m : result A) : Prop :=
  m = Raise (ValueError "Required columns not found in uploaded file.")
  \/ m = Raise (ValueError
                  "Could not determine amount columns in uploaded file.").

(** The header, once normalized, lacks a date column, or a description
    column, or every source of an amount. *)
Definition schema_incomplete (df : CsvFrame) : Prop :=
  let columns := _normalize_columns (columns df) in
  has_column columns DATE_CANDIDATES = false
  \/ has_column columns DESCRIPTION_CANDIDATES = false
  \/ (has_column columns AMOUNT_CANDIDATES = false
      /\ has_column columns DEBIT_CANDIDATES = false
      /\ has_column columns CREDIT_CANDIDATES = false).

(** The condition as the specification words it: the amount source is an amount
    column or a debit column together with a credit column. *)
Definition schema_incomplete_pair (df : CsvFrame) : Prop :=
  let columns := _normalize_columns (columns df) in
  has_column columns DATE_CANDIDATES = false
  \/ has_column columns DESCRIPTION_CANDIDATES = false
  \/ (has_column columns AMOUNT_CANDIDATES = false
      /\ (has_column columns DEBIT_CANDIDATES
          && has_column columns CREDIT_CANDIDATES) = false).

(** The cells of the detected account column, when there is one. *)
Definition account_series (df : CsvFrame) : option (list (option string)) :=
  let rows := filter (existsb is_some) (records df) in
  let columns := _normalize_columns (columns df) in
  option_map (fun name => map (fun r => getitem columns r name) rows)
    (_find_first_match columns ACCOUNT_CANDIDATES).

End ReadTerms.

(** ** io_utils.py: internal transfers *)

Module TransferTerms.
Import PyStr Re Pandas Py IoUtils.

Definition text_of (t : Transaction) : string :=
  match description t with Some desc => desc | None => "" end.

(** The description is one of the fixed labels that step 1 drops. *)
Definition is_label (t : Transaction) : bool :=
  match description t with
  | Some d =>
      existsb (fun label => String.eqb (lower d) (lower label))
        INTERNAL_TRANSFER_DESCRIPTIONS
  | None => false
  end.

Definition has_keyword (t : Transaction) : bool :=
  _matches_transfer_keyword (text_of t).

Definition is_positive (t : Transaction) : bool :=
  match amount t with Some q => Qpositive q | None => false end.

Definition is_negative (t : Transaction) : bool :=
  match amount t with Some q => negb (Qle_bool 0 q) | None => false end.

Definition rounded_abs (t : Transaction) : option Q :=
  option_map (fun q => round2 (Qabs q)) (amount t).

(** The rows with their index labels. *)
Definition enumerate (df : list Transaction) : list (nat * Transaction) :=
  combine (seq 0 (List.length df)) df.

(** The rows left after step 1. *)
Definition kept (df : list Transaction) : list (nat * Transaction) :=
  filter (fun x => negb (is_label (snd x))) (enumerate df).

Definition positives (df : list Transaction) : list (nat * Transaction) :=
  filter (fun x => is_positive (snd x) && has_keyword (snd x)) (kept df).

Definition negatives (df : list Transaction) : list (nat * Transaction) :=
  filter (fun x => is_negative (snd x) && has_keyword (snd x)) (kept df).

Definition pair_of (p n : nat * Transaction) : Pair :=
  mkPair (fst p) (fst n) (date (snd p)) (date (snd n)) None.

(** The rows of [potential_pairs] as [merge] enumerates them. *)
Definition enumerated_pairs (df : list Transaction) : list Pair :=
  flat_map
    (fun p =>
       map (pair_of p)
         (filter (fun n => key_eqb (rounded_abs (snd p)) (rounded_abs (snd n)))
            (negatives df)))
    (positives df).

(** What [sort_values] promises of its result: the same rows, in ascending
    order of the key. *)
Definition ascending (sort : list Pair -> list Pair) : Prop :=
  forall l,
    Permutation (sort l) l
    /\ StronglySorted (fun a b => key_le (date_diff a) (date_diff b) = true)
         (sort l).

(** The pairs the loop visits, in its order, and the rows it drops, for a
    given sort. *)
Definition visited_pairs_by (sort : list Pair -> list Pair)
  (df : list Transaction) (tolerance_days : Z) : list Pair :=
  sorted_pairs_by sort (enumerated_pairs df) tolerance_days.

Definition dropped_by (sort : list Pair -> list Pair)
  (df : list Transaction) (tolerance_days : Z) : gset nat :=
  resolve (visited_pairs_by sort df tolerance_days) ∅ ∅ ∅.

(** The same for the stable sort. *)
Definition visited_pairs (df : list Transaction) (tolerance_days : Z)
  : list Pair :=
  sorted_pairs (enumerated_pairs df) tolerance_days.

Definition dropped (df : list Transaction) (tolerance_days : Z) : gset nat :=
  resolve (visited_pairs df tolerance_days) ∅ ∅ ∅.

Definition working_of (x : nat * Transaction) : Working :=
  mkWorking (fst x) (snd x) (option_map lower (description (snd x)))
    (has_keyword (snd x)) (rounded_abs (snd x)).

(** The pairs the loop takes: a ghost of [resolve] that keeps the pairs
    instead of their row indices. *)
Fixpoint taken_from (pairs : list Pair) (used_pos used_neg : gset nat)
  : list Pair :=
  match pairs with
  | [] => []
  | p :: rest =>
      if bool_decide (pair_index_pos p ∈ used_pos)
         || bool_decide (pair_index_neg p ∈ used_neg)
      then taken_from rest used_pos used_neg
      else p :: taken_from rest ({[pair_index_pos p]} ∪ used_pos)
                  ({[pair_index_neg p]} ∪ used_neg)
  end.

Definition taken (pairs : list Pair) : list Pair := taken_from pairs ∅ ∅.

Definition pos_set (l : list Pair) : gset nat :=
  list_to_set (map pair_index_pos l).

Definition neg_set (l : list Pair) : gset nat :=
  list_to_set (map pair_index_neg l).

(** [p] shares a row with a pair of [earlier]. *)
Definition conflicts (p : Pair) (earlier : list Pair) : bool :=
  existsb (fun q => Nat.eqb (pair_index_pos q) (pair_index_pos p)
                    || Nat.eqb (pair_index_neg q) (pair_index_neg p))
    earlier.

(** What being a pair the loop visits says of its two rows. *)
Record pair_rows (df : list Transaction) (tolerance_days : Z) (p : Pair)
  (tp tn : Transaction) (dp dn : Z) : Prop := mkPairRows {
  pos_row : nth_error df (pair_index_pos p) = Some tp;
  neg_row : nth_error df (pair_index_neg p) = Some tn;
  pos_kept : is_label tp = false;
  neg_kept : is_label tn = false;
  pos_flagged : has_keyword tp = true;
  neg_flagged : has_keyword tn = true;
  pos_sign : is_positive tp = true;
  neg_sign : is_negative tn = true;
  same_cents : key_eqb (rounded_abs tp) (rounded_abs tn) = true;
  pos_date : date tp = Some dp;
  neg_date : date tn = Some dn;
  diff_value : date_diff p = Some (Z.abs (dp - dn));
  within_tolerance :
    (Z.abs (dp - dn) <= tolerance_days * nanoseconds_per_day)%Z
}.

(** The input without the rows step 1 drops. *)
Definition without_labels (df : list Transaction) : list Transaction :=
  filter (fun t => negb (is_label t)) df.

(** The three ways of having no candidate pair. *)
Definition no_candidate_pair (df : list Transaction) : Prop :=
  Forall (fun t => is_positive t && has_keyword t = false) (without_labels df)
  \/ Forall (fun t => is_negative t && has_keyword t = false) (without_labels df)
  \/ (forall p n, In p (without_labels df) -> In n (without_labels df) ->
        is_positive p && has_keyword p = true ->
        is_negative n && has_keyword n = true ->
        key_eqb (rounded_abs p) (rounded_abs n) = false).

(** Step 2 flags the row: it survives step 1 and its description contains
    a transfer keyword. *)
Definition flagged (t : Transaction) : bool :=
  negb (is_label t) && has_keyword t.

(** The pairs within tolerance, in the order [merge] enumerates them. *)
Definition candidate_pairs (df : list Transaction) (tolerance_days : Z)
  : list Pair :=
  filter (fun p => diff_le (date_diff p) (Timedelta_days tolerance_days))
    (map set_date_diff (enumerated_pairs df)).

(** The pair has a date difference of [d] nanoseconds. *)
Definition has_diff (d : Z) (p : Pair) : bool :=
  match date_diff p with
  | Some x => (x =? d)%Z
  | None => false
  end.

End TransferTerms.

(** ** classify.py *)

Module ClassifyTerms.
Import PyStr Re Pandas Py Classify.

(** [needle] occurs in [hay]. *)
Definition occurs (needle hay : string) : Prop :=
  exists a b, hay = String.append a (String.append needle b).

(** The class-based default, spelled out. *)
Definition fallback (row_class : option string) : string * string :=
  if option_eqb String.eqb row_class (Some "Earnings")
  then ("Income", "General")
  else ("Others", "Others").

(** The rows the loop runs over: the input rows, with the class derived
    from the amount when the table has no class column. *)
Definition classified_rows (df : DataFrame) : list Row :=
  if negb (existsb (String.eqb "class") (columns df))
  then map set_class (rows df)
  else rows df.

(** Both labels of the row are strings. *)
Definition text_labels (c : Classified) : Prop :=
  exists category_text sub_category_text,
    category c = JStr category_text
    /\ sub_category c = JStr sub_category_text.

(** A label of the row is null. *)
Definition null_label (c : Classified) : bool :=
  isna (category c) || isna (sub_category c).

Section Strategies.
Variable get_close_matches : string -> list string -> nat -> Q -> list string.
Variable API_URL : option string.
Variable API_KEY : option string.
Variable urlopen : string -> outcome.

(** No strategy resolves the row. *)
Definition unresolved (use_api : bool) (r : Row) : Prop :=
  let normalized_description := normalize (description r) in
  deterministic_lookup normalized_description = None
  /\ fuzzy_lookup get_close_matches normalized_description = Ok None
  /\ (use_api = true ->
      _call_enrichment_api API_URL API_KEY urlopen normalized_description
      = Ok None).

(** The labels of the row are those the endpoint answered with: the remote
    call is on, neither local lookup resolves the row, and the call
    returned this pair. *)
Definition answered_by_remote (use_api : bool) (c : Classified) : Prop :=
  let normalized_description := normalize (description (row c)) in
  use_api = true
  /\ deterministic_lookup normalized_description = None
  /\ fuzzy_lookup get_close_matches normalized_description = Ok None
  /\ _call_enrichment_api API_URL API_KEY urlopen normalized_description
     = Ok (Some (category c, sub_category c)).

End Strategies.

End ClassifyTerms.

(** ** Strings *)

Module StringTerms.
Import PyStr.

(** Every run of white space replaced by one blank; [in_run] tells that
    the character before was white space. *)
Fixpoint squeeze_from (in_run : bool) (s : string) : string :=
  match s with
  | EmptyString => EmptyString
  | String c s' =>
      if isspace c then
        if in_run then squeeze_from true s'
        else String " " (squeeze_from true s')
      else String c (squeeze_from false s')
  end.

Definition squeeze (s : string) : string := squeeze_from false s.

(** Every character of [s] passes the test. *)
Fixpoint all_chars (p : ascii -> bool) (s : string) : bool :=
  match s with
  | EmptyString => true
  | String c s' => p c && all_chars p s'
  end.

(** [a] is a prefix of [s]. *)
Definition is_prefix (a s : string) : Prop :=
  exists tail, s = String.append a tail.

(** The first character of [s], when there is one, does not pass the
    test. *)
Definition head_fails (p : ascii -> bool) (s : string) : bool :=
  match s with
  | EmptyString => true
  | String c _ => negb (p c)
  end.

(** The pattern ends with [$]. *)
Fixpoint anchored (pat : Re.pattern) : bool :=
  match pat with
  | [] => false
  | [Re.Eos] => true
  | _ :: pat' => anchored pat'
  end.

(** The character is no white space. *)
Definition nonspace (c : ascii) : bool := negb (isspace c).

(** The character is not the line feed. *)
Definition no_newline (c : ascii) : bool := negb (Ascii.eqb c "010").

(** The character is no white space but, possibly, the blank: what white
    space is left in text whose runs of white space have been squeezed. *)
Definition blank_only (c : ascii) : bool :=
  negb (isspace c) || Ascii.eqb c " ".

End StringTerms.

(** ** io_utils.py: cells and tables *)

Module TableTerms.
Import PyStr Re Pandas Py IoUtils StringTerms.

(** Text with no white space and none of the characters [_clean_numeric]
    rewrites. *)
Definition plain (x : string) : bool :=
  negb (String.eqb x "")
  && all_chars (fun c => negb (isspace c) && negb (mem_char c ",$()")) x.

(** The header once normalized, and the records [dropna(how="all")]
    leaves. *)
Definition header (df : CsvFrame) : list string :=
  _normalize_columns (columns df).

Definition nonblank_records (df : CsvFrame) : list (list (option string)) :=
  filter (existsb is_some) (records df).

(** The record has nothing under the column found for [candidates]: no
    such column, no cell, or white space only. *)
Definition blank_under (df : CsvFrame) (candidates : list string)
  (record : list (option string)) : bool :=
  match _find_first_match (header df) candidates with
  | Some name =>
      match getitem (header df) record name with
      | Some cell => negb (truthy (Some (strip cell)))
      | None => true
      end
  | None => true
  end.

(** Ascending dates, none of them null. *)
Definition dates_ascend (earlier later : Transaction) : Prop :=
  match date earlier, date later with
  | Some x, Some y => (x <= y)%Z
  | _, _ => False
  end.

Section Ledger.
Variable parse_datetime : string -> option Z.
Variable float : string -> option Q.

(** The cell of the record under the column found for [candidates], read
    as a number; zero when there is no such column, no cell, or no
    number in it. *)
Definition number_under (df : CsvFrame) (candidates : list string)
  (record : list (option string)) : Q :=
  match _find_first_match (header df) candidates with
  | Some name => fillna0 (_clean_numeric float (getitem (header df) record name))
  | None => Qzero
  end.

(** The date read from the record. *)
Definition date_under (df : CsvFrame) (record : list (option string))
  : option Z :=
  match _find_first_match (header df) DATE_CANDIDATES with
  | Some name => to_datetime parse_datetime (getitem (header df) record name)
  | None => None
  end.

(** The date cell of the record parses. *)
Definition dated (df : CsvFrame) (record : list (option string)) : bool :=
  match _find_first_match (header df) DATE_CANDIDATES with
  | Some name =>
      is_some (to_datetime parse_datetime (getitem (header df) record name))
  | None => false
  end.

End Ledger.

End TableTerms.

(** ** io_utils.py: what the removal of transfers leaves *)

Module RemovalTerms.
Import PyStr Re Pandas Py IoUtils TransferTerms.

(** A row the loop can pair: it bears a transfer keyword, its amount is
    positive or negative, and it has a date. *)
Definition pairable (t : Transaction) : bool :=
  has_keyword t && (is_positive t || is_negative t) && is_some (date t).

(** A row that neither step can remove. *)
Definition untouchable (t : Transaction) : bool :=
  negb (is_label t) && negb (pairable t).

(** Two rows that the loop would visit as a pair, were they in one table:
    flagged, of opposite signs, of equal rounded absolute amounts, dated
    within the tolerance. *)
Definition candidates (tolerance_days : Z) (p n : Transaction) : bool :=
  flagged p && flagged n && is_positive p && is_negative n
  && key_eqb (rounded_abs p) (rounded_abs n)
  && diff_le (abs_diff (date p) (date n)) (Timedelta_days tolerance_days).

End RemovalTerms.

(** ** classify.py: what a row is classified as *)

Module LabelTerms.
Import PyStr Re Pandas Py Classify.

(** The pair of labels a classification ends with, or what it raises. *)
Definition labels (m : result Classified) : result (json * json) :=
  bind m (fun c => Ok (category c, sub_category c)).

Definition is_delivery (m : string * string) : bool :=
  String.eqb (fst m) "Food & Drink" && String.eqb (snd m) "Delivery".

(** The tokens [fuzzy_lookup] tries one after the other. *)
Definition tokens (description : string) : list string :=
  split_nonempty (fun c => negb (isword c || is_char "&" c)) description.

Section Local.
Variable get_close_matches : string -> list string -> nat -> Q -> list string.

(** Neither the keyword table nor the fuzzy lookup resolves the row. *)
Definition locally_unresolved (r : Row) : Prop :=
  deterministic_lookup (normalize (description r)) = None
  /\ fuzzy_lookup get_close_matches (normalize (description r)) = Ok None.

End Local.

End LabelTerms.

(** ** streamlit_app.py *)

Module AppTerms.
Import PyStr Pandas Py App.

(** The two date widgets tell the same range of whole days, in order. *)
Definition synced (st : SessionState) : Prop :=
  exists lo hi,
    (lo <= hi)%Z
    /\ date_picker st = Some [lo; hi]
    /\ date_slider st
       = Some (combine lo time_min, combine hi time_max).

(** The row is dated within the slider's range. *)
Definition in_range (start_dt end_dt : datetime) (r : Entry) : bool :=
  date_ge (date r) start_dt && date_le (date r) end_dt.

(** Nothing is selected: the key is missing, or the list is empty. *)
Definition nothing_selected (selected : option (list string)) : Prop :=
  selected = None \/ selected = Some [].

(** The row as the table of the largest expenses shows it: its amount
    with a minus sign. *)
Definition shown (r : Entry) : Entry :=
  set_amount r (option_map (fun x => Qopp (Qabs x)) (amount r)).

End AppTerms.

(** * Sample tables *)

Module Samples.
Import Pandas.

(** One row whose description ends in two runs of digits. *)
Definition stacked_row : Cleaning.Row :=
  Cleaning.mkRow (Val 0%Z) (Some "Bill payment 20240115 4471")
    (Val (-45 # 1)%Q) (Some "Chequing") None None None None.

(** Parsers and a calendar to run the samples with. *)
Definition no_datetime : string -> option Z := fun _ => None.
Definition no_number : string -> option Q := fun _ => None.
Definition some_day : Z -> string := fun _ => "Thursday".
Definition some_month : Z -> string := fun _ => "1970-01".

Definition plain_row : Cleaning.Row :=
  Cleaning.mkRow (Val 0%Z) (Some "  Tim   Hortons ref 1234. ")
    (Val (-45 # 10)%Q) (Some "Chequing") None None None None.

Definition salary_row : Cleaning.Row :=
  Cleaning.mkRow (Val 0%Z) (Some "Payroll deposit")
    (Val (2500 # 1)%Q) None (Some (Val (3000 # 1)%Q)) None None None.

(** A statement with a debit column and no credit column, and an account
    column whose cells differ from row to row. *)
Definition debit_only_frame : IoUtils.CsvFrame :=
  IoUtils.mkCsvFrame ["Date"; "Description"; "Debit"]
    [ [Some "2024-01-05"; Some "Coffee"; Some "4.50"] ].

(** A statement with a debit and a credit column, and a record with
    neither a debit nor a credit. *)
Definition ledger_frame : IoUtils.CsvFrame :=
  IoUtils.mkCsvFrame ["Date"; "Description"; "Debit"; "Credit"]
    [ [Some "2024-01-05"; Some "Coffee"; Some "4.50"; None];
      [Some "2024-01-02"; Some "Opening"; Some "  "; None] ].

Definition two_account_frame : IoUtils.CsvFrame :=
  IoUtils.mkCsvFrame ["Date"; " Description "; "Amount"; "Account Type"]
    [ [Some "2024-01-05"; Some " tim  hortons "; Some "(4.50)"; Some " Savings "];
      [None; None; None; None];
      [Some "2024-01-02"; Some "Payroll"; Some "$2,500.00"; Some "Visa"] ].

(** A parser of the dates and a [float] for the numbers of the samples. *)
Definition sample_datetime (s : string) : option Z :=
  if String.eqb s "2024-01-05" then Some 1704412800000000000%Z
  else if String.eqb s "2024-01-02" then Some 1704153600000000000%Z
  else None.

Definition sample_float (s : string) : option Q :=
  if String.eqb s "4.50" then Some (9 # 2)%Q
  else if String.eqb s "-4.50" then Some (-9 # 2)%Q
  else if String.eqb s "2500.00" then Some (2500 # 1)%Q
  else None.

(** Transfers. *)
Definition day (n : Z) : option Z := Some (n * IoUtils.nanoseconds_per_day)%Z.

Definition transaction (d : Z) (desc : string) (a : Q) : IoUtils.Transaction :=
  IoUtils.mkTransaction (day d) (Some desc) (Some a) "chequing" None.

Definition label_table : list IoUtils.Transaction :=
  [ transaction 3 "Customer Transfer Cr." (300 # 1)%Q;
    transaction 4 "Coffee" (-9 # 2)%Q ].

Definition transfer_out : IoUtils.Transaction :=
  transaction 10 "Transfer to savings" (-300 # 1)%Q.

Definition transfer_in_next_day : IoUtils.Transaction :=
  transaction 11 "XFER from chequing" (300 # 1)%Q.

Definition transfer_in_five_days : IoUtils.Transaction :=
  transaction 15 "XFER from chequing" (300 # 1)%Q.

Definition transfer_out_again : IoUtils.Transaction :=
  transaction 12 "Transfer to tfsa" (-300 # 1)%Q.

Definition transfer_out_same_day : IoUtils.Transaction :=
  transaction 11 "Transfer to tfsa" (-300 # 1)%Q.

(** A credit with a debit one day before it and a debit one day after it. *)
Definition tie_table : list IoUtils.Transaction :=
  [transfer_out; transfer_in_next_day; transfer_out_again].

(** An ascending sort that leaves rows of equal key in the reverse of
    their order. *)
Definition last_first_sort (l : list IoUtils.Pair) : list IoUtils.Pair :=
  IoUtils.sort_values IoUtils.date_diff (rev l).

(** Classification. *)
Definition no_close_matches : string -> list string -> nat -> Q -> list string :=
  fun _ _ _ _ => [].

Definition pets_endpoint : string -> Classify.outcome :=
  fun _ =>
    Classify.Response 200
      (Classify.BodyJson (Classify.JObj [("category", Classify.JStr "Pets")])).

Definition failing_endpoint : string -> Classify.outcome :=
  fun _ => Classify.UrlRaises (Py.HTTPError 503).

(** An endpoint whose answer is the body [{"category": NaN}]. *)
Definition nan_endpoint : string -> Classify.outcome :=
  fun _ =>
    Classify.Response 200
      (Classify.BodyJson (Classify.JObj [("category", Classify.JNaN)])).

(** A configured URL without a scheme: [Request] raises on it. *)
Definition rejected_url_endpoint : string -> Classify.outcome :=
  fun _ =>
    Classify.RequestRaises
      (Py.ValueError "unknown url type: 'classify.example/api'").

(** An endpoint that closes the connection before it answers: [urlopen]
    raises [http.client.RemoteDisconnected], which is neither a
    [URLError], nor a [ValueError], nor a [TimeoutError]. *)
Definition disconnecting_endpoint : string -> Classify.outcome :=
  fun _ => Classify.UrlRaises (Py.OtherError "RemoteDisconnected").

(** An endpoint whose body breaks off: [response.read()] raises
    [http.client.IncompleteRead]. *)
Definition truncating_endpoint : string -> Classify.outcome :=
  fun _ =>
    Classify.Response 200
      (Classify.BodyRaises (Py.OtherError "IncompleteRead")).

Definition vet_table : Classify.DataFrame :=
  Classify.mkDataFrame ["date"; "description"; "amount"]
    [ Classify.mkRow "Vet   Clinic #12" (Some (-80 # 1)%Q) None;
      Classify.mkRow "E-TRF from J. Doe" (Some (120 # 1)%Q) None;
      Classify.mkRow "Rent Downtown Apt" (Some (-1800 # 1)%Q) None ].

(** A credit that bears one of the fixed labels. *)
Definition labelled_in_next_day : IoUtils.Transaction :=
  transaction 11 "Customer Transfer Cr." (300 # 1)%Q.

Definition labelled_in_five_days : IoUtils.Transaction :=
  transaction 15 "Customer Transfer Cr." (300 # 1)%Q.

Definition labelled_out : IoUtils.Transaction :=
  transaction 10 "Customer Transfer Dr." (-300 # 1)%Q.

(** An account column whose first cell is blank. *)
Definition blank_account_frame : IoUtils.CsvFrame :=
  IoUtils.mkCsvFrame ["Date"; "Description"; "Amount"; "Account"]
    [ [Some "2024-01-05"; Some "Coffee"; Some "-4.50"; Some "  "];
      [Some "2024-01-02"; Some "Payroll"; Some "2500.00"; Some "Visa"] ].

End Samples.

(** * More sample data *)

Module Fixtures.

(** An endpoint that answers with a JSON array. *)
Definition array_endpoint : string -> Classify.outcome :=
  fun _ => Classify.Response 200 (Classify.BodyJson (Classify.JArr [])).

Definition vet_row : Classify.Row :=
  Classify.mkRow "Vet   Clinic #12" (Some (-80 # 1)%Q) None.

(** A matcher that proposes the possibilities equal to the word. *)
Definition exact_matches : string -> list string -> nat -> Q -> list string :=
  fun word possibilities _ _ => filter (String.eqb word) possibilities.

End Fixtures.


(** * Tactics *)

Module Tactics.
Import IoUtils TransferTerms.

(** Rows of a small table, one after the other: unfold one layer of the
    list functions, then use what is known of the rows. *)
Ltac rows_eval :=
  repeat (cbn [List.length seq combine filter snd fst negb andb orb map
               flat_map app pair_of set_date_diff abs_diff diff_le
               pair_index_pos pair_index_neg date_pos date_neg date_diff
               sort_by insert_by key_le resolve];
          repeat match goal with
                 | H : _ = _ |- _ => rewrite H
                 end).

Ltac rows_start :=
  unfold dropped, dropped_by, visited_pairs, visited_pairs_by, sorted_pairs,
    sorted_pairs_by, sort_values, enumerated_pairs, positives, negatives,
    kept, enumerate.

End Tactics.

(** * Facts about cleaning.py *)

Module CleaningFacts.
Import PyStr Re Pandas Cleaning CleaningTerms.

Lemma Qpositive_iff (q : Q) : Qpositive q = true <-> (0 < q)%Q.
Proof.
  unfold Qpositive. rewrite negb_true_iff.
  split; intro H.
  - apply Qnot_le_lt. intro Hle. apply Qle_bool_iff in Hle. congruence.
  - destruct (Qle_bool q 0) eqn:E; [|reflexivity].
    apply Qle_bool_iff in E. exfalso. exact (Qlt_not_le _ _ H E).
Qed.

Lemma lower_char_idempotent (c : ascii) : lower_char (lower_char c) = lower_char c.
Proof.
  destruct c as [[] [] [] [] [] [] [] []]; reflexivity.
Qed.

Lemma lower_idempotent (s : string) : lower (lower s) = lower s.
Proof.
  induction s as [|c s IH]; simpl; [reflexivity|].
  now rewrite lower_char_idempotent, IH.
Qed.

Lemma coerce_idempotent {A} (parse : string -> option A) (c : cell A) :
  coerce parse (coerce parse c) = coerce parse c.
Proof.
  destruct c as [|s|a]; simpl; [reflexivity| |reflexivity].
  destruct (parse s); reflexivity.
Qed.

Lemma coerce_notna {A} (parse : string -> option A) (c : cell A) :
  notna (coerce parse c) = true -> exists a, coerce parse c = Val a.
Proof.
  destruct c as [|s|a]; simpl; [discriminate| |eauto].
  destruct (parse s); [eauto|discriminate].
Qed.

Section CleanFacts.
Variable parse_datetime : string -> option Z.
Variable parse_number : string -> option Q.
Variable day_name : Z -> string.
Variable month_period : Z -> string.

Abbreviation clean :=
  (clean_transactions parse_datetime parse_number day_name month_period).
Abbreviation coerce_row :=
  (CleaningTerms.coerce_row parse_datetime parse_number).
Abbreviation finish_row :=
  (CleaningTerms.finish_row parse_number day_name month_period).

Lemma clean_unfold (r0 : Row) (df : list Row) :
  clean (r0 :: df)
  = map finish_row
      (filter survives (map coerce_row (drop_duplicates (r0 :: df)))).
Proof.
  unfold clean_transactions, finish_row, coerce_row, survives.
  rewrite !map_map. reflexivity.
Qed.

Lemma in_clean (df : list Row) (r : Row) :
  In r (clean df) ->
  exists r', r = finish_row (coerce_row r') /\ survives (coerce_row r') = true.
Proof.
  destruct df as [|r0 df]; [contradiction|].
  rewrite clean_unfold. intro H.
  apply in_map_iff in H. destruct H as [x [<- H]].
  apply filter_In in H. destruct H as [H Hs].
  apply in_map_iff in H. destruct H as [r' [<- _]].
  eauto.
Qed.

Lemma survives_values (r : Row) :
  survives (coerce_row r) = true ->
  exists t q, date (coerce_row r) = Val t /\ amount (coerce_row r) = Val q.
Proof.
  unfold survives, coerce_row. simpl. intro H.
  apply andb_true_iff in H. destruct H as [Hd Ha].
  apply coerce_notna in Hd. apply coerce_notna in Ha.
  destruct Hd as [t Ht]. destruct Ha as [q Hq]. eauto.
Qed.

Lemma finish_row_amount (r : Row) : amount (finish_row r) = amount r.
Proof. reflexivity. Qed.

Lemma finish_row_class (r : Row) :
  class_ (finish_row r)
  = astype_category CLASS_CATEGORIES
      (if gt_zero (amount r) then "Earnings" else "Expenses").
Proof. reflexivity. Qed.


Lemma drop_duplicates_from_distinct (seen df : list Row) :
  (forall r s, In r df -> In s seen -> row_eqb r s = false) ->
  distinct_rows df ->
  drop_duplicates_from seen df = df.
Proof.
  revert seen. induction df as [|r df IH]; intros seen Hseen Hd; [reflexivity|].
  simpl. inversion Hd as [|? ? Hr Hd']; subst.
  destruct (existsb (row_eqb r) seen) eqn:E.
  - apply existsb_exists in E. destruct E as [s [Hs E]].
    rewrite (Hseen r s) in E; [discriminate|now left|exact Hs].
  - f_equal. apply IH; [|exact Hd'].
    intros x s Hx [<-|Hs].
    + rewrite Forall_forall in Hr. now apply Hr.
    + apply Hseen; [now right|exact Hs].
Qed.

Lemma drop_duplicates_distinct (df : list Row) :
  distinct_rows df -> drop_duplicates df = df.
Proof.
  intro H. apply drop_duplicates_from_distinct; [|exact H].
  intros r s _ [].
Qed.

(** A second pass over a row of the result changes nothing but, possibly,
    the description. *)
Lemma row_ext (r s : Row) :
  date r = date s -> description r = description s -> amount r = amount s ->
  account_name r = account_name s -> balance r = balance s ->
  class_ r = class_ s -> weekday_name r = weekday_name s ->
  month r = month s -> r = s.
Proof. destruct r, s; simpl; congruence. Qed.

(** The columns of a row after each half of a pass. *)
Lemma coerce_row_fields (r : Row) :
  date (coerce_row r) = coerce parse_datetime (date r)
  /\ description (coerce_row r) = description r
  /\ amount (coerce_row r) = coerce parse_number (amount r)
  /\ account_name (coerce_row r) = account_name r
  /\ balance (coerce_row r) = balance r
  /\ class_ (coerce_row r) = class_ r
  /\ weekday_name (coerce_row r) = weekday_name r
  /\ month (coerce_row r) = month r.
Proof. repeat split. Qed.

Lemma finish_row_fields (r : Row) :
  date (finish_row r) = date r
  /\ description (finish_row r)
     = Some (standardize_description (Some (fillna "" (description r))))
  /\ amount (finish_row r) = amount r
  /\ account_name (finish_row r)
     = Some (lower (fillna "chequing" (account_name r)))
  /\ balance (finish_row r) = option_map (coerce parse_number) (balance r)
  /\ class_ (finish_row r)
     = astype_category CLASS_CATEGORIES
         (if gt_zero (amount r) then "Earnings" else "Expenses")
  /\ weekday_name (finish_row r) = option_map day_name (timestamp_of (date r))
  /\ month (finish_row r) = option_map month_period (timestamp_of (date r)).
Proof. repeat split. Qed.

Lemma second_pass_row (r' : Row) :
  survives (coerce_row r') = true ->
  let r := finish_row (coerce_row r') in
  survives (coerce_row r) = true
  /\ (description r = Some (standardize_description (description r)) ->
      finish_row (coerce_row r) = r).
Proof.
  intros Hs r.
  destruct (survives_values _ Hs) as [t [q [Ht Hq]]].
  destruct (finish_row_fields (coerce_row r'))
    as [Fd [Fs [Fa [Fn [Fb [Fc [Fw Fm]]]]]]].
  fold r in Fd, Fs, Fa, Fn, Fb, Fc, Fw, Fm.
  destruct (coerce_row_fields r) as [Cd [Cs [Ca [Cn [Cb [Cc [Cw Cm]]]]]]].
  destruct (finish_row_fields (coerce_row r))
    as [Gd [Gs [Ga [Gn [Gb [Gc [Gw Gm]]]]]]].
  assert (date (coerce_row r) = Val t) as Dt.
  { rewrite Cd, Fd, Ht. reflexivity. }
  assert (amount (coerce_row r) = Val q) as Aq.
  { rewrite Ca, Fa, Hq. reflexivity. }
  split.
  - unfold survives. now rewrite Dt, Aq.
  - intro Hdesc. apply row_ext.
    + now rewrite Gd, Dt, Fd.
    + rewrite Gs, Cs.
      destruct (description r) as [d|]; [|discriminate Hdesc].
      cbn [fillna]. symmetry. exact Hdesc.
    + now rewrite Ga, Aq, Fa.
    + rewrite Gn, Cn, Fn. cbn [fillna]. now rewrite lower_idempotent.
    + rewrite Gb, Cb, Fb.
      destruct (balance (coerce_row r')) as [b|]; [|reflexivity].
      cbn [option_map]. now rewrite coerce_idempotent.
    + now rewrite Gc, Aq, Fc, Hq.
    + now rewrite Gw, Dt, Fw, Ht.
    + now rewrite Gm, Dt, Fm, Ht.
Qed.

Lemma second_pass_rows (l : list Row) :
  (forall r, In r l -> exists r', r = finish_row (coerce_row r')
                               /\ survives (coerce_row r') = true) ->
  (forall r, In r l ->
     description r = Some (standardize_description (description r))) ->
  map finish_row (filter survives (map coerce_row l)) = l.
Proof.
  induction l as [|r l IH]; intros Hshape Hdesc; [reflexivity|].
  destruct (Hshape r (or_introl eq_refl)) as [r' [Hr Hs]].
  destruct (second_pass_row r' Hs) as [Hs2 Hfix].
  rewrite <- Hr in Hs2, Hfix.
  cbn [map filter]. rewrite Hs2. cbn [map]. f_equal.
  - apply Hfix, Hdesc. now left.
  - apply IH; intros x Hx; [apply Hshape|apply Hdesc]; now right.
Qed.

Lemma drop_duplicates_from_incl (seen df : list Row) (r : Row) :
  In r (drop_duplicates_from seen df) -> In r df.
Proof.
  revert seen. induction df as [|x df IH]; intros seen; simpl; [tauto|].
  destruct (existsb (row_eqb x) seen); simpl.
  - intro H. right. now apply (IH seen).
  - intros [<-|H]; [now left|]. right. now apply (IH (x :: seen)).
Qed.

Lemma drop_duplicates_from_length (seen df : list Row) :
  List.length (drop_duplicates_from seen df) <= List.length df.
Proof.
  revert seen. induction df as [|x df IH]; intros seen; simpl; [lia|].
  destruct (existsb (row_eqb x) seen); simpl.
  - specialize (IH seen). lia.
  - specialize (IH (x :: seen)). lia.
Qed.

(** A table from which [drop_duplicates] removes nothing has no two equal
    rows. *)
Lemma drop_duplicates_from_full (seen df : list Row) :
  List.length (drop_duplicates_from seen df) = List.length df ->
  distinct_rows df
  /\ (forall r s, In r df -> In s seen -> row_eqb r s = false).
Proof.
  revert seen. induction df as [|x df IH]; intros seen H; simpl in H.
  - split; [constructor|intros r s []].
  - destruct (existsb (row_eqb x) seen) eqn:E.
    + pose proof (drop_duplicates_from_length seen df). simpl in H. lia.
    + simpl in H. injection H as H.
      destruct (IH (x :: seen) H) as [Hd Hs].
      split.
      * constructor; [|exact Hd].
        apply Forall_forall. intros later Hl. apply Hs; [exact Hl|now left].
      * intros r s [<-|Hr] Hin.
        -- destruct (row_eqb x s) eqn:F; [|reflexivity].
           assert (existsb (row_eqb x) seen = true) as Ht; [|congruence].
           apply existsb_exists. eauto.
        -- apply Hs; [exact Hr|now right].
Qed.

(** A row of a cleaned table is left as it is by the coercions, and
    survives [dropna]. *)
Lemma cleaned_row (r' : Row) :
  survives (coerce_row r') = true ->
  let r := finish_row (coerce_row r') in
  coerce_row r = r /\ survives r = true
  /\ description r
     = Some (standardize_description (Some (fillna "" (description r')))).
Proof.
  intros Hs r.
  destruct (survives_values _ Hs) as [t [q [Ht Hq]]].
  destruct (finish_row_fields (coerce_row r'))
    as [Fd [Fs [Fa [Fn [Fb [Fc [Fw Fm]]]]]]].
  fold r in Fd, Fs, Fa, Fn, Fb, Fc, Fw, Fm.
  destruct (coerce_row_fields r) as [Cd [Cs [Ca [Cn [Cb [Cc [Cw Cm]]]]]]].
  split; [|split].
  - apply row_ext; try assumption.
    + now rewrite Cd, Fd, Ht.
    + now rewrite Ca, Fa, Hq.
  - unfold survives. now rewrite Fd, Fa, Ht, Hq.
  - exact Fs.
Qed.

(** On a cleaned table the second pass is [drop_duplicates] followed by the
    second half of the pass. *)
Lemma second_pass_valid (l : list Row) :
  (forall r, In r l -> exists r', r = finish_row (coerce_row r')
                               /\ survives (coerce_row r') = true) ->
  map finish_row (filter survives (map coerce_row l)) = map finish_row l.
Proof.
  induction l as [|r l IH]; intro Hshape; [reflexivity|].
  destruct (Hshape r (or_introl eq_refl)) as [r' [Hr Hs]].
  destruct (cleaned_row r' Hs) as [Hc [Hv _]].
  rewrite <- Hr in Hc, Hv.
  cbn [map filter]. rewrite Hc, Hv. cbn [map]. f_equal.
  apply IH. intros x Hx. apply Hshape. now right.
Qed.

Lemma map_fixed {A} (f : A -> A) (l : list A) :
  map f l = l <-> forall x, In x l -> f x = x.
Proof.
  induction l as [|a l IH]; simpl.
  - split; [intros _ x []|reflexivity].
  - split.
    + intros [= Ha Hl] x [<-|Hx]; [exact Ha|]. now apply IH.
    + intro H. f_equal; [now apply H; left|].
      apply IH. intros x Hx. apply H. now right.
Qed.

(** The second half of the pass fixes a cleaned row exactly when
    [standardize_description] fixes its description. *)
Lemma finish_cleaned_row (r' : Row) :
  survives (coerce_row r') = true ->
  let r := finish_row (coerce_row r') in
  finish_row r = r
  <-> description r = Some (standardize_description (description r)).
Proof.
  intros Hs r.
  destruct (cleaned_row r' Hs) as [Hc [Hv Hd]]. fold r in Hc, Hv, Hd.
  destruct (second_pass_row r' Hs) as [_ Hfix]. fold r in Hfix.
  rewrite Hc in Hfix. split; [|exact Hfix].
  intro H.
  destruct (finish_row_fields r) as [_ [Fs _]].
  rewrite H in Fs. rewrite Fs at 1.
  destruct (description r) as [d|]; [reflexivity|discriminate Hd].
Qed.

(** C3, as amended.  A second pass of [clean_transactions] returns the
    cleaned table unchanged exactly when that table has no two equal rows
    and [standardize_description] leaves each of its descriptions as it
    is. *)
Theorem clean_transactions_idempotent_iff (df : list Row) :
  clean (clean df) = clean df
  <-> distinct_rows (clean df)
      /\ (forall r, In r (clean df) ->
            description r = Some (standardize_description (description r))).
Proof.
  destruct (clean df) as [|r0 l] eqn:E.
  { split; [intros _|reflexivity]. split; [constructor|intros r []]. }
  assert (forall r, In r (r0 :: l) ->
            exists r', r = finish_row (coerce_row r')
                       /\ survives (coerce_row r') = true) as Hshape.
  { intros r Hr. apply (in_clean df). now rewrite E. }
  rewrite clean_unfold. split.
  - intro H.
    rewrite second_pass_valid in H
      by (intros r Hr; apply Hshape;
          now apply (drop_duplicates_from_incl [] (r0 :: l))).
    assert (List.length (drop_duplicates (r0 :: l)) = List.length (r0 :: l))
      as Hlen.
    { rewrite <- H at 2. now rewrite length_map. }
    destruct (drop_duplicates_from_full [] (r0 :: l) Hlen) as [Hd _].
    split; [exact Hd|].
    rewrite (drop_duplicates_distinct _ Hd) in H.
    intros r Hr. destruct (Hshape r Hr) as [r' [-> Hs]].
    apply (finish_cleaned_row r' Hs).
    exact (proj1 (map_fixed _ _) H _ Hr).
  - intros [Hd Hdesc].
    rewrite (drop_duplicates_distinct _ Hd).
    now apply second_pass_rows.
Qed.

End CleanFacts.

(** C3 fails as stated: [standardize_description] removes one trailing run
    of digits per pass, so a description that ends in two of them changes
    again on the second pass, and so does the table that holds it. *)
Lemma clean_transactions_not_idempotent :
  standardize_description (Some "Bill payment 20240115 4471")
    = "Bill payment 20240115"
  /\ standardize_description (Some "Bill payment 20240115") = "Bill payment"
  /\ (forall parse_datetime parse_number day_name month_period,
        let clean :=
          clean_transactions parse_datetime parse_number day_name month_period in
        clean (clean [Samples.stacked_row]) <> clean [Samples.stacked_row]).
Proof.
  split; [vm_compute; reflexivity|].
  split; [vm_compute; reflexivity|].
  intros pd pn dn mp clean H.
  unfold clean in H. vm_compute in H. discriminate H.
Qed.


Lemma clean_transactions_idempotent_witness :
  let clean :=
    clean_transactions Samples.no_datetime Samples.no_number
      Samples.some_day Samples.some_month in
  let df := [Samples.salary_row; Samples.plain_row; Samples.salary_row] in
  clean (clean df) = clean df.
Proof.
  intros clean df.
  apply (proj2 (clean_transactions_idempotent_iff Samples.no_datetime
                  Samples.no_number Samples.some_day Samples.some_month df)).
  split.
  - vm_compute. repeat constructor.
  - intros r Hr. vm_compute in Hr.
    destruct Hr as [<-|[<-|[]]]; vm_compute; reflexivity.
Defined.

End CleaningFacts.

(** * Facts about the sort *)

Module SortFacts.
Import IoUtils.

Section Sorting.
Context {A : Type} (le : A -> A -> bool).

Lemma insert_by_perm (x : A) (l : list A) : Permutation (insert_by le x l) (x :: l).
Proof.
  induction l as [|y l IH]; simpl; [reflexivity|].
  destruct (le x y); [reflexivity|].
  rewrite IH. apply perm_swap.
Qed.

Lemma sort_by_perm (l : list A) : Permutation (sort_by le l) l.
Proof.
  induction l as [|x l IH]; simpl; [reflexivity|].
  rewrite insert_by_perm. now constructor.
Qed.

Lemma sort_by_In (l : list A) (x : A) : In x (sort_by le l) <-> In x l.
Proof.
  split; apply Permutation_in; [|symmetry]; apply sort_by_perm.
Qed.

Lemma sort_by_nil (l : list A) : sort_by le l = [] -> l = [].
Proof.
  intro H. apply Permutation_nil. rewrite <- H at 1. apply sort_by_perm.
Qed.

Hypothesis le_total : forall x y, le x y = true \/ le y x = true.
Hypothesis le_trans : forall x y z, le x y = true -> le y z = true -> le x z = true.

Lemma insert_by_sorted (x : A) (l : list A) :
  StronglySorted (fun a b => le a b = true) l ->
  StronglySorted (fun a b => le a b = true) (insert_by le x l).
Proof using le_total le_trans.
  induction 1 as [|y l Hs IH Hy]; simpl.
  - repeat constructor.
  - destruct (le x y) eqn:E.
    + constructor; [now constructor|].
      constructor; [exact E|].
      rewrite Forall_forall in *. eauto.
    + constructor; [exact IH|].
      rewrite Forall_forall in *. intros z Hz.
      apply (Permutation_in _ (insert_by_perm x l)) in Hz.
      destruct Hz as [<-|Hz]; [|auto].
      destruct (le_total x y) as [H|H]; congruence.
Qed.

Lemma sort_by_sorted (l : list A) :
  StronglySorted (fun a b => le a b = true) (sort_by le l).
Proof using le_total le_trans.
  induction l as [|x l IH]; simpl; [constructor|].
  now apply insert_by_sorted.
Qed.

(** Stability: among the elements a test [same] selects, the order is that
    of the input as soon as the test only selects elements that compare
    equal. *)
Lemma insert_by_filter (same : A -> bool) (x : A) (l : list A) :
  (forall y, In y l -> same x = true -> same y = true -> le x y = true) ->
  filter same (insert_by le x l) = filter same (x :: l).
Proof.
  induction l as [|y l IH]; intro H; [reflexivity|].
  simpl. destruct (le x y) eqn:E; [reflexivity|].
  simpl. rewrite IH by (intros; apply H; [now right|assumption..]).
  simpl. destruct (same x) eqn:Ex; [|reflexivity].
  destruct (same y) eqn:Ey; [|reflexivity].
  rewrite (H y (or_introl eq_refl) eq_refl Ey) in E. discriminate E.
Qed.

Lemma sort_by_stable (same : A -> bool) (l : list A) :
  (forall x y, same x = true -> same y = true -> le x y = true) ->
  filter same (sort_by le l) = filter same l.
Proof.
  intro H. induction l as [|x l IH]; [reflexivity|].
  simpl sort_by. rewrite insert_by_filter by (intros; now apply H).
  simpl. now rewrite IH.
Qed.

End Sorting.

Lemma key_le_total (a b : option Z) : key_le a b = true \/ key_le b a = true.
Proof.
  destruct a as [x|], b as [y|]; simpl; auto.
  destruct (Z.leb_spec x y); [now left|right].
  apply Z.leb_le. lia.
Qed.

Lemma key_le_trans (a b c : option Z) :
  key_le a b = true -> key_le b c = true -> key_le a c = true.
Proof.
  destruct a as [x|], b as [y|], c as [z|]; simpl; try easy.
  rewrite !Z.leb_le. lia.
Qed.

End SortFacts.

(** * Facts about io_utils.py: reading a statement *)

Module ReadFacts.
Import PyStr Re Pandas Py IoUtils ReadTerms.

Lemma first_some_none {A B} (f : A -> option B) (l : list A) :
  first_some f l = None <-> forall a, In a l -> f a = None.
Proof.
  induction l as [|x l IH]; simpl.
  - split; [intros _ a []|reflexivity].
  - destruct (f x) eqn:E.
    + split; [discriminate|]. intro H. rewrite <- E. apply H. now left.
    + rewrite IH. split.
      * intros H a [<-|Ha]; auto.
      * intros H a Ha. apply H. now right.
Qed.

Lemma first_some_some {A B} (f : A -> option B) (l : list A) (b : B) :
  first_some f l = Some b -> exists a, In a l /\ f a = Some b.
Proof.
  induction l as [|x l IH]; simpl; [discriminate|].
  destruct (f x) eqn:E.
  - intros [= <-]. exists x. auto.
  - intro H. destruct (IH H) as [a [Ha Hf]]. exists a. auto.
Qed.

Lemma eqb_endswith (suffix s : string) :
  String.eqb suffix s = true -> endswith suffix s = true.
Proof.
  intro H. destruct s; simpl; rewrite H; reflexivity.
Qed.

Lemma endswith_nonempty (suffix s : string) :
  endswith suffix s = true -> suffix <> "" -> s <> "".
Proof.
  intros H Hs ->. simpl in H. apply String.eqb_eq in H. contradiction.
Qed.

Lemma find_first_match_none (columns candidates : list string) :
  _find_first_match columns candidates = None
  <-> has_column columns candidates = false.
Proof.
  unfold _find_first_match, has_column.
  destruct (find _ candidates) as [c|] eqn:E.
  - split; [discriminate|]. intro H.
    apply find_some in E. destruct E as [Hc E].
    apply existsb_exists in E. destruct E as [col [Hcol E]].
    assert (existsb (fun candidate => existsb (endswith candidate) columns)
              candidates = true) as Ht; [|congruence].
    apply existsb_exists. exists c. split; [exact Hc|].
    apply existsb_exists. exists col. split; [exact Hcol|].
    now apply eqb_endswith.
  - rewrite first_some_none. split.
    + intro H. apply not_true_is_false. intro Ht.
      apply existsb_exists in Ht. destruct Ht as [c [Hc Ht]].
      apply existsb_exists in Ht. destruct Ht as [col [Hcol Ht]].
      specialize (H c Hc).
      apply (find_none _ _ H) in Hcol. congruence.
    + intros H c Hc.
      destruct (find (fun col => endswith c col) columns) as [col|] eqn:F;
        [|reflexivity].
      apply find_some in F. destruct F as [Hcol F].
      assert (existsb (fun candidate => existsb (endswith candidate) columns)
                candidates = true) as Ht; [|congruence].
      apply existsb_exists. exists c. split; [exact Hc|].
      apply existsb_exists. exists col. auto.
Qed.

Lemma find_first_match_truthy (columns candidates : list string) (s : string) :
  Forall (fun c => c <> "") candidates ->
  _find_first_match columns candidates = Some s ->
  truthy (Some s) = true.
Proof.
  intros Hne H.
  assert (s <> "") as Hs.
  { unfold _find_first_match in H. rewrite Forall_forall in Hne.
    destruct (find _ candidates) as [c|] eqn:E.
    - injection H as <-. apply find_some in E. apply Hne, E.
    - apply first_some_some in H. destruct H as [c [Hc H]].
      apply find_some in H. destruct H as [_ H].
      apply (endswith_nonempty c s H). now apply Hne. }
  destruct s; [contradiction|reflexivity].
Qed.

Lemma candidates_nonempty :
  Forall (fun c => c <> "") AMOUNT_CANDIDATES
  /\ Forall (fun c => c <> "") DEBIT_CANDIDATES
  /\ Forall (fun c => c <> "") CREDIT_CANDIDATES
  /\ Forall (fun c => c <> "") ACCOUNT_CANDIDATES
  /\ Forall (fun c => c <> "") BALANCE_CANDIDATES.
Proof.
  repeat split; repeat constructor; discriminate.
Qed.

Lemma truthy_match (columns candidates : list string) :
  Forall (fun c => c <> "") candidates ->
  truthy (_find_first_match columns candidates) = has_column columns candidates.
Proof.
  intro Hne.
  destruct (_find_first_match columns candidates) as [s|] eqn:E.
  - rewrite (find_first_match_truthy _ _ _ Hne E).
    destruct (has_column columns candidates) eqn:Hh; [reflexivity|].
    apply find_first_match_none in Hh. congruence.
  - apply find_first_match_none in E. now rewrite E.
Qed.

Lemma infer_account_name_cases (file_name : option string)
  (account_column : option (list (option string))) :
  infer_account_name file_name account_column
  = match account_column with
    | Some column =>
        match first_notna column with
        | Some cell =>
            if String.eqb (strip cell) "" then filename_label file_name
            else lower (strip cell)
        | None => filename_label file_name
        end
    | None => filename_label file_name
    end.
Proof.
  assert (filename_label file_name
          = infer_account_name file_name None) as Hf.
  { destruct file_name as [[|c name]|]; reflexivity. }
  rewrite Hf. unfold infer_account_name, first_notna.
  destruct account_column as [column|]; [|reflexivity].
  destruct (first_some (fun c => c) column) as [cell|]; [|reflexivity].
  destruct (strip cell); reflexivity.
Qed.

Section Read.
Variable parse_datetime : string -> option Z.
Variable float : string -> option Q.

Abbreviation read := (read_scotiabank_csv parse_datetime float).

(** C4, as amended.  On a frame whose normalized header repeats no name,
    [read_scotiabank_csv] raises one of its two schema errors exactly when
    the header has no date column, or no description column, or none of
    an amount column, a debit column and a credit column; it then returns
    no table, it raises nothing else, and in every other case it returns a
    table.  The condition on the header is the domain of [getitem]: where
    two columns normalize to one name, [df[name]] is a table, not a
    column, and pandas raises an error of its own. *)
Theorem read_scotiabank_csv_schema_error (df : CsvFrame)
  (file_name : option string) :
  NoDup (_normalize_columns (columns df)) ->
  (schema_error (read df file_name) <-> schema_incomplete df)
  /\ ((exists table, read df file_name = Ok table) <-> ~ schema_incomplete df)
  /\ (forall e, read df file_name = Raise e -> exists msg, e = ValueError msg)
  /\ (has_column (_normalize_columns (columns df)) DATE_CANDIDATES = false
      \/ has_column (_normalize_columns (columns df)) DESCRIPTION_CANDIDATES
         = false ->
      read df file_name
      = Raise (ValueError "Required columns not found in uploaded file.")).
Proof.
  intros _.
  unfold schema_incomplete, schema_error, read_scotiabank_csv. cbv zeta.
  set (cols := _normalize_columns (columns df)).
  destruct candidates_nonempty as [Ha [Hd [Hc _]]].
  rewrite (truthy_match cols _ Ha), (truthy_match cols _ Hd),
    (truthy_match cols _ Hc).
  pose proof (find_first_match_none cols DATE_CANDIDATES) as Hdate.
  pose proof (find_first_match_none cols DESCRIPTION_CANDIDATES) as Hdesc.
  destruct (_find_first_match cols DATE_CANDIDATES) as [dc|];
    destruct (_find_first_match cols DESCRIPTION_CANDIDATES) as [sc|];
    destruct (has_column cols DATE_CANDIDATES);
    destruct (has_column cols DESCRIPTION_CANDIDATES);
    try (exfalso; (apply proj1 in Hdate || idtac); (apply proj1 in Hdesc || idtac);
         first [ now (specialize (Hdate eq_refl))
               | now (specialize (Hdesc eq_refl)) ]);
    try (exfalso; destruct Hdate as [_ Hdate]; now specialize (Hdate eq_refl));
    try (exfalso; destruct Hdesc as [_ Hdesc]; now specialize (Hdesc eq_refl));
    clear Hdate Hdesc;
    destruct (has_column cols AMOUNT_CANDIDATES);
    destruct (has_column cols DEBIT_CANDIDATES);
    destruct (has_column cols CREDIT_CANDIDATES);
    cbn [bind orb andb negb];
    (split; [|split; [|split]]);
    try (intros [H|H]; first [discriminate H|reflexivity]);
    try (split; [intros [H|H]; discriminate H
                |intros [H|[H|[H1 [H2 H3]]]]; discriminate]);
    try (split; [intros _; intros [H|[H|[H1 [H2 H3]]]]; discriminate
                |intros _; eexists; reflexivity]);
    try (intros e H; discriminate H);
    try (split; [intros _; tauto | intros _; first [now left|now right]]);
    try (split; [intros [table H]; discriminate H | intros H; exfalso; apply H; tauto]);
    try (intros e [= <-]; eexists; reflexivity).
Qed.

(** C10, as amended.  All rows [read_scotiabank_csv] returns for one file
    carry one account name, the one [infer_account_name] computes once for
    the file: the first non-null cell of the detected account column,
    stripped and lower-cased, when that is not blank; the label of the file
    name otherwise. *)
Theorem read_scotiabank_csv_one_account (df : CsvFrame)
  (file_name : option string) (table : list Transaction) :
  read df file_name = Ok table ->
  let name := infer_account_name file_name (account_series df) in
  Forall (fun t => account_name t = name) table
  /\ name = match account_series df with
            | Some column =>
                match first_notna column with
                | Some cell =>
                    if String.eqb (strip cell) "" then filename_label file_name
                    else lower (strip cell)
                | None => filename_label file_name
                end
            | None => filename_label file_name
            end
  /\ In (filename_label file_name)
       ["chequing"; "savings"; "credit card"; "tfsa"].
Proof.
  intros H name. split; [|split].
  - unfold read_scotiabank_csv in H. cbv zeta in H.
    set (cols := _normalize_columns (columns df)) in *.
    destruct (_find_first_match cols DATE_CANDIDATES) as [dc|];
      [|discriminate H].
    destruct (_find_first_match cols DESCRIPTION_CANDIDATES) as [sc|];
      [|discriminate H].
    assert (name
            = infer_account_name file_name
                (if truthy (_find_first_match cols ACCOUNT_CANDIDATES)
                 then option_map
                        (fun name => map (fun r => getitem cols r name)
                                       (filter (existsb is_some) (records df)))
                        (_find_first_match cols ACCOUNT_CANDIDATES)
                 else None)) as Hname.
    { unfold name, account_series. cbv zeta. fold cols.
      destruct (_find_first_match cols ACCOUNT_CANDIDATES) as [a|] eqn:E;
        [|reflexivity].
      destruct candidates_nonempty as [_ [_ [_ [Hacc _]]]].
      now rewrite (find_first_match_truthy _ _ _ Hacc E). }
    rewrite <- Hname in H.
    match type of H with
    | bind ?m _ = _ => destruct m as [f|e]; [|discriminate H]
    end.
    cbn [bind] in H. injection H as <-.
    apply Forall_forall. intros t Ht.
    unfold sort_values in Ht. apply SortFacts.sort_by_In in Ht.
    apply filter_In in Ht. destruct Ht as [Ht _].
    apply in_map_iff in Ht. destruct Ht as [r [<- _]]. reflexivity.
  - apply infer_account_name_cases.
  - unfold filename_label.
    destruct file_name as [[|c f]|]; simpl; auto.
    repeat match goal with
           | |- context [if ?b then _ else _] => destruct b
           end; simpl; auto.
Qed.

End Read.

(** C4 fails as stated: a header with a debit column and no credit column
    has neither an amount column nor a debit/credit pair, and the file is
    read all the same. *)
Lemma read_scotiabank_csv_debit_only :
  schema_incomplete_pair Samples.debit_only_frame
  /\ read_scotiabank_csv Samples.sample_datetime Samples.sample_float
       Samples.debit_only_frame None
     = Ok [ mkTransaction (Some 1704412800000000000%Z) (Some "Coffee")
              (Some (-9 # 2)%Q) "chequing" None ].
Proof.
  split.
  - right. right. split; reflexivity.
  - vm_compute. reflexivity.
Qed.

(** C10 fails as stated: the account name is not the lower-cased first
    non-null cell when that cell has blanks around it, and it is the label
    of the file name when that cell is blank, whatever the cells below. *)
Lemma read_scotiabank_csv_account_stripped :
  (account_series Samples.two_account_frame
     = Some [Some " Savings "; Some "Visa"]
   /\ lower " Savings " = " savings "
   /\ exists table,
        read_scotiabank_csv Samples.sample_datetime Samples.sample_float
          Samples.two_account_frame (Some "statement.csv") = Ok table
        /\ map account_name table = ["savings"; "savings"])
  /\ (account_series Samples.blank_account_frame
        = Some [Some "  "; Some "Visa"]
      /\ exists table,
           read_scotiabank_csv Samples.sample_datetime Samples.sample_float
             Samples.blank_account_frame (Some "my_tfsa.csv") = Ok table
           /\ map account_name table = ["tfsa"; "tfsa"]).
Proof.
  split.
  - split; [reflexivity|]. split; [reflexivity|].
    eexists. split; vm_compute; reflexivity.
  - split; [reflexivity|].
    eexists. split; vm_compute; reflexivity.
Qed.

Lemma read_scotiabank_csv_schema_error_witness :
  exists table,
    read_scotiabank_csv Samples.sample_datetime Samples.sample_float
      Samples.two_account_frame (Some "statement.csv") = Ok table.
Proof.
  refine (proj2 (proj1 (proj2 (read_scotiabank_csv_schema_error
                                 Samples.sample_datetime Samples.sample_float
                                 Samples.two_account_frame
                                 (Some "statement.csv") _))) _).
  - vm_compute. repeat constructor; simpl; intuition discriminate.
  - intros [H|[H|[H _]]]; vm_compute in H; discriminate H.
Defined.

Lemma read_scotiabank_csv_one_account_witness :
  exists table,
    read_scotiabank_csv Samples.sample_datetime Samples.sample_float
      Samples.two_account_frame (Some "statement.csv") = Ok table
    /\ List.length table = 2
    /\ Forall (fun t => account_name t = "savings") table.
Proof.
  eexists. split; [vm_compute; reflexivity|].
  split; [reflexivity|].
  exact (proj1 (read_scotiabank_csv_one_account
                  Samples.sample_datetime Samples.sample_float
                  Samples.two_account_frame (Some "statement.csv") _
                  eq_refl)).
Defined.

End ReadFacts.

(** * Facts about io_utils.py: internal transfers *)

Module TransferFacts.
Import PyStr Re Pandas Py IoUtils TransferTerms Tactics.

(** ** The function, row by row

    What the helper columns of [working] say about a row of the input. *)

Lemma filter_map_comm {A B} (f : B -> bool) (g : A -> B) (l : list A) :
  filter f (map g l) = map g (filter (fun x => f (g x)) l).
Proof.
  induction l as [|x l IH]; simpl; [reflexivity|].
  destruct (f (g x)); simpl; now rewrite IH.
Qed.

Lemma filter_none {A} (f : A -> bool) (l : list A) :
  (forall x, In x l -> f x = false) -> filter f l = [].
Proof.
  induction l as [|x l IH]; intro H; simpl; [reflexivity|].
  rewrite (H x) by now left. apply IH. intros y Hy. apply H. now right.
Qed.

Lemma filter_all {A} (f : A -> bool) (l : list A) :
  (forall x, In x l -> f x = true) -> filter f l = l.
Proof.
  induction l as [|x l IH]; intro H; simpl; [reflexivity|].
  rewrite (H x) by now left. f_equal. apply IH. intros y Hy. apply H. now right.
Qed.

Lemma flat_map_nil {A B} (f : A -> list B) (l : list A) :
  (forall x, In x l -> f x = []) -> flat_map f l = [].
Proof.
  induction l as [|x l IH]; intro H; simpl; [reflexivity|].
  rewrite (H x) by now left. apply IH. intros y Hy. apply H. now right.
Qed.

Lemma working_rows (df : list Transaction) :
  map set_flags (filter (fun w => negb (mask_customer w)) (reset_index df))
  = map working_of (kept df).
Proof.
  unfold reset_index, kept, enumerate.
  rewrite filter_map_comm, map_map.
  rewrite (filter_ext
             (fun x => negb (mask_customer
                               (let '(i, r) := x in
                                mkWorking i r (option_map lower (description r))
                                  false None)))
             (fun x => negb (is_label (snd x))))
    by (intros [i r]; unfold mask_customer, is_label; cbn;
        destruct (description r); reflexivity).
  apply map_ext. intros [i r]. reflexivity.
Qed.

Lemma working_positives (df : list Transaction) :
  filter (fun w => amount_gt_zero w && transfer_flag w)
    (map working_of (kept df))
  = map working_of (positives df).
Proof. now rewrite filter_map_comm. Qed.

Lemma working_negatives (df : list Transaction) :
  filter (fun w => amount_lt_zero w && transfer_flag w)
    (map working_of (kept df))
  = map working_of (negatives df).
Proof. now rewrite filter_map_comm. Qed.

Lemma working_merge (df : list Transaction) :
  merge (map working_of (positives df)) (map working_of (negatives df))
  = enumerated_pairs df.
Proof.
  unfold merge, enumerated_pairs.
  rewrite flat_map_concat_map, map_map, <- flat_map_concat_map.
  apply flat_map_ext. intro p.
  now rewrite filter_map_comm, map_map.
Qed.

Lemma resolve_nil_pairs (tolerance_days : Z) :
  resolve (sorted_pairs [] tolerance_days) ∅ ∅ ∅ = ∅.
Proof. reflexivity. Qed.

(** [remove_internal_transfers], whichever way it returns: the rows left
    after step 1 whose index the loop has not put in [to_drop]. *)
Lemma remove_internal_transfers_by_eq (sort : list Pair -> list Pair)
  (df : list Transaction) (tolerance_days : Z) :
  sort [] = [] ->
  remove_internal_transfers_by sort df tolerance_days
  = map snd
      (filter
         (fun x => negb (bool_decide (fst x ∈ dropped_by sort df tolerance_days)))
         (kept df)).
Proof.
  intro Hnil.
  assert (resolve (sorted_pairs_by sort [] tolerance_days) ∅ ∅ ∅ = ∅) as Hres.
  { unfold sorted_pairs_by. cbn [map filter]. now rewrite Hnil. }
  assert (forall D : gset nat,
            map row (filter (fun w => negb (bool_decide (index w ∈ D)))
                       (map working_of (kept df)))
            = map snd (filter (fun x => negb (bool_decide (fst x ∈ D)))
                         (kept df))) as Hfinal.
  { intro D. now rewrite filter_map_comm, map_map. }
  assert (map row (map working_of (kept df)) = map snd (kept df)) as Hall.
  { now rewrite map_map. }
  assert (forall l : list (nat * Transaction),
            filter (fun x => negb (bool_decide (fst x ∈ (∅ : gset nat)))) l = l)
    as Hempty.
  { intro l. apply filter_all. intros x _. reflexivity. }
  unfold remove_internal_transfers_by, dropped_by, visited_pairs_by.
  destruct df as [|t df]; [reflexivity|].
  cbv zeta. rewrite working_rows, working_positives, working_negatives.
  rewrite working_merge.
  assert (positives (t :: df) = [] -> enumerated_pairs (t :: df) = []) as Hpos.
  { intro E. unfold enumerated_pairs. now rewrite E. }
  assert (negatives (t :: df) = [] -> enumerated_pairs (t :: df) = []) as Hneg.
  { intro E. unfold enumerated_pairs. rewrite E. now apply flat_map_nil. }
  destruct (positives (t :: df)) as [|p ps] eqn:Ep.
  { cbn [map]. now rewrite (Hpos eq_refl), Hres, Hall, Hempty. }
  destruct (negatives (t :: df)) as [|n ns] eqn:En.
  { cbn [map]. now rewrite (Hneg eq_refl), Hres, Hall, Hempty. }
  cbn [map].
  destruct (enumerated_pairs (t :: df)) as [|pr prs] eqn:Epairs.
  { now rewrite Hres, Hall, Hempty. }
  apply Hfinal.
Qed.

Lemma remove_internal_transfers_eq (df : list Transaction) (tolerance_days : Z) :
  remove_internal_transfers df tolerance_days
  = map snd
      (filter (fun x => negb (bool_decide (fst x ∈ dropped df tolerance_days)))
         (kept df)).
Proof.
  exact (remove_internal_transfers_by_eq (sort_values date_diff) df
           tolerance_days eq_refl).
Qed.

(** ** The loop *)

Lemma elem_of_pos_set (i : nat) (l : list Pair) :
  i ∈ pos_set l <-> exists q, In q l /\ pair_index_pos q = i.
Proof.
  unfold pos_set. rewrite elem_of_list_to_set, list_elem_of_In, in_map_iff.
  split; intros [q [H1 H2]]; eauto.
Qed.

Lemma elem_of_neg_set (i : nat) (l : list Pair) :
  i ∈ neg_set l <-> exists q, In q l /\ pair_index_neg q = i.
Proof.
  unfold neg_set. rewrite elem_of_list_to_set, list_elem_of_In, in_map_iff.
  split; intros [q [H1 H2]]; eauto.
Qed.

Lemma resolve_taken (pairs : list Pair) (to_drop used_pos used_neg : gset nat) :
  resolve pairs to_drop used_pos used_neg
  = to_drop ∪ pos_set (taken_from pairs used_pos used_neg)
      ∪ neg_set (taken_from pairs used_pos used_neg).
Proof.
  revert to_drop used_pos used_neg.
  induction pairs as [|p rest IH]; intros D UP UN; simpl.
  - unfold pos_set, neg_set. simpl. set_solver.
  - destruct (bool_decide (pair_index_pos p ∈ UP)
              || bool_decide (pair_index_neg p ∈ UN)).
    + apply IH.
    + rewrite IH. unfold pos_set, neg_set. simpl. set_solver.
Qed.

Lemma taken_from_app (l1 l2 : list Pair) (used_pos used_neg : gset nat) :
  taken_from (l1 ++ l2) used_pos used_neg
  = taken_from l1 used_pos used_neg
    ++ taken_from l2 (used_pos ∪ pos_set (taken_from l1 used_pos used_neg))
         (used_neg ∪ neg_set (taken_from l1 used_pos used_neg)).
Proof.
  revert used_pos used_neg.
  induction l1 as [|p l1 IH]; intros UP UN; simpl.
  - f_equal; unfold pos_set, neg_set; simpl; set_solver.
  - destruct (bool_decide (pair_index_pos p ∈ UP)
              || bool_decide (pair_index_neg p ∈ UN)).
    + apply IH.
    + simpl. f_equal. rewrite IH. f_equal.
      f_equal; unfold pos_set, neg_set; simpl; set_solver.
Qed.

Lemma conflicts_spec (p : Pair) (earlier : list Pair) :
  conflicts p earlier = true
  <-> pair_index_pos p ∈ pos_set earlier \/ pair_index_neg p ∈ neg_set earlier.
Proof.
  unfold conflicts. rewrite existsb_exists, elem_of_pos_set, elem_of_neg_set.
  split.
  - intros [q [Hq H]]. apply orb_true_iff in H.
    destruct H as [H|H]; apply Nat.eqb_eq in H; eauto.
  - intros [[q [Hq H]]|[q [Hq H]]]; exists q; split; try exact Hq;
      apply orb_true_iff; [left|right]; now apply Nat.eqb_eq.
Qed.

(** The loop is greedy: a pair is taken exactly when neither of its rows
    is in a pair taken before it. *)
Lemma taken_snoc (l : list Pair) (p : Pair) :
  taken (l ++ [p]) = taken l ++ (if conflicts p (taken l) then [] else [p]).
Proof.
  unfold taken. rewrite taken_from_app. f_equal. simpl.
  set (T := taken_from l ∅ ∅).
  pose proof (conflicts_spec p T) as Hc.
  destruct (conflicts p T).
  - destruct (proj1 Hc eq_refl) as [H|H].
    + rewrite bool_decide_eq_true_2 by set_solver. reflexivity.
    + rewrite (bool_decide_eq_true_2 (pair_index_neg p ∈ ∅ ∪ neg_set T))
        by set_solver.
      now rewrite orb_true_r.
  - rewrite !bool_decide_eq_false_2; [reflexivity| |].
    + intro H. assert (false = true) as Hf; [|discriminate Hf].
      apply Hc. right. set_solver.
    + intro H. assert (false = true) as Hf; [|discriminate Hf].
      apply Hc. left. set_solver.
Qed.

Lemma taken_from_incl (pairs : list Pair) (used_pos used_neg : gset nat)
  (q : Pair) :
  In q (taken_from pairs used_pos used_neg) -> In q pairs.
Proof.
  revert used_pos used_neg.
  induction pairs as [|p rest IH]; intros UP UN; simpl; [tauto|].
  destruct (orb _ _); simpl; [eauto|].
  intros [<-|H]; eauto.
Qed.

Lemma taken_from_fresh (pairs : list Pair) (used_pos used_neg : gset nat)
  (q : Pair) :
  In q (taken_from pairs used_pos used_neg) ->
  (pair_index_pos q ∉ used_pos) /\ (pair_index_neg q ∉ used_neg).
Proof.
  revert used_pos used_neg.
  induction pairs as [|p rest IH]; intros UP UN; simpl; [tauto|].
  destruct (bool_decide (pair_index_pos p ∈ UP)) eqn:E1;
    destruct (bool_decide (pair_index_neg p ∈ UN)) eqn:E2; simpl;
    try (now apply IH).
  apply bool_decide_eq_false in E1, E2.
  intros [<-|H]; [tauto|].
  apply IH in H. set_solver.
Qed.

(** No row is taken twice as the positive side, nor twice as the negative
    side. *)
Lemma taken_from_NoDup (pairs : list Pair) (used_pos used_neg : gset nat) :
  NoDup (map pair_index_pos (taken_from pairs used_pos used_neg))
  /\ NoDup (map pair_index_neg (taken_from pairs used_pos used_neg)).
Proof.
  revert used_pos used_neg.
  induction pairs as [|p rest IH]; intros UP UN; simpl.
  - split; constructor.
  - destruct (orb _ _); [apply IH|].
    simpl. destruct (IH ({[pair_index_pos p]} ∪ UP) ({[pair_index_neg p]} ∪ UN))
      as [Hp Hn].
    split; constructor; try assumption.
    + intro H. apply in_map_iff in H. destruct H as [q [Hq H]].
      apply taken_from_fresh in H. set_solver.
    + intro H. apply in_map_iff in H. destruct H as [q [Hq H]].
      apply taken_from_fresh in H. set_solver.
Qed.

(** A pair of an ascending list that the loop passes over has a row
    already used, or a row in a pair taken before it in the list. *)
Lemma taken_from_skipped (pairs : list Pair) :
  StronglySorted (fun a b => key_le (date_diff a) (date_diff b) = true) pairs ->
  forall (used_pos used_neg : gset nat) (p : Pair),
    In p pairs -> ~ In p (taken_from pairs used_pos used_neg) ->
    pair_index_pos p ∈ used_pos \/ pair_index_neg p ∈ used_neg
    \/ exists q, In q (taken_from pairs used_pos used_neg)
                 /\ (pair_index_pos q = pair_index_pos p
                     \/ pair_index_neg q = pair_index_neg p)
                 /\ key_le (date_diff q) (date_diff p) = true.
Proof.
  induction 1 as [|a rest Hs IH Hall]; intros UP UN p Hin Hout; [destruct Hin|].
  simpl in Hout |- *.
  destruct (bool_decide (pair_index_pos a ∈ UP)) eqn:E1;
    [|destruct (bool_decide (pair_index_neg a ∈ UN)) eqn:E2]; simpl in Hout |- *.
  - destruct Hin as [<-|Hin]; [left; now apply bool_decide_eq_true in E1|].
    now apply IH.
  - destruct Hin as [<-|Hin];
      [right; left; now apply bool_decide_eq_true in E2|].
    now apply IH.
  - destruct Hin as [<-|Hin]; [exfalso; apply Hout; now left|].
    assert (~ In p (taken_from rest ({[pair_index_pos a]} ∪ UP)
                      ({[pair_index_neg a]} ∪ UN))) as Hout'
      by (intro F; apply Hout; now right).
    rewrite Forall_forall in Hall.
    destruct (IH _ _ p Hin Hout') as [H|[H|[q [Hq [Hc Hk]]]]].
    + apply elem_of_union in H. destruct H as [H|H]; [|now left].
      apply elem_of_singleton in H.
      right. right. exists a. split; [now left|]. split; [now left|].
      now apply Hall.
    + apply elem_of_union in H. destruct H as [H|H]; [|right; now left].
      apply elem_of_singleton in H.
      right. right. exists a. split; [now left|]. split; [now right|].
      now apply Hall.
    + right. right. exists q. split; [now right|]. split; assumption.
Qed.

Lemma dropped_taken (df : list Transaction) (tolerance_days : Z) (i : nat) :
  i ∈ dropped df tolerance_days
  <-> exists p, In p (taken (visited_pairs df tolerance_days))
                /\ (pair_index_pos p = i \/ pair_index_neg p = i).
Proof.
  unfold dropped. rewrite resolve_taken, !elem_of_union.
  rewrite elem_of_pos_set, elem_of_neg_set. fold (taken (visited_pairs df tolerance_days)).
  split.
  - intros [[H|[p [Hp H]]]|[p [Hp H]]]; [set_solver|eauto..].
  - intros [p [Hp [H|H]]]; eauto.
Qed.

(** ** The rows behind a pair *)

Lemma enumerate_from_In (k : nat) (df : list Transaction) (i : nat)
  (t : Transaction) :
  In (i, t) (combine (seq k (List.length df)) df)
  <-> k <= i /\ nth_error df (i - k) = Some t.
Proof.
  revert k. induction df as [|r df IH]; intro k; simpl.
  - split; [tauto|]. intros [_ H]. destruct (i - k); discriminate.
  - rewrite IH. split.
    + intros [[= <- <-]|[Hk H]].
      * split; [lia|]. now rewrite Nat.sub_diag.
      * split; [lia|].
        replace (i - k) with (S (i - S k)) by lia. exact H.
    + intros [Hk H]. destruct (i - k) as [|m] eqn:E.
      * left. injection H as <-. f_equal. lia.
      * right. split; [lia|].
        replace (i - S k) with m by lia. exact H.
Qed.

Lemma enumerate_In (df : list Transaction) (i : nat) (t : Transaction) :
  In (i, t) (enumerate df) <-> nth_error df i = Some t.
Proof.
  unfold enumerate. rewrite enumerate_from_In, Nat.sub_0_r.
  split; [tauto|]. intro H. split; [lia|exact H].
Qed.

Lemma positives_In (df : list Transaction) (x : nat * Transaction) :
  In x (positives df)
  <-> nth_error df (fst x) = Some (snd x) /\ is_label (snd x) = false
      /\ is_positive (snd x) = true /\ has_keyword (snd x) = true.
Proof.
  unfold positives, kept. rewrite !filter_In. destruct x as [i t]. simpl.
  rewrite enumerate_In, negb_true_iff, andb_true_iff. tauto.
Qed.

Lemma negatives_In (df : list Transaction) (x : nat * Transaction) :
  In x (negatives df)
  <-> nth_error df (fst x) = Some (snd x) /\ is_label (snd x) = false
      /\ is_negative (snd x) = true /\ has_keyword (snd x) = true.
Proof.
  unfold negatives, kept. rewrite !filter_In. destruct x as [i t]. simpl.
  rewrite enumerate_In, negb_true_iff, andb_true_iff. tauto.
Qed.

Lemma positive_not_negative (t : Transaction) :
  is_positive t = true -> is_negative t = false.
Proof.
  unfold is_positive, is_negative. destruct (amount t) as [q|]; [|reflexivity].
  intro H. apply CleaningFacts.Qpositive_iff in H.
  apply negb_false_iff, Qle_bool_iff. now apply Qlt_le_weak.
Qed.

Lemma visited_pairs_In (df : list Transaction) (tolerance_days : Z) (p : Pair) :
  In p (visited_pairs df tolerance_days)
  <-> exists q, In q (enumerated_pairs df) /\ p = set_date_diff q
        /\ diff_le (date_diff p) (Timedelta_days tolerance_days) = true.
Proof.
  unfold visited_pairs, sorted_pairs, sorted_pairs_by, sort_values.
  rewrite SortFacts.sort_by_In, filter_In, in_map_iff.
  split.
  - intros [[q [<- Hq]] H]. eauto.
  - intros [q [Hq [-> H]]]. eauto.
Qed.

Lemma visited_pair_rows (df : list Transaction) (tolerance_days : Z) (p : Pair) :
  In p (visited_pairs df tolerance_days) ->
  exists tp tn dp dn, pair_rows df tolerance_days p tp tn dp dn.
Proof.
  intro H. apply visited_pairs_In in H. destruct H as [q [Hq [-> Hle]]].
  unfold enumerated_pairs in Hq. apply in_flat_map in Hq.
  destruct Hq as [[ip tp] [Hp Hq]].
  apply in_map_iff in Hq. destruct Hq as [[iq tn] [<- Hn]].
  apply filter_In in Hn. destruct Hn as [Hn Hkey].
  apply positives_In in Hp. apply negatives_In in Hn. simpl in *.
  destruct Hp as [Hp1 [Hp2 [Hp3 Hp4]]]. destruct Hn as [Hn1 [Hn2 [Hn3 Hn4]]].
  unfold set_date_diff, pair_of, abs_diff, diff_le in Hle. simpl in Hle.
  destruct (date tp) as [dp|] eqn:Edp; [|discriminate].
  destruct (date tn) as [dn|] eqn:Edn; [|discriminate].
  exists tp, tn, dp, dn.
  constructor; simpl; try assumption.
  - now rewrite Edp, Edn.
  - apply Z.leb_le in Hle. exact Hle.
Qed.

(** ** Tables without a pair *)

Lemma map_snd_enumerate_from (k : nat) (df : list Transaction) :
  map snd (combine (seq k (List.length df)) df) = df.
Proof.
  revert k. induction df as [|t df IH]; intro k; simpl; [reflexivity|].
  now rewrite IH.
Qed.

Lemma kept_rows (df : list Transaction) : map snd (kept df) = without_labels df.
Proof.
  unfold kept, without_labels, enumerate.
  rewrite <- (map_snd_enumerate_from 0 df) at 3.
  now rewrite filter_map_comm.
Qed.

Lemma kept_In (df : list Transaction) (x : nat * Transaction) :
  In x (kept df) -> In (snd x) (without_labels df).
Proof.
  intro H. rewrite <- kept_rows. now apply in_map.
Qed.

Lemma no_pairs_no_drop (df : list Transaction) (tolerance_days : Z) :
  enumerated_pairs df = [] ->
  remove_internal_transfers df tolerance_days = without_labels df.
Proof.
  intro H. rewrite remove_internal_transfers_eq.
  unfold dropped, visited_pairs. rewrite H, resolve_nil_pairs.
  rewrite filter_all by reflexivity. apply kept_rows.
Qed.

(** C5, as amended.  When there is no flagged positive row, or no flagged
    negative row, or no two of them with equal rounded absolute amounts,
    what [remove_internal_transfers] returns is the input without the rows
    whose description is one of the fixed internal-transfer labels, in the
    input order; that is the input itself when no row bears such a label.
    The statement is of the table the function returns: that the function
    returns on every table is not part of it. *)
Theorem remove_internal_transfers_no_candidates (df : list Transaction)
  (tolerance_days : Z) :
  no_candidate_pair df ->
  remove_internal_transfers df tolerance_days = without_labels df
  /\ (Forall (fun t => is_label t = false) df ->
      remove_internal_transfers df tolerance_days = df).
Proof.
  intro H.
  assert (remove_internal_transfers df tolerance_days = without_labels df) as E.
  { apply no_pairs_no_drop. unfold enumerated_pairs.
    destruct H as [H|[H|H]].
    - rewrite Forall_forall in H.
      unfold positives. rewrite filter_none; [reflexivity|].
      intros x Hx. apply H. now apply kept_In.
    - rewrite Forall_forall in H.
      unfold negatives. rewrite (filter_none _ (kept df)).
      + now apply flat_map_nil.
      + intros x Hx. apply H. now apply kept_In.
    - apply flat_map_nil. intros x Hx.
      rewrite filter_none; [reflexivity|].
      intros y Hy.
      unfold positives in Hx. unfold negatives in Hy.
      apply filter_In in Hx, Hy. destruct Hx as [Hx Hx'], Hy as [Hy Hy'].
      apply H; auto using kept_In. }
  split; [exact E|].
  intro Hl. rewrite E. apply filter_all.
  rewrite Forall_forall in Hl. intros t Ht. now rewrite (Hl t Ht).
Qed.

(** C5 fails as stated: the table below has no flagged negative row, hence
    no candidate pair, and its first row is dropped all the same. *)
Lemma remove_internal_transfers_drops_labels :
  Forall (fun t => is_negative t && has_keyword t = false) Samples.label_table
  /\ no_candidate_pair Samples.label_table
  /\ remove_internal_transfers Samples.label_table 2
     = [Samples.transaction 4 "Coffee" (-9 # 2)%Q]
  /\ List.length (remove_internal_transfers Samples.label_table 2)
     < List.length Samples.label_table.
Proof.
  split; [repeat constructor|].
  split; [right; left; repeat constructor|].
  split; [vm_compute; reflexivity|].
  vm_compute. lia.
Qed.

Lemma remove_internal_transfers_no_candidates_witness :
  remove_internal_transfers
    [Samples.transfer_out; Samples.transaction 4 "Coffee" (-9 # 2)%Q] 2
  = [Samples.transfer_out; Samples.transaction 4 "Coffee" (-9 # 2)%Q].
Proof.
  refine (proj2 (remove_internal_transfers_no_candidates _ 2 _) _).
  - left. repeat constructor.
  - repeat constructor.
Defined.

(** ** Small tables, row by row *)

Lemma flagged_true (t : Transaction) :
  flagged t = true -> is_label t = false /\ has_keyword t = true.
Proof.
  unfold flagged. rewrite andb_true_iff, negb_true_iff. tauto.
Qed.

Lemma negative_not_positive (t : Transaction) :
  is_negative t = true -> is_positive t = false.
Proof.
  intro H. destruct (is_positive t) eqn:E; [|reflexivity].
  apply positive_not_negative in E. congruence.
Qed.

Lemma round_half_even_comp (a b : Q) :
  (a == b)%Q -> round_half_even a = round_half_even b.
Proof.
  intro H. unfold round_half_even. rewrite (Qfloor_comp _ _ H).
  assert (((a - inject_Z (Qfloor b)) ?= (1 # 2))%Q
          = ((b - inject_Z (Qfloor b)) ?= (1 # 2))%Q) as E
    by (now rewrite H).
  now rewrite E.
Qed.

Lemma round2_comp (a b : Q) : (a == b)%Q -> round2 a = round2 b.
Proof.
  intro H. unfold round2. f_equal. apply round_half_even_comp. now rewrite H.
Qed.

(** One flagged positive row and one flagged negative row of equal rounded
    absolute amount, alone in the table: both go when their dates are
    within the tolerance, both stay otherwise. *)
Lemma remove_two_rows (p n : Transaction) (dp dn : Z) (tolerance_days : Z) :
  flagged p = true -> flagged n = true ->
  is_positive p = true -> is_negative n = true ->
  key_eqb (rounded_abs p) (rounded_abs n) = true ->
  date p = Some dp -> date n = Some dn ->
  let within := (Z.abs (dp - dn) <=? Timedelta_days tolerance_days)%Z in
  remove_internal_transfers [p; n] tolerance_days
    = (if within then [] else [p; n])
  /\ remove_internal_transfers [n; p] tolerance_days
    = (if within then [] else [n; p]).
Proof.
  intros Hfp Hfn Hpp Hnn Hkey Hdp Hdn within. unfold within. clear within.
  apply flagged_true in Hfp, Hfn.
  destruct Hfp as [Hlp Hkp], Hfn as [Hln Hkn].
  pose proof (positive_not_negative p Hpp) as Hpn.
  pose proof (negative_not_positive n Hnn) as Hnp.
  split; rewrite remove_internal_transfers_eq; rows_start; rows_eval;
    destruct (Z.abs (dp - dn) <=? Timedelta_days tolerance_days)%Z;
    rows_eval; vm_compute; reflexivity.
Qed.

(** One flagged positive row and two flagged negative rows, all of equal
    rounded absolute amount and within the tolerance, alone in the table,
    under the stable sort: the positive row goes with the negative row
    closer in date, the first of the two in the table when they tie, and
    the other negative row stays. *)
Lemma remove_three_rows (p n1 n2 : Transaction) (dp d1 d2 : Z)
  (tolerance_days : Z) :
  flagged p = true -> flagged n1 = true -> flagged n2 = true ->
  is_positive p = true -> is_negative n1 = true -> is_negative n2 = true ->
  key_eqb (rounded_abs p) (rounded_abs n1) = true ->
  key_eqb (rounded_abs p) (rounded_abs n2) = true ->
  date p = Some dp -> date n1 = Some d1 -> date n2 = Some d2 ->
  (Z.abs (dp - d1) <= Timedelta_days tolerance_days)%Z ->
  (Z.abs (dp - d2) <= Timedelta_days tolerance_days)%Z ->
  let left := if (Z.abs (dp - d1) <=? Z.abs (dp - d2))%Z then [n2] else [n1] in
  remove_internal_transfers [p; n1; n2] tolerance_days = left
  /\ remove_internal_transfers [n1; p; n2] tolerance_days = left
  /\ remove_internal_transfers [n1; n2; p] tolerance_days = left.
Proof.
  intros Hfp Hf1 Hf2 Hpp Hn1 Hn2 Hk1 Hk2 Hdp Hd1 Hd2 Hw1 Hw2 left.
  unfold left. clear left.
  apply flagged_true in Hfp, Hf1, Hf2.
  destruct Hfp as [Hlp Hkp], Hf1 as [Hl1 Hkw1], Hf2 as [Hl2 Hkw2].
  pose proof (positive_not_negative p Hpp) as Hpn.
  pose proof (negative_not_positive n1 Hn1) as Hnp1.
  pose proof (negative_not_positive n2 Hn2) as Hnp2.
  apply Z.leb_le in Hw1, Hw2.
  repeat split; rewrite remove_internal_transfers_eq; rows_start; rows_eval;
    destruct (Z.abs (dp - d1) <=? Z.abs (dp - d2))%Z;
    rows_eval; vm_compute; reflexivity.
Qed.

Lemma amounts_300 (p n : Transaction) (a b : Q) :
  amount p = Some a -> amount n = Some b ->
  (a == 300 # 1)%Q -> (b == -300 # 1)%Q ->
  is_positive p = true /\ is_negative n = true
  /\ key_eqb (rounded_abs p) (rounded_abs n) = true.
Proof.
  intros Hp Hn Ha Hb. unfold is_positive, is_negative, rounded_abs.
  rewrite Hp, Hn. cbn [option_map key_eqb]. repeat split.
  - apply CleaningFacts.Qpositive_iff. rewrite Ha. reflexivity.
  - apply negb_true_iff, not_true_is_false. intro H.
    apply Qle_bool_iff in H. rewrite Hb in H.
    unfold Qle in H. simpl in H. lia.
  - apply Qeq_bool_iff.
    rewrite (round2_comp (Qabs a) (300 # 1)) by (rewrite Ha; reflexivity).
    rewrite (round2_comp (Qabs b) (300 # 1)) by (rewrite Hb; reflexivity).
    reflexivity.
Qed.

Lemma visited_pairs_sort (df : list Transaction) (tolerance_days : Z) :
  visited_pairs df tolerance_days
  = sort_values date_diff (candidate_pairs df tolerance_days).
Proof. reflexivity. Qed.

Lemma visited_pairs_sorted (df : list Transaction) (tolerance_days : Z) :
  StronglySorted (fun a b => key_le (date_diff a) (date_diff b) = true)
    (visited_pairs df tolerance_days).
Proof.
  rewrite visited_pairs_sort. unfold sort_values.
  apply (SortFacts.sort_by_sorted
           (fun x y : Pair => key_le (date_diff x) (date_diff y))).
  - intros x y. apply SortFacts.key_le_total.
  - intros x y z. apply SortFacts.key_le_trans.
Qed.

Lemma visited_pairs_stable (df : list Transaction) (tolerance_days : Z) (d : Z) :
  filter (has_diff d) (visited_pairs df tolerance_days)
  = filter (has_diff d) (candidate_pairs df tolerance_days).
Proof.
  rewrite visited_pairs_sort. unfold sort_values.
  apply SortFacts.sort_by_stable.
  intros x y. unfold has_diff.
  destruct (date_diff x) as [a|]; [|discriminate].
  destruct (date_diff y) as [b|]; [|discriminate].
  rewrite !Z.eqb_eq. intros -> ->. simpl. apply Z.leb_refl.
Qed.

(** No row is in two of the pairs taken. *)
Lemma taken_rows_NoDup (df : list Transaction) (tolerance_days : Z) :
  let T := taken (visited_pairs df tolerance_days) in
  NoDup (map pair_index_pos T ++ map pair_index_neg T).
Proof.
  intro T. destruct (taken_from_NoDup (visited_pairs df tolerance_days) ∅ ∅)
    as [Hp Hn].
  apply NoDup_app; [exact Hp|exact Hn|].
  intros i Hi Hi'.
  apply in_map_iff in Hi, Hi'.
  destruct Hi as [p [<- Hp']], Hi' as [q [Hq Hq']].
  apply taken_from_incl in Hp', Hq'.
  apply visited_pair_rows in Hp', Hq'.
  destruct Hp' as [tp [tn [dp [dn Rp]]]], Hq' as [tp' [tn' [dp' [dn' Rq]]]].
  pose proof (pos_row _ _ _ _ _ _ _ Rp) as E1.
  pose proof (neg_row _ _ _ _ _ _ _ Rq) as E2.
  rewrite Hq, E1 in E2. injection E2 as <-.
  pose proof (positive_not_negative _ (pos_sign _ _ _ _ _ _ _ Rp)) as F.
  rewrite (neg_sign _ _ _ _ _ _ _ Rq) in F. discriminate F.
Qed.

(** C6 fails as stated for rows that bear one of the fixed labels, which
    contain a transfer keyword and are dropped by step 1 whatever their
    partner: one day apart, the labelled credit goes and the debit it would
    have matched stays; five days apart, two labelled rows both go. *)
Lemma remove_internal_transfers_label_pairs :
  (has_keyword Samples.labelled_in_next_day = true
   /\ has_keyword Samples.transfer_out = true
   /\ remove_internal_transfers
        [Samples.transfer_out; Samples.labelled_in_next_day] 2
      = [Samples.transfer_out])
  /\ (has_keyword Samples.labelled_out = true
      /\ has_keyword Samples.labelled_in_five_days = true
      /\ remove_internal_transfers
           [Samples.labelled_out; Samples.labelled_in_five_days] 2
         = []).
Proof.
  repeat split; vm_compute; reflexivity.
Qed.

(** C6, as amended.  The loop of [remove_internal_transfers] only visits
    pairs of a flagged positive row and a flagged negative row whose
    absolute amounts, rounded to cents, are equal and whose dates differ by
    at most [tolerance_days] days; a row is dropped by the loop only as a
    member of such a pair.  Hence a table of two flagged rows, rows with a
    transfer keyword that bear neither fixed label, of amounts +300.00 and
    -300.00 dated one day apart comes back empty under the default
    tolerance of 2, and dated five days apart it comes back unchanged. *)
Theorem remove_internal_transfers_candidate_pairs :
  (forall df tolerance_days p,
     In p (visited_pairs df tolerance_days) ->
     exists tp tn dp dn, pair_rows df tolerance_days p tp tn dp dn)
  /\ (forall df tolerance_days i,
        i ∈ dropped df tolerance_days ->
        exists p, In p (visited_pairs df tolerance_days)
                  /\ (pair_index_pos p = i \/ pair_index_neg p = i))
  /\ (forall df tolerance_days,
        remove_internal_transfers df tolerance_days
        = map snd
            (filter
               (fun x => negb (bool_decide (fst x ∈ dropped df tolerance_days)))
               (kept df)))
  /\ (forall p n a b dp dn,
        flagged p = true -> flagged n = true ->
        amount p = Some a -> amount n = Some b ->
        (a == 300 # 1)%Q -> (b == -300 # 1)%Q ->
        date p = Some dp -> date n = Some dn ->
        (Z.abs (dp - dn) = nanoseconds_per_day ->
         remove_internal_transfers [p; n] 2 = []
         /\ remove_internal_transfers [n; p] 2 = [])
        /\ (Z.abs (dp - dn) = 5 * nanoseconds_per_day ->
            remove_internal_transfers [p; n] 2 = [p; n]
            /\ remove_internal_transfers [n; p] 2 = [n; p]))%Z.
Proof.
  split; [exact visited_pair_rows|].
  split.
  { intros df tol i H. apply dropped_taken in H.
    destruct H as [p [Hp H]]. exists p. split; [|exact H].
    now apply taken_from_incl in Hp. }
  split; [exact remove_internal_transfers_eq|].
  intros p n a b dp dn Hfp Hfn Hap Hbn Ha Hb Hdp Hdn.
  destruct (amounts_300 p n a b Hap Hbn Ha Hb) as [Hpp [Hnn Hkey]].
  pose proof (remove_two_rows p n dp dn 2 Hfp Hfn Hpp Hnn Hkey Hdp Hdn) as H.
  cbv zeta in H.
  split; intro Hd; rewrite Hd in H; exact H.
Qed.

(** ** The loop under any ascending sort *)

Section AnySort.
Variable sort : list Pair -> list Pair.
Hypothesis sort_ascending : ascending sort.

Lemma ascending_nil : sort [] = [].
Proof.
  destruct (sort_ascending []) as [H _].
  now apply Permutation_sym, Permutation_nil in H.
Qed.

Lemma ascending_two (a b : Pair) :
  (sort [a; b] = [a; b] /\ key_le (date_diff a) (date_diff b) = true)
  \/ (sort [a; b] = [b; a] /\ key_le (date_diff b) (date_diff a) = true).
Proof.
  destruct (sort_ascending [a; b]) as [Hp Hs].
  apply Permutation_sym, Permutation_length_2_inv in Hp.
  destruct Hp as [E|E]; rewrite E in Hs |- *; [left|right];
    (split; [reflexivity|]);
    inversion Hs as [|? ? _ Hall]; subst;
    inversion Hall; subst; assumption.
Qed.

Lemma visited_pairs_by_perm (df : list Transaction) (tolerance_days : Z) :
  Permutation (visited_pairs_by sort df tolerance_days)
    (candidate_pairs df tolerance_days).
Proof. apply sort_ascending. Qed.

Lemma visited_pairs_by_sorted (df : list Transaction) (tolerance_days : Z) :
  StronglySorted (fun a b => key_le (date_diff a) (date_diff b) = true)
    (visited_pairs_by sort df tolerance_days).
Proof. apply sort_ascending. Qed.

Lemma visited_pairs_by_In (df : list Transaction) (tolerance_days : Z)
  (p : Pair) :
  In p (visited_pairs_by sort df tolerance_days)
  <-> In p (visited_pairs df tolerance_days).
Proof.
  rewrite visited_pairs_sort. unfold sort_values.
  rewrite SortFacts.sort_by_In.
  split; apply Permutation_in;
    [|apply Permutation_sym]; apply visited_pairs_by_perm.
Qed.

Lemma dropped_by_taken (df : list Transaction) (tolerance_days : Z) (i : nat) :
  i ∈ dropped_by sort df tolerance_days
  <-> exists p, In p (taken (visited_pairs_by sort df tolerance_days))
                /\ (pair_index_pos p = i \/ pair_index_neg p = i).
Proof.
  unfold dropped_by. rewrite resolve_taken, !elem_of_union.
  rewrite elem_of_pos_set, elem_of_neg_set.
  fold (taken (visited_pairs_by sort df tolerance_days)).
  split.
  - intros [[H|[p [Hp H]]]|[p [Hp H]]]; [set_solver|eauto..].
  - intros [p [Hp [H|H]]]; eauto.
Qed.

(** No row is in two of the pairs taken. *)
Lemma taken_rows_by_NoDup (df : list Transaction) (tolerance_days : Z) :
  let T := taken (visited_pairs_by sort df tolerance_days) in
  NoDup (map pair_index_pos T ++ map pair_index_neg T).
Proof.
  intro T.
  destruct (taken_from_NoDup (visited_pairs_by sort df tolerance_days) ∅ ∅)
    as [Hp Hn].
  apply NoDup_app; [exact Hp|exact Hn|].
  intros i Hi Hi'.
  apply in_map_iff in Hi, Hi'.
  destruct Hi as [p [<- Hp']], Hi' as [q [Hq Hq']].
  apply taken_from_incl, visited_pairs_by_In, visited_pair_rows in Hp'.
  apply taken_from_incl, visited_pairs_by_In, visited_pair_rows in Hq'.
  destruct Hp' as [tp [tn [dp [dn Rp]]]], Hq' as [tp' [tn' [dp' [dn' Rq]]]].
  pose proof (pos_row _ _ _ _ _ _ _ Rp) as E1.
  pose proof (neg_row _ _ _ _ _ _ _ Rq) as E2.
  rewrite Hq, E1 in E2. injection E2 as <-.
  pose proof (positive_not_negative _ (pos_sign _ _ _ _ _ _ _ Rp)) as F.
  rewrite (neg_sign _ _ _ _ _ _ _ Rq) in F. discriminate F.
Qed.

(** A pair the loop passes over has a row in a pair the loop took before
    it, one of no larger date difference. *)
Lemma skipped_pair (df : list Transaction) (tolerance_days : Z) (p : Pair) :
  In p (visited_pairs_by sort df tolerance_days) ->
  ~ In p (taken (visited_pairs_by sort df tolerance_days)) ->
  exists q, In q (taken (visited_pairs_by sort df tolerance_days))
            /\ (pair_index_pos q = pair_index_pos p
                \/ pair_index_neg q = pair_index_neg p)
            /\ key_le (date_diff q) (date_diff p) = true.
Proof.
  intros Hin Hout.
  destruct (taken_from_skipped _ (visited_pairs_by_sorted df tolerance_days)
              ∅ ∅ p Hin Hout) as [H|[H|H]]; [set_solver|set_solver|exact H].
Qed.

(** One flagged positive row and two flagged negative rows, all of equal
    rounded absolute amount and within the tolerance, alone in the table:
    the positive row goes with one negative row, the one closer in date
    when the two differ, and the other negative row stays. *)
Lemma remove_three_rows_by (p n1 n2 : Transaction) (dp d1 d2 : Z)
  (tolerance_days : Z) (df : list Transaction) :
  flagged p = true -> flagged n1 = true -> flagged n2 = true ->
  is_positive p = true -> is_negative n1 = true -> is_negative n2 = true ->
  key_eqb (rounded_abs p) (rounded_abs n1) = true ->
  key_eqb (rounded_abs p) (rounded_abs n2) = true ->
  date p = Some dp -> date n1 = Some d1 -> date n2 = Some d2 ->
  (Z.abs (dp - d1) <= Timedelta_days tolerance_days)%Z ->
  (Z.abs (dp - d2) <= Timedelta_days tolerance_days)%Z ->
  In df [[p; n1; n2]; [n1; p; n2]; [n1; n2; p]] ->
  ((Z.abs (dp - d1) < Z.abs (dp - d2))%Z ->
   remove_internal_transfers_by sort df tolerance_days = [n2])
  /\ ((Z.abs (dp - d2) < Z.abs (dp - d1))%Z ->
      remove_internal_transfers_by sort df tolerance_days = [n1])
  /\ (remove_internal_transfers_by sort df tolerance_days = [n1]
      \/ remove_internal_transfers_by sort df tolerance_days = [n2]).
Proof.
  intros Hfp Hf1 Hf2 Hpp Hn1 Hn2 Hk1 Hk2 Hdp Hd1 Hd2 Hw1 Hw2 Hdf.
  apply flagged_true in Hfp, Hf1, Hf2.
  destruct Hfp as [Hlp Hkp], Hf1 as [Hl1 Hkw1], Hf2 as [Hl2 Hkw2].
  pose proof (positive_not_negative p Hpp) as Hpn.
  pose proof (negative_not_positive n1 Hn1) as Hnp1.
  pose proof (negative_not_positive n2 Hn2) as Hnp2.
  apply Z.leb_le in Hw1, Hw2.
  rewrite remove_internal_transfers_by_eq by apply ascending_nil.
  destruct Hdf as [<-|[<-|[<-|[]]]]; rows_start; rows_eval;
    match goal with
    | |- context [sort [?a; ?b]] =>
        destruct (ascending_two a b) as [[Hs Hk]|[Hs Hk]]
    end;
    rewrite Hs; unfold set_date_diff, pair_of in Hk; cbn in Hk;
    rewrite Hdp, ?Hd1, ?Hd2 in Hk; cbn in Hk; apply Z.leb_le in Hk;
    (split; [intro Hlt|split; [intro Hlt|]]);
    first [ exfalso; lia
          | rows_eval; vm_compute; reflexivity
          | left; rows_eval; vm_compute; reflexivity
          | right; rows_eval; vm_compute; reflexivity ].
Qed.

End AnySort.

Lemma sort_values_ascending : ascending (sort_values date_diff).
Proof.
  intro l. split.
  - apply SortFacts.sort_by_perm.
  - unfold sort_values.
    apply (SortFacts.sort_by_sorted
             (fun x y : Pair => key_le (date_diff x) (date_diff y))).
    + intros x y. apply SortFacts.key_le_total.
    + intros x y z. apply SortFacts.key_le_trans.
Qed.

Lemma last_first_sort_ascending : ascending Samples.last_first_sort.
Proof.
  intro l. unfold Samples.last_first_sort.
  destruct (sort_values_ascending (rev l)) as [Hp Hs].
  split; [|exact Hs].
  eapply Permutation_trans; [exact Hp|]. apply Permutation_sym, Permutation_rev.
Qed.



Lemma remove_internal_transfers_candidate_pairs_witness :
  (remove_internal_transfers
     [Samples.transfer_out; Samples.transfer_in_next_day] 2 = []
   /\ remove_internal_transfers
        [Samples.transfer_in_next_day; Samples.transfer_out] 2 = [])
  /\ (remove_internal_transfers
        [Samples.transfer_out; Samples.transfer_in_five_days] 2
      = [Samples.transfer_out; Samples.transfer_in_five_days]
      /\ remove_internal_transfers
           [Samples.transfer_in_five_days; Samples.transfer_out] 2
         = [Samples.transfer_in_five_days; Samples.transfer_out]).
Proof.
  destruct remove_internal_transfers_candidate_pairs as [_ [_ [_ H]]].
  split.
  - apply and_comm.
    refine (proj1 (H Samples.transfer_in_next_day Samples.transfer_out
                     (300 # 1)%Q (-300 # 1)%Q _ _ eq_refl eq_refl eq_refl
                     eq_refl (Qeq_refl _) (Qeq_refl _) eq_refl eq_refl)
              eq_refl).
  - apply and_comm.
    refine (proj2 (H Samples.transfer_in_five_days Samples.transfer_out
                     (300 # 1)%Q (-300 # 1)%Q _ _ eq_refl eq_refl eq_refl
                     eq_refl (Qeq_refl _) (Qeq_refl _) eq_refl eq_refl)
              eq_refl).
Defined.


End TransferFacts.

(** * Facts about classify.py *)

Module ClassifyFacts.
Import PyStr Re Pandas Py Classify ClassifyTerms.

(** ** Substrings *)

Lemma append_cons (c : ascii) (a b : string) :
  String.append (String c a) b = String c (String.append a b).
Proof. reflexivity. Qed.

Lemma append_nil (b : string) : String.append "" b = b.
Proof. reflexivity. Qed.

Lemma prefix_spec (needle hay : string) :
  String.prefix needle hay = true <-> exists b, hay = String.append needle b.
Proof.
  revert hay. induction needle as [|c needle IH]; intro hay.
  - split; [intros _; now exists hay|destruct hay; reflexivity].
  - destruct hay as [|d hay]; simpl.
    + split; [discriminate|]. intros [b H]. discriminate H.
    + destruct (ascii_dec c d) as [<-|Hne].
      * rewrite IH.
        split; intros [b H]; exists b; rewrite append_cons in *; congruence.
      * split; [discriminate|]. intros [b H].
        rewrite append_cons in H. congruence.
Qed.

Lemma contains_spec (needle hay : string) :
  contains needle hay = true <-> occurs needle hay.
Proof.
  unfold occurs. induction hay as [|c hay IH]; cbn [contains].
  - rewrite orb_false_r, prefix_spec. split.
    + intros [b H]. now exists "", b.
    + intros [a [b H]]. destruct a; [now exists b|discriminate H].
  - rewrite orb_true_iff, IH, prefix_spec. split.
    + intros [[b H]|[a [b H]]].
      * now exists "", b.
      * exists (String c a), b. rewrite append_cons. now rewrite H.
    + intros [a [b H]]. destruct a as [|c' a].
      * left. now exists b.
      * right. exists a, b. rewrite append_cons in H. congruence.
Qed.

Lemma contains_false (needle hay : string) :
  contains needle hay = false <-> ~ occurs needle hay.
Proof.
  rewrite <- contains_spec. destruct (contains needle hay); split; congruence.
Qed.

(** ** The keyword table *)

Lemma lookup_keyword_some (table : list (string * (string * string)))
  (description : string) (mapping : string * string) :
  lookup_keyword table description = Some mapping
  <-> exists before keyword after,
        table = before ++ (keyword, mapping) :: after
        /\ occurs keyword description
        /\ Forall (fun entry => ~ occurs (fst entry) description) before.
Proof.
  induction table as [|[k m] table IH]; simpl.
  - split; [discriminate|].
    intros [before [keyword [after [H _]]]]. destruct before; discriminate H.
  - destruct (contains k description) eqn:E.
    + split.
      * intros [= <-]. exists [], k, table. rewrite <- contains_spec. auto.
      * intros [before [keyword [after [H [Hk Hb]]]]].
        destruct before as [|e before]; simpl in H; inversion H; subst.
        -- reflexivity.
        -- inversion Hb as [|? ? Hn _]; subst.
           apply contains_spec in E. contradiction.
    + rewrite IH. split.
      * intros [before [keyword [after [-> [Hk Hb]]]]].
        exists ((k, m) :: before), keyword, after.
        repeat split; [exact Hk|]. constructor; [|exact Hb].
        now apply contains_false.
      * intros [before [keyword [after [H [Hk Hb]]]]].
        destruct before as [|e before]; simpl in H; inversion H; subst.
        -- apply contains_spec in Hk. congruence.
        -- inversion Hb; subst.
           exists before, keyword, after. auto.
Qed.

Lemma lookup_keyword_none (table : list (string * (string * string)))
  (description : string) :
  lookup_keyword table description = None
  <-> Forall (fun entry => ~ occurs (fst entry) description) table.
Proof.
  induction table as [|[k m] table IH]; simpl.
  - split; [constructor|reflexivity].
  - destruct (contains k description) eqn:E.
    + split; [discriminate|]. intro H. inversion H as [|? ? Hn _]; subst.
      apply contains_spec in E. contradiction.
    + rewrite IH. split.
      * intro H. constructor; [now apply contains_false|exact H].
      * intro H. now inversion H.
Qed.

(** A keyword of the table that occurs in the description bounds the place
    of the entry that answers. *)
Lemma lookup_keyword_at_most (before after : list (string * (string * string)))
  (keyword : string) (mapping : string * string) (description : string) :
  occurs keyword description ->
  exists before' keyword' mapping' after',
    before ++ (keyword, mapping) :: after
      = before' ++ (keyword', mapping') :: after'
    /\ lookup_keyword (before ++ (keyword, mapping) :: after) description
       = Some mapping'
    /\ occurs keyword' description
    /\ List.length before' <= List.length before.
Proof.
  intro Hk. induction before as [|[k m] before IH]; simpl.
  - exists [], keyword, mapping, after.
    apply contains_spec in Hk as Hc. rewrite Hc.
    split; [reflexivity|]. split; [reflexivity|]. split; [exact Hk|simpl; lia].
  - destruct (contains k description) eqn:E.
    + exists [], k, m, (before ++ (keyword, mapping) :: after).
      apply contains_spec in E.
      split; [reflexivity|]. split; [reflexivity|].
      split; [exact E|simpl; lia].
    + destruct IH as [b' [k' [m' [a' [H1 [H2 [H3 H4]]]]]]].
      exists ((k, m) :: b'), k', m', a'.
      split; [simpl; now rewrite H1|].
      split; [exact H2|]. split; [exact H3|simpl; lia].
Qed.

(** C8 fails as stated for a description in which a keyword listed before
    ["rent"] occurs as well: that keyword answers. *)
Lemma deterministic_lookup_earlier_keyword :
  contains "rent" "salary transfer for rent" = true
  /\ contains "transfer" "salary transfer for rent" = true
  /\ deterministic_lookup "salary transfer for rent"
     = Some ("Income", "Salary")
  /\ contains "rent" "current account interest transfer" = true
  /\ contains "transfer" "current account interest transfer" = true
  /\ deterministic_lookup "current account interest transfer"
     = Some ("Income", "Interest").
Proof.
  repeat split; vm_compute; reflexivity.
Qed.

(** C8, as amended.  [deterministic_lookup] answers with the mapping of
    the first entry of the table, in insertion order, whose keyword occurs
    in the description, and with nothing when no keyword occurs.  For a
    description in which both ["rent"] and ["transfer"] occur the answer
    comes from an entry at or before that of ["rent"], which is listed
    before ["transfer"]; it is the mapping of ["rent"] when no keyword
    listed before it occurs as well, wherever the two words stand in the
    description. *)
Theorem deterministic_lookup_first_keyword :
  (forall description mapping,
     deterministic_lookup description = Some mapping
     <-> exists before keyword after,
           DETERMINISTIC_KEYWORDS = before ++ (keyword, mapping) :: after
           /\ occurs keyword description
           /\ Forall (fun entry => ~ occurs (fst entry) description) before)
  /\ (forall description,
        deterministic_lookup description = None
        <-> Forall (fun entry => ~ occurs (fst entry) description)
              DETERMINISTIC_KEYWORDS)
  /\ (nth_error DETERMINISTIC_KEYWORDS 6 = Some ("rent", ("Housing", "Rent"))
      /\ nth_error DETERMINISTIC_KEYWORDS 20
         = Some ("transfer", ("Transfers", "Internal Transfer")))
  /\ (forall description,
        occurs "rent" description -> occurs "transfer" description ->
        (exists before keyword mapping after,
           DETERMINISTIC_KEYWORDS = before ++ (keyword, mapping) :: after
           /\ deterministic_lookup description = Some mapping
           /\ occurs keyword description
           /\ List.length before <= 6)
        /\ (Forall (fun entry => ~ occurs (fst entry) description)
              (firstn 6 DETERMINISTIC_KEYWORDS) ->
            deterministic_lookup description = Some ("Housing", "Rent")))
  /\ deterministic_lookup "rent transfer to landlord" = Some ("Housing", "Rent")
  /\ deterministic_lookup "transfer for rent" = Some ("Housing", "Rent").
Proof.
  split; [intros d m; apply lookup_keyword_some|].
  split; [intro d; apply lookup_keyword_none|].
  split; [split; reflexivity|].
  split; [|split; reflexivity].
  intros d Hrent _. split.
  - exact (lookup_keyword_at_most (firstn 6 DETERMINISTIC_KEYWORDS)
             (skipn 7 DETERMINISTIC_KEYWORDS) "rent" ("Housing", "Rent") d
             Hrent).
  - intro Hb. apply lookup_keyword_some.
    exists (firstn 6 DETERMINISTIC_KEYWORDS), "rent",
      (skipn 7 DETERMINISTIC_KEYWORDS).
    split; [reflexivity|]. split; [exact Hrent|exact Hb].
Qed.

(** ** Classification *)

Lemma mapM_Forall2 {A B} (f : A -> result B) (l : list A) (out : list B) :
  mapM f l = Ok out -> Forall2 (fun a b => f a = Ok b) l out.
Proof.
  revert out. induction l as [|a l IH]; intros out H; simpl in H.
  - injection H as <-. constructor.
  - destruct (f a) as [b|e] eqn:E; [|discriminate H]. simpl in H.
    destruct (mapM f l) as [bs|e]; [|discriminate H]. simpl in H.
    injection H as <-. constructor; [exact E|now apply IH].
Qed.

Lemma json_truthy_not_null (v : json) : json_truthy v = true -> v <> JNull.
Proof. intros H ->. discriminate H. Qed.

Section ClassificationFacts.
Variable get_close_matches : string -> list string -> nat -> Q -> list string.
Variable API_URL : option string.
Variable API_KEY : option string.
Variable urlopen : string -> outcome.

Abbreviation fuzzy := (fuzzy_lookup get_close_matches).
Abbreviation call_api := (_call_enrichment_api API_URL API_KEY urlopen).
Abbreviation classify_one :=
  (classify_row get_close_matches API_URL API_KEY urlopen).
Abbreviation classify :=
  (classify_transactions get_close_matches API_URL API_KEY urlopen).
Abbreviation unresolved :=
  (ClassifyTerms.unresolved get_close_matches API_URL API_KEY urlopen).
Abbreviation answered_by_remote :=
  (ClassifyTerms.answered_by_remote get_close_matches API_URL API_KEY urlopen).

Lemma default_mapping_get (c : string) :
  dict_get DEFAULT_MAPPING c
  = if String.eqb "Earnings" c then Some ("Income", "General")
    else if String.eqb "Expenses" c then Some ("Others", "Others")
    else None.
Proof. reflexivity. Qed.

Lemma default_mapping_fallback (row_class : option string) :
  default_mapping row_class = Ok (fallback row_class).
Proof.
  unfold default_mapping, fallback.
  change (dict_getitem DEFAULT_MAPPING "Expenses") with
    (@Ok (string * string) ("Others", "Others")).
  cbn [bind]. destruct row_class as [c|]; [|reflexivity].
  rewrite default_mapping_get. cbn [option_eqb].
  rewrite (String.eqb_sym c "Earnings").
  destruct (String.eqb "Earnings" c); [reflexivity|].
  destruct (String.eqb "Expenses" c); reflexivity.
Qed.

(** The labels of a remote answer are truthy values: none is None, an
    empty string or zero. *)
Lemma call_api_truthy (description : string) (category sub_category : json) :
  call_api description = Ok (Some (category, sub_category)) ->
  json_truthy category = true /\ json_truthy sub_category = true.
Proof.
  unfold _call_enrichment_api.
  destruct (negb (truthy API_URL) || negb (truthy API_KEY)); [discriminate|].
  destruct (urlopen description) as [e|e|status b]; [discriminate| |].
  { destruct (caught e); discriminate. }
  destruct (400 <=? status)%Z; [discriminate|].
  destruct b as [e|data].
  { destruct (caught e); discriminate. }
  destruct data as [| | | | | | |fields]; try discriminate.
  cbn [json_get bind].
  set (c := match dict_get fields "category" with Some v => v | None => JNull end).
  set (s := match dict_get fields "sub_category" with Some v => v | None => JNull end).
  destruct (json_truthy c) eqn:Ec; [|discriminate].
  destruct (json_truthy s) eqn:Es; cbn [andb]; intros [= <- <-].
  - split; assumption.
  - split; [assumption|reflexivity].
Qed.

Lemma call_api_not_null (description : string) (category sub_category : json) :
  call_api description = Ok (Some (category, sub_category)) ->
  category <> JNull /\ sub_category <> JNull.
Proof.
  intro H. apply call_api_truthy in H.
  split; apply json_truthy_not_null; tauto.
Qed.

Lemma classify_row_ok (use_api : bool) (r : Row) (c : Classified) :
  classify_one use_api r = Ok c ->
  row c = r
  /\ category c <> JNull /\ sub_category c <> JNull
  /\ (unresolved use_api r ->
      (category c, sub_category c) = strings (fallback (class_ r))).
Proof.
  unfold classify_row, unresolved. cbv zeta.
  set (d := normalize (description r)).
  destruct (deterministic_lookup d) as [m|]; cbn [option_map bind].
  { intros [= <-]. cbn. repeat split; try discriminate.
    intros [H _]. discriminate H. }
  destruct (fuzzy d) as [[m|]|e]; cbn [option_map bind]; [| |discriminate].
  { intros [= <-]. cbn. repeat split; try discriminate.
    intros [_ [H _]]. discriminate H. }
  rewrite default_mapping_fallback.
  destruct use_api.
  - destruct (call_api d) as [[[cat sub]|]|e] eqn:E; cbn [bind];
      [| |discriminate].
    + intros [= <-]. cbn. apply call_api_not_null in E.
      repeat split; try tauto.
      intros [_ [_ H]]. specialize (H eq_refl). discriminate H.
    + intros [= <-]. cbn. repeat split; discriminate.
  - cbn [bind]. intros [= <-]. cbn. repeat split; discriminate.
Qed.

(** Where the labels of a row come from: the tables of the module, which
    hold strings, or the remote answer. *)
Lemma classify_row_labels (use_api : bool) (r : Row) (c : Classified) :
  classify_one use_api r = Ok c ->
  text_labels c \/ answered_by_remote use_api c.
Proof.
  unfold classify_row, answered_by_remote, text_labels. cbv zeta.
  set (d := normalize (description r)).
  destruct (deterministic_lookup d) as [m|] eqn:Ed; cbn [option_map bind].
  { intros [= <-]. left. cbn. eauto. }
  destruct (fuzzy d) as [[m|]|e] eqn:Ef; cbn [option_map bind];
    [| |discriminate].
  { intros [= <-]. left. cbn. eauto. }
  rewrite default_mapping_fallback.
  destruct use_api.
  - destruct (call_api d) as [[[cat sub]|]|e] eqn:E; cbn [bind];
      [| |discriminate].
    + intros [= <-]. right. cbn [row category sub_category fst snd].
      fold d. rewrite Ed, Ef, E. auto.
    + intros [= <-]. left. cbn. eauto.
  - cbn [bind]. intros [= <-]. left. cbn. eauto.
Qed.

Lemma text_labels_not_null (c : Classified) :
  text_labels c -> null_label c = false.
Proof. intros [cat [sub [H1 H2]]]. unfold null_label. now rewrite H1, H2. Qed.

Lemma Forall2_Forall_r {A B} (R : A -> B -> Prop) (P : B -> Prop)
  (l : list A) (out : list B) :
  Forall2 R l out -> (forall a b, R a b -> P b) -> Forall P out.
Proof.
  intros H HP. induction H as [|a b l out Hab _ IH]; constructor; eauto.
Qed.

Lemma classify_unfold (df : DataFrame) (use_api : bool) :
  classify df use_api
  = if empty df
    then Ok (map (fun r => mkClassified r JNaN JNaN) (rows df))
    else mapM (classify_one use_api) (classified_rows df).
Proof. reflexivity. Qed.

Lemma classified_rows_length (df : DataFrame) :
  List.length (classified_rows df) = List.length (rows df).
Proof.
  unfold classified_rows. destruct (negb _); [apply length_map|reflexivity].
Qed.

(** C1, as amended.  When [classify_transactions] returns, it returns one
    row per input row.  On a table with rows and columns, no label is
    None; a label is a string unless the row was left to the endpoint and
    the endpoint answered, and then it is the truthy value the body
    carried, which is null when it is NaN; so with the remote call off no
    label is null.  A row that neither the keyword table, nor the fuzzy
    lookup, nor (when enabled) the remote call resolves gets (Income,
    General) if its class is Earnings and (Others, Others) otherwise.  On
    a table with rows and no column every label is NaN. *)
Theorem classify_transactions_populated (df : DataFrame) (use_api : bool)
  (out : list Classified) :
  classify df use_api = Ok out ->
  List.length out = List.length (rows df)
  /\ (empty df = true ->
      out = map (fun r => mkClassified r JNaN JNaN) (rows df))
  /\ (empty df = false ->
      map row out = classified_rows df
      /\ Forall (fun c => category c <> JNull /\ sub_category c <> JNull) out
      /\ Forall (fun c => text_labels c \/ answered_by_remote use_api c) out
      /\ Forall
           (fun c =>
              answered_by_remote use_api c ->
              json_truthy (category c) = true
              /\ json_truthy (sub_category c) = true)
           out
      /\ Forall (fun c => null_label c = true -> answered_by_remote use_api c)
           out
      /\ (use_api = false -> Forall (fun c => null_label c = false) out)
      /\ Forall
           (fun c =>
              unresolved use_api (row c) ->
              (class_ (row c) = Some "Earnings" ->
               category c = JStr "Income" /\ sub_category c = JStr "General")
              /\ (class_ (row c) <> Some "Earnings" ->
                  category c = JStr "Others"
                  /\ sub_category c = JStr "Others"))
           out).
Proof.
  rewrite classify_unfold. intro H.
  destruct (empty df) eqn:Ee.
  { injection H as <-. split; [apply length_map|].
    split; [reflexivity|discriminate]. }
  apply mapM_Forall2 in H.
  split; [now rewrite <- (Forall2_length H), classified_rows_length|].
  split; [discriminate|]. intros _.
  split.
  { induction H as [|r c l out' Hrc _ IH]; [reflexivity|].
    destruct (classify_row_ok _ _ _ Hrc) as [R1 _]. simpl. now rewrite R1, IH. }
  split.
  { apply (Forall2_Forall_r _ _ _ _ H). intros r c Hrc.
    destruct (classify_row_ok _ _ _ Hrc) as [_ [R2 [R3 _]]]. tauto. }
  split.
  { apply (Forall2_Forall_r _ _ _ _ H). intros r c Hrc.
    exact (classify_row_labels _ _ _ Hrc). }
  split.
  { apply Forall_forall. intros c _ [_ [_ [_ Hc]]].
    exact (call_api_truthy _ _ _ Hc). }
  split.
  { apply (Forall2_Forall_r _ _ _ _ H). intros r c Hrc Hn.
    destruct (classify_row_labels _ _ _ Hrc) as [Ht|Hr]; [|exact Hr].
    rewrite (text_labels_not_null c Ht) in Hn. discriminate Hn. }
  split.
  { intros ->. apply (Forall2_Forall_r _ _ _ _ H). intros r c Hrc.
    destruct (classify_row_labels _ _ _ Hrc) as [Ht|[Hr _]];
      [now apply text_labels_not_null|discriminate Hr]. }
  apply (Forall2_Forall_r _ _ _ _ H). intros r c Hrc.
  destruct (classify_row_ok _ _ _ Hrc) as [R1 [_ [_ R4]]].
  rewrite R1. intro Hu. specialize (R4 Hu).
  unfold fallback, strings in R4. injection R4 as -> ->.
  split; intro Hc.
  - rewrite Hc. simpl. auto.
  - destruct (class_ r) as [cls|]; simpl; [|auto].
    destruct (String.eqb_spec cls "Earnings") as [->|Hne]; [congruence|auto].
Qed.

(** What the [except] clause lets through: a body that parses to something
    other than an object, and an exception of a class it does not list. *)
Lemma call_enrichment_api_propagates (description : string) :
  truthy API_URL = true -> truthy API_KEY = true ->
  (forall status data,
     urlopen description = Response status (BodyJson data) ->
     (status < 400)%Z ->
     (forall fields, data <> JObj fields) ->
     call_api description = Raise AttributeError)
  /\ (forall name,
        urlopen description = UrlRaises (OtherError name) ->
        call_api description = Raise (OtherError name)).
Proof.
  intros Hu Hk. unfold _call_enrichment_api. rewrite Hu, Hk. cbn [negb orb].
  split.
  - intros status data H Hs Hd. rewrite H.
    apply Z.ltb_lt in Hs. rewrite Z.ltb_antisym in Hs.
    apply negb_true_iff in Hs. rewrite Hs.
    destruct data as [| | | | | | |fields]; try reflexivity.
    now destruct (Hd fields).
  - intros name H. rewrite H. reflexivity.
Qed.

(** With the remote call off, classification returns as soon as
    [get_close_matches] only proposes words among the possibilities it is
    given, as difflib does. *)
Lemma classify_transactions_returns (df : DataFrame) :
  (forall word possibilities n cutoff,
     incl (get_close_matches word possibilities n cutoff) possibilities) ->
  exists out, classify df false = Ok out.
Proof.
  intro Hclose.
  assert (forall best, In best (map fst FUZZY_TARGETS) ->
            exists m, dict_getitem FUZZY_TARGETS best = Ok m) as Hget.
  { intros best Hb. unfold dict_getitem.
    destruct (dict_get FUZZY_TARGETS best) as [m|] eqn:E; [eauto|].
    exfalso. revert Hb E. generalize FUZZY_TARGETS.
    induction l as [|[k v] l IH]; simpl; [tauto|].
    intros [->|Hb]; [now rewrite String.eqb_refl|].
    destruct (String.eqb k best); [discriminate|]. now apply IH. }
  assert (forall d, exists m, fuzzy d = Ok m) as Hfuzzy.
  { intro d. unfold fuzzy_lookup. cbv zeta.
    set (tokens := split_nonempty _ d). clearbody tokens.
    destruct (first_close_match get_close_matches tokens
                (map fst FUZZY_TARGETS)) as [best|] eqn:E.
    - assert (In best (map fst FUZZY_TARGETS)) as Hb.
      { clear -E Hclose.
        induction tokens as [|t ts IH]; cbn [first_close_match] in E;
          [discriminate|].
        destruct (get_close_matches t (map fst FUZZY_TARGETS) 1 (92 # 100)%Q)
          as [|b bs] eqn:G; [now apply IH|].
        injection E as <-. apply (Hclose t _ 1 (92 # 100)%Q).
        rewrite G. now left. }
      destruct (Hget best Hb) as [m Hm]. rewrite Hm. cbn. eauto.
    - destruct (get_close_matches d (map fst FUZZY_TARGETS) 1 (8 # 10)%Q)
        as [|b bs] eqn:G; [eauto|].
      assert (In b (map fst FUZZY_TARGETS)) as Hb.
      { apply (Hclose d _ 1 (8 # 10)%Q). rewrite G. now left. }
      destruct (Hget b Hb) as [m Hm]. rewrite Hm. cbn. eauto. }
  assert (forall r, exists c, classify_one false r = Ok c) as Hrow.
  { intro r. unfold classify_row. cbv zeta.
    destruct (deterministic_lookup (normalize (Classify.description r)));
      cbn [option_map bind]; [eauto|].
    destruct (Hfuzzy (normalize (Classify.description r))) as [m Hm].
    rewrite Hm. cbn [bind].
    destruct m; cbn [option_map bind]; [eauto|].
    rewrite default_mapping_fallback. cbn [bind]. eauto. }
  rewrite classify_unfold.
  destruct (empty df); [eauto|].
  generalize (classified_rows df).
  induction l as [|r l IH]; simpl; [eauto|].
  destruct (Hrow r) as [c Hc]. rewrite Hc. cbn [bind].
  destruct IH as [out Hout]. rewrite Hout. cbn [bind]. eauto.
Qed.


End ClassificationFacts.

Lemma classify_transactions_populated_witness :
  exists out,
    classify_transactions Samples.no_close_matches None None
      Samples.failing_endpoint Samples.vet_table false = Ok out
    /\ List.length out = 3
    /\ Forall (fun c => null_label c = false) out
    /\ map (fun c => (category c, sub_category c)) out
       = [ (JStr "Others", JStr "Others");
           (JStr "Income", JStr "General");
           (JStr "Housing", JStr "Rent") ].
Proof.
  assert (is_ok (classify_transactions Samples.no_close_matches None None
                   Samples.failing_endpoint Samples.vet_table false) = true)
    as Hok by (vm_compute; reflexivity).
  destruct (classify_transactions Samples.no_close_matches None None
              Samples.failing_endpoint Samples.vet_table false)
    as [out|e] eqn:E; [|discriminate Hok].
  exists out. split; [reflexivity|].
  destruct (classify_transactions_populated Samples.no_close_matches None None
              Samples.failing_endpoint Samples.vet_table false out E)
    as [Hlen [_ H]].
  split; [exact Hlen|].
  split; [exact (proj1 (proj2 (proj2 (proj2 (proj2 (proj2 (H eq_refl))))))
                   eq_refl)|].
  vm_compute in E. injection E as <-. reflexivity.
Defined.

(** C1 fails as stated: an endpoint that answers [{"category": NaN}] is
    taken at its word, NaN being truthy, and the rows left to it get a
    null category; and a table with rows and no column is empty for
    pandas, so that its rows come back with NaN for both labels, neither
    resolved nor given the default. *)
Lemma classify_transactions_null_labels :
  (exists out,
     classify_transactions Samples.no_close_matches
       (Some "https://classify.example/api") (Some "key")
       Samples.nan_endpoint Samples.vet_table true = Ok out
     /\ map (fun c => (category c, sub_category c)) out
        = [ (JNaN, JStr "Others"); (JNaN, JStr "Others");
            (JStr "Housing", JStr "Rent") ]
     /\ map null_label out = [true; true; false])
  /\ (exists out,
        classify_transactions Samples.no_close_matches None None
          Samples.failing_endpoint
          (mkDataFrame [] (rows Samples.vet_table)) false = Ok out
        /\ map (fun c => (category c, sub_category c)) out
           = [ (JNaN, JNaN); (JNaN, JNaN); (JNaN, JNaN) ]
        /\ map null_label out = [true; true; true]).
Proof.
  split; eexists; (split; [vm_compute; reflexivity|]); split; reflexivity.
Qed.



End ClassifyFacts.

(** * Facts about strings and the regular expressions *)

Module StringFacts.
Import PyStr Re StringTerms.

Lemma append_assoc (a b c : string) :
  String.append (String.append a b) c = String.append a (String.append b c).
Proof.
  induction a as [|x a IH]; [reflexivity|].
  rewrite !ClassifyFacts.append_cons. now rewrite IH.
Qed.

Lemma append_nil_r (a : string) : String.append a "" = a.
Proof.
  induction a as [|x a IH]; [reflexivity|].
  rewrite ClassifyFacts.append_cons. now rewrite IH.
Qed.

Lemma isspace_lower_char (c : ascii) : isspace (lower_char c) = isspace c.
Proof. destruct c as [[] [] [] [] [] [] [] []]; reflexivity. Qed.

(** ** [strip] *)

Section Strip.
Variable p : ascii -> bool.

Lemma lstrip_by_length (s : string) :
  String.length (lstrip_by p s) <= String.length s.
Proof.
  induction s as [|c s IH]; simpl; [lia|].
  destruct (p c); simpl; lia.
Qed.

Lemma lstrip_by_idempotent (s : string) :
  lstrip_by p (lstrip_by p s) = lstrip_by p s.
Proof.
  induction s as [|c s IH]; simpl; [reflexivity|].
  destruct (p c) eqn:E; [exact IH|]. simpl. now rewrite E.
Qed.

Lemma rstrip_by_cons (c : ascii) (s : string) :
  rstrip_by p (String c s)
  = match rstrip_by p s with
    | EmptyString => if p c then EmptyString else String c EmptyString
    | r => String c r
    end.
Proof. reflexivity. Qed.

Lemma rstrip_by_idempotent (s : string) :
  rstrip_by p (rstrip_by p s) = rstrip_by p s.
Proof.
  induction s as [|c s IH]; [reflexivity|].
  rewrite rstrip_by_cons.
  destruct (rstrip_by p s) as [|d r] eqn:E.
  - destruct (p c) eqn:Ec; [reflexivity|].
    rewrite rstrip_by_cons. simpl. now rewrite Ec.
  - rewrite rstrip_by_cons, IH. reflexivity.
Qed.

Lemma strip_by_comm (s : string) :
  lstrip_by p (rstrip_by p s) = rstrip_by p (lstrip_by p s).
Proof.
  induction s as [|c s IH]; [reflexivity|].
  rewrite rstrip_by_cons. cbn [lstrip_by].
  destruct (p c) eqn:Ec.
  - rewrite <- IH. destruct (rstrip_by p s) as [|d r]; [reflexivity|].
    cbn [lstrip_by]. now rewrite Ec.
  - rewrite rstrip_by_cons.
    destruct (rstrip_by p s); cbn [lstrip_by]; now rewrite Ec.
Qed.

Lemma strip_by_idempotent (s : string) :
  strip_by p (strip_by p s) = strip_by p s.
Proof.
  unfold strip_by.
  now rewrite strip_by_comm, lstrip_by_idempotent, rstrip_by_idempotent.
Qed.

Lemma lstrip_by_all (s : string) :
  all_chars (fun c => negb (p c)) s = true -> lstrip_by p s = s.
Proof.
  destruct s as [|c s]; [reflexivity|]. simpl.
  destruct (p c); [discriminate|reflexivity].
Qed.

Lemma rstrip_by_all (s : string) :
  all_chars (fun c => negb (p c)) s = true -> rstrip_by p s = s.
Proof.
  induction s as [|c s IH]; [reflexivity|].
  cbn [all_chars]. intro H. apply andb_true_iff in H. destruct H as [Hc Hs].
  rewrite rstrip_by_cons, (IH Hs).
  destruct s; [|reflexivity]. now destruct (p c).
Qed.

Lemma lstrip_by_all_chars (q : ascii -> bool) (s : string) :
  all_chars q s = true -> all_chars q (lstrip_by p s) = true.
Proof.
  induction s as [|c s IH]; [reflexivity|].
  cbn [all_chars lstrip_by]. intro H.
  destruct (p c); [|exact H].
  apply andb_true_iff in H. now apply IH.
Qed.

Lemma rstrip_by_all_chars (q : ascii -> bool) (s : string) :
  all_chars q s = true -> all_chars q (rstrip_by p s) = true.
Proof.
  induction s as [|c s IH]; [reflexivity|].
  cbn [all_chars]. intro H. apply andb_true_iff in H. destruct H as [Hc Hs].
  rewrite rstrip_by_cons. specialize (IH Hs).
  destruct (rstrip_by p s) as [|d r].
  - destruct (p c); [reflexivity|]. cbn [all_chars]. now rewrite Hc.
  - cbn [all_chars] in *. now rewrite Hc.
Qed.

Lemma strip_by_all_chars (q : ascii -> bool) (s : string) :
  all_chars q s = true -> all_chars q (strip_by p s) = true.
Proof.
  intro H. unfold strip_by. now apply rstrip_by_all_chars, lstrip_by_all_chars.
Qed.

End Strip.

Lemma strip_idempotent (s : string) : strip (strip s) = strip s.
Proof. apply strip_by_idempotent. Qed.

(** ** [lower] *)

Lemma lower_empty (s : string) : lower s = "" -> s = "".
Proof. destruct s; [reflexivity|discriminate]. Qed.

Lemma lower_lstrip (s : string) :
  lower (lstrip_by isspace s) = lstrip_by isspace (lower s).
Proof.
  induction s as [|c s IH]; [reflexivity|].
  cbn [lstrip_by lower]. rewrite isspace_lower_char.
  destruct (isspace c); [exact IH|reflexivity].
Qed.

Lemma lower_rstrip (s : string) :
  lower (rstrip_by isspace s) = rstrip_by isspace (lower s).
Proof.
  induction s as [|c s IH]; [reflexivity|].
  cbn [lower]. rewrite !rstrip_by_cons, <- IH, isspace_lower_char.
  destruct (rstrip_by isspace s) as [|d r]; cbn [lower].
  - now destruct (isspace c).
  - reflexivity.
Qed.

Lemma lower_strip (s : string) : lower (strip s) = strip (lower s).
Proof.
  unfold strip, strip_by. now rewrite lower_rstrip, lower_lstrip.
Qed.

Lemma lower_squeeze_from (b : bool) (s : string) :
  lower (squeeze_from b s) = squeeze_from b (lower s).
Proof.
  revert b. induction s as [|c s IH]; intro b; [reflexivity|].
  cbn [squeeze_from lower]. rewrite isspace_lower_char.
  destruct (isspace c).
  - destruct b; cbn [lower]; now rewrite IH.
  - cbn [lower]. now rewrite IH.
Qed.

(** ** [re.sub(r"\s+", " ", s)] *)

Lemma rep_rest (p : ascii -> bool) (prev : option ascii) (s : string) :
  rep (match_here []) p 0 prev s = Some (lstrip_by p s).
Proof.
  revert prev. induction s as [|c s IH]; intro prev; [reflexivity|].
  cbn [rep lstrip_by Nat.eqb Nat.pred].
  destruct (p c); [|reflexivity].
  now rewrite IH.
Qed.

Lemma match_spaces (prev : option ascii) (s : string) :
  match_here spaces prev s
  = match s with
    | EmptyString => None
    | String c s' => if isspace c then Some (lstrip_by isspace s') else None
    end.
Proof.
  unfold spaces. cbn [match_here].
  destruct s as [|c s]; [reflexivity|].
  cbn [rep Nat.eqb Nat.pred]. destruct (isspace c); [|reflexivity].
  now rewrite rep_rest.
Qed.

Lemma sub_spaces_from (s : string) (prev : option ascii) :
  sub_go spaces " " prev 0 s = squeeze_from false s
  /\ sub_go spaces " " prev
       (String.length s - String.length (lstrip_by isspace s)) s
     = squeeze_from true s.
Proof.
  revert prev. induction s as [|c s IH]; intro prev; [split; reflexivity|].
  pose proof (lstrip_by_length isspace s) as Hlen.
  split.
  - cbn [sub_go]. rewrite match_spaces. cbn [squeeze_from].
    destruct (isspace c).
    + replace (String.length (String c s) - String.length (lstrip_by isspace s))
        with (S (String.length s - String.length (lstrip_by isspace s)))
        by (simpl; lia).
      rewrite (proj2 (IH (Some c))). reflexivity.
    + now rewrite (proj1 (IH (Some c))).
  - cbn [lstrip_by squeeze_from]. destruct (isspace c) eqn:Ec.
    + replace (String.length (String c s) - String.length (lstrip_by isspace s))
        with (S (String.length s - String.length (lstrip_by isspace s)))
        by (simpl; lia).
      cbn [sub_go]. apply IH.
    + rewrite Nat.sub_diag. cbn [sub_go]. rewrite match_spaces, Ec.
      now rewrite (proj1 (IH (Some c))).
Qed.

(** The pattern [\s+] replaced by a blank squeezes the runs of white
    space. *)
Lemma sub_spaces (s : string) : Re.sub spaces " " s = squeeze s.
Proof. apply sub_spaces_from. Qed.

(** ** [squeeze] *)

Lemma squeeze_from_idempotent (b : bool) (s : string) :
  squeeze_from b (squeeze_from b s) = squeeze_from b s.
Proof.
  revert b. induction s as [|c s IH]; intro b; [reflexivity|].
  cbn [squeeze_from]. destruct (isspace c) eqn:Ec.
  - destruct b; [apply IH|].
    cbn [squeeze_from]. change (isspace " ") with true. cbn iota.
    now rewrite IH.
  - cbn [squeeze_from]. rewrite Ec. now rewrite IH.
Qed.

Lemma squeeze_lstrip (b : bool) (s : string) :
  lstrip_by isspace (squeeze_from b s) = squeeze_from false (lstrip_by isspace s).
Proof.
  revert b. induction s as [|c s IH]; intro b; [reflexivity|].
  cbn [squeeze_from lstrip_by]. destruct (isspace c) eqn:Ec.
  - destruct b; [apply IH|].
    cbn [lstrip_by]. change (isspace " ") with true. cbn iota. apply IH.
  - cbn [lstrip_by squeeze_from]. now rewrite Ec.
Qed.

Lemma squeeze_from_empty (b : bool) (s : string) :
  squeeze_from b s = "" -> rstrip_by isspace s = "".
Proof.
  induction s as [|c s IH]; [reflexivity|].
  cbn [squeeze_from]. rewrite rstrip_by_cons.
  destruct (isspace c); [|discriminate].
  destruct b; [|discriminate].
  intro H. now rewrite (IH H).
Qed.

Lemma squeeze_rstrip (b : bool) (s : string) :
  rstrip_by isspace (squeeze_from b s) = squeeze_from b (rstrip_by isspace s).
Proof.
  revert b. induction s as [|c s IH]; intro b; [reflexivity|].
  rewrite rstrip_by_cons. cbn [squeeze_from].
  assert (forall b', rstrip_by isspace s <> "" ->
            squeeze_from b' (rstrip_by isspace s) <> "") as Hne.
  { intros b' Hr H. apply squeeze_from_empty in H.
    rewrite rstrip_by_idempotent in H. contradiction. }
  destruct (isspace c) eqn:Ec.
  - destruct b.
    + rewrite IH. destruct (rstrip_by isspace s) as [|d r] eqn:E;
        [reflexivity|].
      cbn [squeeze_from]. now rewrite Ec.
    + rewrite rstrip_by_cons, IH.
      destruct (rstrip_by isspace s) as [|d r] eqn:E; [reflexivity|].
      specialize (Hne true ltac:(discriminate)).
      change (squeeze_from false (String c (String d r)))
        with (if isspace c
              then String " " (squeeze_from true (String d r))
              else String c (squeeze_from false (String d r))).
      rewrite Ec.
      destruct (squeeze_from true (String d r)); [contradiction|reflexivity].
  - rewrite rstrip_by_cons, IH.
    destruct (rstrip_by isspace s) as [|d r] eqn:E.
    + cbn [squeeze_from]. now rewrite Ec.
    + change (squeeze_from b (String c (String d r)))
        with (if isspace c
              then if b then squeeze_from true (String d r)
                   else String " " (squeeze_from true (String d r))
              else String c (squeeze_from false (String d r))).
      rewrite Ec.
      now destruct (squeeze_from false (String d r)).
Qed.

Lemma squeeze_strip (s : string) : squeeze (strip s) = strip (squeeze s).
Proof.
  unfold squeeze, strip, strip_by.
  now rewrite squeeze_lstrip, squeeze_rstrip.
Qed.

Lemma squeeze_idempotent (s : string) : squeeze (squeeze s) = squeeze s.
Proof. apply squeeze_from_idempotent. Qed.

Lemma lower_squeeze (s : string) : lower (squeeze s) = squeeze (lower s).
Proof. apply lower_squeeze_from. Qed.

End StringFacts.

(** * Facts about io_utils.py: cells and headers *)

Module CellFacts.
Import PyStr Re Pandas Py IoUtils StringTerms StringFacts TableTerms.

Lemma all_chars_weaken (p q : ascii -> bool) (s : string) :
  (forall c, p c = true -> q c = true) ->
  all_chars p s = true -> all_chars q s = true.
Proof.
  intro H. induction s as [|c s IH]; [reflexivity|].
  cbn [all_chars]. rewrite !andb_true_iff. intros [Hc Hs]. auto.
Qed.

Lemma all_chars_append (p : ascii -> bool) (a b : string) :
  all_chars p (String.append a b) = all_chars p a && all_chars p b.
Proof.
  induction a as [|c a IH]; [reflexivity|].
  rewrite ClassifyFacts.append_cons. cbn [all_chars]. now rewrite IH, andb_assoc.
Qed.

Lemma all_chars_keep (p : ascii -> bool) (s : string) :
  all_chars p (keep p s) = true.
Proof.
  induction s as [|c s IH]; [reflexivity|].
  cbn [keep]. destruct (p c) eqn:E; [|exact IH].
  cbn [all_chars]. now rewrite E.
Qed.

Lemma keep_all_chars (p q : ascii -> bool) (s : string) :
  all_chars q s = true -> all_chars q (keep p s) = true.
Proof.
  induction s as [|c s IH]; [reflexivity|].
  cbn [all_chars keep]. rewrite andb_true_iff. intros [Hc Hs].
  destruct (p c); [|now apply IH]. cbn [all_chars]. rewrite Hc. now apply IH.
Qed.

Lemma squeeze_from_all_chars (q : ascii -> bool) (b : bool) (s : string) :
  q " "%char = true ->
  all_chars q s = true -> all_chars q (squeeze_from b s) = true.
Proof.
  intro Hq. revert b. induction s as [|c s IH]; intro b; [reflexivity|].
  cbn [all_chars squeeze_from]. rewrite andb_true_iff. intros [Hc Hs].
  destruct (isspace c).
  - destruct b; [now apply IH|]. cbn [all_chars]. rewrite Hq. now apply IH.
  - cbn [all_chars]. rewrite Hc. now apply IH.
Qed.

Lemma replace_char_append (old : ascii) (new a b : string) :
  replace_char old new (String.append a b)
  = String.append (replace_char old new a) (replace_char old new b).
Proof.
  induction a as [|c a IH]; [reflexivity|].
  rewrite ClassifyFacts.append_cons. cbn [replace_char]. rewrite IH.
  destruct (Ascii.eqb c old); [|reflexivity].
  now rewrite append_assoc.
Qed.

Lemma replace_char_absent (old : ascii) (new s : string) :
  all_chars (fun c => negb (Ascii.eqb c old)) s = true ->
  replace_char old new s = s.
Proof.
  induction s as [|c s IH]; [reflexivity|].
  cbn [all_chars replace_char]. rewrite andb_true_iff. intros [Hc Hs].
  apply negb_true_iff in Hc. rewrite Hc. now rewrite IH.
Qed.

Lemma replace_char_all_chars (q : ascii -> bool) (old : ascii) (new s : string) :
  all_chars q new = true ->
  (forall c, Ascii.eqb c old = false -> q c = true) ->
  all_chars q (replace_char old new s) = true.
Proof.
  intros Hn Hq. induction s as [|c s IH]; [reflexivity|].
  cbn [replace_char]. destruct (Ascii.eqb c old) eqn:E.
  - rewrite all_chars_append, Hn, IH. reflexivity.
  - cbn [all_chars]. rewrite (Hq c E), IH. reflexivity.
Qed.

Ltac replace_norm a b :=
  repeat first
    [ rewrite replace_char_append
    | rewrite (replace_char_absent _ _ a) by assumption
    | rewrite (replace_char_absent _ _ b) by assumption
    | progress cbn [replace_char Ascii.eqb Bool.eqb]
    | rewrite ClassifyFacts.append_cons
    | rewrite ClassifyFacts.append_nil
    | rewrite append_nil_r ].

Lemma strip_all (s : string) :
  all_chars (fun c => negb (isspace c)) s = true -> strip s = s.
Proof.
  intro H. unfold strip, strip_by.
  now rewrite (lstrip_by_all isspace s H), (rstrip_by_all isspace s H).
Qed.

(** X1.  [_clean_string] returns text without a blank at either end, made
    of printable characters only (on the ASCII range: no control
    character) and free of the no-break space; a missing cell gives the
    empty text. *)
Theorem clean_string_trimmed_printable (value : option string) :
  strip (_clean_string value) = _clean_string value
  /\ all_chars isprintable (_clean_string value) = true
  /\ all_chars (fun c => negb (Ascii.eqb c "160")) (_clean_string value) = true
  /\ (value = None -> _clean_string value = "").
Proof.
  destruct value as [v|]; [|repeat split].
  unfold _clean_string. cbv zeta. rewrite sub_spaces.
  split; [apply strip_idempotent|].
  split; [apply strip_by_all_chars, all_chars_keep|].
  split; [|discriminate].
  apply strip_by_all_chars, keep_all_chars.
  apply squeeze_from_all_chars; [reflexivity|].
  apply strip_by_all_chars.
  apply replace_char_all_chars; [reflexivity|].
  intros c E. now rewrite E.
Qed.

Section Numbers.
Variable float : string -> option Q.

Abbreviation clean_numeric := (_clean_numeric float).

Lemma plain_spec (x : string) :
  plain x = true ->
  x <> ""
  /\ all_chars (fun c => negb (isspace c)) x = true
  /\ all_chars (fun c => negb (Ascii.eqb c ",")) x = true
  /\ all_chars (fun c => negb (Ascii.eqb c "$")) x = true
  /\ all_chars (fun c => negb (Ascii.eqb c "(")) x = true
  /\ all_chars (fun c => negb (Ascii.eqb c ")")) x = true.
Proof.
  unfold plain. rewrite andb_true_iff, negb_true_iff. intros [Hx H].
  split; [now apply String.eqb_neq|].
  repeat split; revert H; apply all_chars_weaken; intros c Hc;
    apply andb_true_iff in Hc; destruct Hc as [H1 H2];
    try exact H1;
    cbn [mem_char] in H2; rewrite !negb_orb in H2;
    repeat (apply andb_true_iff in H2; destruct H2 as [? H2]);
    assumption.
Qed.

Lemma clean_numeric_trimmed (s : string) :
  s <> "" -> all_chars (fun c => negb (isspace c)) s = true ->
  clean_numeric (Some s)
  = float (replace_char ")" ""
             (replace_char "(" "-"
                (replace_char "$" "" (replace_char "," "" s)))).
Proof.
  intros Hs H. unfold _clean_numeric. cbv zeta. rewrite (strip_all s H).
  destruct s; [contradiction|reflexivity].
Qed.

(** X2.  [_clean_numeric] reads through the currency format: blanks around
    the text, a dollar sign and thousands separators are dropped, and
    accounting parentheses stand for a minus sign; a missing or blank cell
    is no number, whatever [float] would make of it. *)
Theorem clean_numeric_currency_format (a b : string) :
  plain a = true -> plain b = true ->
  clean_numeric (Some a) = float a
  /\ clean_numeric (Some (String.append "$" (String.append a (String.append "," b))))
     = float (String.append a b)
  /\ clean_numeric (Some (String.append "(" (String.append a ")")))
     = float (String.append "-" a)
  /\ clean_numeric
       (Some (String.append "($" (String.append a (String.append "," (String.append b ")")))))
     = float (String.append "-" (String.append a b))
  /\ (forall s, clean_numeric (Some s) = clean_numeric (Some (strip s)))
  /\ (forall s, strip s = "" -> clean_numeric (Some s) = None)
  /\ clean_numeric None = None.
Proof.
  intros Ha Hb.
  destruct (plain_spec a Ha) as [Na [Sa [A1 [A2 [A3 A4]]]]].
  destruct (plain_spec b Hb) as [Nb [Sb [B1 [B2 [B3 B4]]]]].
  assert (forall s, s <> "" -> forall t, String.append s t <> "") as Hne.
  { intros s Hs t. destruct s; [contradiction|discriminate]. }
  split.
  { rewrite clean_numeric_trimmed by assumption.
    now rewrite !(replace_char_absent _ _ a) by assumption. }
  split.
  { rewrite clean_numeric_trimmed;
      [|discriminate|now rewrite !all_chars_append, Sa, Sb].
    replace_norm a b. reflexivity. }
  split.
  { rewrite clean_numeric_trimmed;
      [|discriminate|now rewrite !all_chars_append, Sa].
    replace_norm a b. reflexivity. }
  split.
  { rewrite clean_numeric_trimmed;
      [|discriminate|now rewrite !all_chars_append, Sa, Sb].
    replace_norm a b. reflexivity. }
  split.
  { intro s. unfold _clean_numeric. cbv zeta. now rewrite strip_idempotent. }
  split.
  { intros s Hs. unfold _clean_numeric. cbv zeta. now rewrite Hs. }
  reflexivity.
Qed.

End Numbers.

Lemma clean_numeric_currency_format_witness :
  _clean_numeric Samples.sample_float (Some "($2,500.00)")
  = Samples.sample_float "-2500.00"
  /\ _clean_numeric Samples.sample_float (Some "$2,500.00") = Some (2500 # 1)%Q.
Proof.
  pose proof (clean_numeric_currency_format Samples.sample_float "2" "500.00"
                eq_refl eq_refl) as H.
  split.
  - exact (proj1 (proj2 (proj2 (proj2 H)))).
  - exact (proj1 (proj2 H)).
Defined.

End CellFacts.

(** * Facts about io_utils.py: headers and tables *)

Module HeaderFacts.
Import PyStr Re Pandas Py IoUtils ReadTerms StringTerms StringFacts TableTerms.

Lemma normalize_column (col : string) :
  Re.sub spaces " " (lower (strip col)) = squeeze (lower (strip col)).
Proof. apply sub_spaces. Qed.

Lemma normalize_columns_idempotent (columns : list string) :
  _normalize_columns (_normalize_columns columns) = _normalize_columns columns.
Proof.
  unfold _normalize_columns. rewrite map_map. apply map_ext. intro col.
  rewrite !sub_spaces.
  set (x := lower (strip col)).
  assert (strip x = x) as Hx
    by (unfold x; now rewrite <- lower_strip, strip_idempotent).
  assert (lower x = x) as Lx
    by (unfold x; apply CleaningFacts.lower_idempotent).
  now rewrite <- squeeze_strip, Hx, lower_squeeze, Lx, squeeze_idempotent.
Qed.

Lemma filter_idempotent {A} (f : A -> bool) (l : list A) :
  filter f (filter f l) = filter f l.
Proof.
  induction l as [|x l IH]; [reflexivity|].
  simpl. destruct (f x) eqn:E; [|exact IH].
  simpl. now rewrite E, IH.
Qed.

(** X3.  What [_find_first_match] returns is a column of the header, so
    that reading the column cannot fail, and it ends with one of the
    candidates; when one of the candidates is itself a column, the answer
    is a candidate, also when an earlier candidate ends another column. *)
Theorem find_first_match_column (columns candidates : list string)
  (name : string) :
  _find_first_match columns candidates = Some name ->
  In name columns
  /\ (exists i, position name columns = Some i)
  /\ (exists candidate,
        In candidate candidates /\ endswith candidate name = true)
  /\ ((exists candidate, In candidate candidates /\ In candidate columns) ->
      In name candidates).
Proof.
  intro H.
  assert (In name columns
          /\ (exists candidate,
                In candidate candidates /\ endswith candidate name = true)
          /\ ((exists candidate, In candidate candidates /\ In candidate columns) ->
              In name candidates)) as [H1 [H2 H3]].
  { unfold _find_first_match in H.
    destruct (find _ candidates) as [c|] eqn:E.
    - injection H as <-. apply find_some in E. destruct E as [Hc E].
      apply existsb_exists in E. destruct E as [col [Hcol E]].
      apply String.eqb_eq in E. subst col.
      split; [exact Hcol|]. split; [|intros _; exact Hc].
      exists c. split; [exact Hc|]. apply ReadFacts.eqb_endswith, String.eqb_refl.
    - apply ReadFacts.first_some_some in H. destruct H as [c [Hc H]].
      apply find_some in H. destruct H as [Hcol H].
      split; [exact Hcol|]. split; [eauto|].
      intros [c' [Hc' Hcol']]. exfalso.
      apply (find_none _ _ E) in Hc'.
      assert (existsb (String.eqb c') columns = true) as Ht; [|congruence].
      apply existsb_exists. exists c'. split; [exact Hcol'|apply String.eqb_refl]. }
  split; [exact H1|]. split; [|split; assumption].
  clear -H1. induction columns as [|c columns IH]; [contradiction|].
  simpl. destruct (String.eqb c name) eqn:E; [eauto|].
  destruct H1 as [->|H1]; [now rewrite String.eqb_refl in E|].
  destruct (IH H1) as [i Hi]. rewrite Hi. simpl. eauto.
Qed.

Lemma find_first_match_column_witness :
  _find_first_match ["posting date"; "date"; "memo"] DATE_CANDIDATES
  = Some "date"
  /\ In "date" ["posting date"; "date"; "memo"].
Proof.
  split; [reflexivity|].
  exact (proj1 (find_first_match_column ["posting date"; "date"; "memo"]
                  DATE_CANDIDATES "date" eq_refl)).
Defined.

Lemma lower_nonempty (s : string) : s <> "" -> lower s <> "".
Proof. destruct s; [contradiction|discriminate]. Qed.

Lemma filename_label_nonempty (name : string) :
  name <> "" ->
  filename_label (Some name)
  = if contains "sav" (lower name) then "savings"
    else if contains "visa" (lower name) || contains "credit" (lower name)
            || contains "card" (lower name) then "credit card"
    else if contains "tfsa" (lower name) then "tfsa"
    else "chequing".
Proof. destruct name; [contradiction|reflexivity]. Qed.

(** X4.  The account name [infer_account_name] gives is never empty, is
    in lower case and has no blank at either end; and the file name
    counts whatever its case. *)
Theorem infer_account_name_shape (file_name : option string)
  (account_column : option (list (option string))) :
  infer_account_name file_name account_column <> ""
  /\ lower (infer_account_name file_name account_column)
     = infer_account_name file_name account_column
  /\ strip (infer_account_name file_name account_column)
     = infer_account_name file_name account_column
  /\ infer_account_name (option_map lower file_name) account_column
     = infer_account_name file_name account_column.
Proof.
  assert (forall f,
            filename_label f <> "" /\ lower (filename_label f) = filename_label f
            /\ strip (filename_label f) = filename_label f
            /\ filename_label (option_map lower f) = filename_label f) as Hf.
  { intro f.
    assert (In (filename_label f) ["chequing"; "savings"; "credit card"; "tfsa"])
      as Hin.
    { unfold filename_label. destruct f as [[|c f]|]; simpl; auto.
      repeat match goal with
             | |- context [if ?b then _ else _] => destruct b
             end; simpl; auto. }
    split; [|split; [|split]].
    - simpl in Hin. intuition (subst; congruence).
    - simpl in Hin.
      destruct Hin as [<-|[<-|[<-|[<-|[]]]]]; reflexivity.
    - simpl in Hin.
      destruct Hin as [<-|[<-|[<-|[<-|[]]]]]; reflexivity.
    - destruct f as [name|]; [|reflexivity].
      destruct (String.eqb_spec name "") as [->|Hn]; [reflexivity|].
      cbn [option_map].
      rewrite !filename_label_nonempty by (try apply lower_nonempty; exact Hn).
      now rewrite CleaningFacts.lower_idempotent. }
  rewrite !ReadFacts.infer_account_name_cases.
  destruct account_column as [column|]; [|apply Hf].
  destruct (first_notna column) as [cell|]; [|apply Hf].
  destruct (String.eqb_spec (strip cell) "") as [E|E]; [apply Hf|].
  split; [now apply lower_nonempty|].
  split; [apply CleaningFacts.lower_idempotent|].
  split; [|reflexivity].
  now rewrite <- lower_strip, strip_idempotent.
Qed.

End HeaderFacts.

Module TableFacts.
Import PyStr Re Pandas Py IoUtils ReadTerms StringTerms StringFacts TableTerms.

Lemma StronglySorted_impl {A} (R R' : A -> A -> Prop) (P : A -> Prop)
  (l : list A) :
  (forall a b, P a -> P b -> R a b -> R' a b) ->
  Forall P l -> StronglySorted R l -> StronglySorted R' l.
Proof.
  intros H HP HS. induction HS as [|a l HS IH Ha]; [constructor|].
  inversion HP as [|? ? Pa Pl]; subst.
  constructor; [now apply IH|].
  rewrite Forall_forall in *. intros b Hb. apply H; auto.
Qed.

Section Tables.
Variable parse_datetime : string -> option Z.
Variable float : string -> option Q.

Abbreviation read := (read_scotiabank_csv parse_datetime float).
Abbreviation number_under := (TableTerms.number_under float).
Abbreviation dated := (TableTerms.dated parse_datetime).
Abbreviation date_under := (TableTerms.date_under parse_datetime).

(** The table [read_scotiabank_csv] returns, spelled out: the non-blank
    records under the columns found, those with a date and an amount, by
    date. *)
Lemma read_table (df : CsvFrame) (file_name : option string)
  (table : list Transaction) :
  read df file_name = Ok table ->
  exists date_column description_column amount_of balance_of,
    _find_first_match (header df) DATE_CANDIDATES = Some date_column
    /\ _find_first_match (header df) DESCRIPTION_CANDIDATES
       = Some description_column
    /\ table
       = sort_values date
           (filter (fun t => is_some (date t) && is_some (amount t))
              (map (fun r =>
                      mkTransaction
                        (to_datetime parse_datetime
                           (getitem (header df) r date_column))
                        (Some (_clean_string
                                 (getitem (header df) r description_column)))
                        (amount_of r)
                        (infer_account_name file_name (account_series df))
                        (balance_of r))
                 (nonblank_records df)))
    /\ (has_column (header df) AMOUNT_CANDIDATES = false ->
        forall r, exists q,
          amount_of r = Some q
          /\ (q == number_under df CREDIT_CANDIDATES r
                   - number_under df DEBIT_CANDIDATES r)%Q).
Proof.
  unfold read_scotiabank_csv, TableTerms.number_under. cbv zeta.
  fold (header df). fold (nonblank_records df).
  destruct ReadFacts.candidates_nonempty as [Ha [Hd [Hc [Hacc _]]]].
  rewrite (ReadFacts.truthy_match (header df) _ Ha),
    (ReadFacts.truthy_match (header df) _ Hd),
    (ReadFacts.truthy_match (header df) _ Hc).
  destruct (_find_first_match (header df) DATE_CANDIDATES) as [dc|];
    [|discriminate].
  destruct (_find_first_match (header df) DESCRIPTION_CANDIDATES) as [sc|];
    [|discriminate].
  assert ((if truthy (_find_first_match (header df) ACCOUNT_CANDIDATES)
           then option_map
                  (fun name => map (fun r => getitem (header df) r name)
                                 (nonblank_records df))
                  (_find_first_match (header df) ACCOUNT_CANDIDATES)
           else None) = account_series df) as ->.
  { unfold account_series. cbv zeta. fold (header df). fold (nonblank_records df).
    destruct (_find_first_match (header df) ACCOUNT_CANDIDATES) as [a|] eqn:E;
      [|reflexivity].
    now rewrite (ReadFacts.find_first_match_truthy _ _ _ Hacc E). }
  destruct (has_column (header df) AMOUNT_CANDIDATES) eqn:Eamount.
  - cbn [bind]. intros [= <-].
    exists dc, sc. eexists. eexists.
    split; [reflexivity|]. split; [reflexivity|].
    split; [reflexivity|]. discriminate.
  - destruct (orb _ _) eqn:Eledger; cbn [bind]; [|discriminate].
    intros [= <-].
    exists dc, sc. eexists. eexists.
    split; [reflexivity|]. split; [reflexivity|].
    split; [reflexivity|].
    intros _ r. eexists. split; [reflexivity|].
    destruct (_find_first_match (header df) DEBIT_CANDIDATES);
      destruct (_find_first_match (header df) CREDIT_CANDIDATES);
      unfold Qzero; ring.
Qed.

Lemma read_account (df : CsvFrame) (file_name : option string)
  (table : list Transaction) :
  read df file_name = Ok table ->
  Forall
    (fun t => account_name t = infer_account_name file_name (account_series df))
    table.
Proof.
  intro H. apply read_table in H.
  destruct H as [dc [sc [amount_of [balance_of [_ [_ [-> _]]]]]]].
  apply Forall_forall. intros t Ht.
  unfold sort_values in Ht. apply SortFacts.sort_by_In in Ht.
  apply filter_In in Ht. destruct Ht as [Ht _].
  apply in_map_iff in Ht. destruct Ht as [r [<- _]]. reflexivity.
Qed.

(** X5.  Every row [read_scotiabank_csv] returns has a date and an amount,
    and a description that [_clean_string] produced (so never null); the
    rows come in ascending order of date, and there are no more of them
    than records in the file. *)
Theorem read_scotiabank_csv_rows (df : CsvFrame) (file_name : option string)
  (table : list Transaction) :
  read df file_name = Ok table ->
  Forall (fun t => is_some (date t) = true /\ is_some (amount t) = true
                   /\ exists cell, description t = Some (_clean_string cell))
    table
  /\ StronglySorted dates_ascend table
  /\ List.length table <= List.length (records df).
Proof.
  intro H. apply read_table in H.
  destruct H as [dc [sc [amount_of [balance_of [_ [_ [-> _]]]]]]].
  set (build := fun r : list (option string) => mkTransaction _ _ _ _ _).
  assert (Forall (fun t => is_some (date t) = true /\ is_some (amount t) = true
                           /\ exists cell, description t = Some (_clean_string cell))
            (sort_values date
               (filter (fun t => is_some (date t) && is_some (amount t))
                  (map build (nonblank_records df))))) as HF.
  { apply Forall_forall. intros t Ht.
    unfold sort_values in Ht. apply SortFacts.sort_by_In in Ht.
    apply filter_In in Ht. destruct Ht as [Ht Hok].
    apply andb_true_iff in Hok.
    apply in_map_iff in Ht. destruct Ht as [r [<- _]].
    split; [tauto|]. split; [tauto|]. simpl. eauto. }
  split; [exact HF|]. split.
  - apply (StronglySorted_impl
             (fun a b => key_le (date a) (date b) = true) dates_ascend
             (fun t => is_some (date t) = true)).
    + intros a b Pa Pb. unfold dates_ascend.
      destruct (date a); [|discriminate Pa].
      destruct (date b); [|discriminate Pb].
      simpl. apply Z.leb_le.
    + revert HF. apply Forall_impl. tauto.
    + unfold sort_values.
      apply (SortFacts.sort_by_sorted
               (fun x y : Transaction => key_le (date x) (date y))).
      * intros x y. apply SortFacts.key_le_total.
      * intros x y z. apply SortFacts.key_le_trans.
  - unfold sort_values.
    rewrite (Permutation_length (SortFacts.sort_by_perm _ _)).
    etransitivity; [apply filter_length_le|].
    rewrite length_map. unfold nonblank_records. apply filter_length_le.
Qed.

(** X6.  [read_scotiabank_csv] reads a frame through its normalized header
    and its non-blank records only: the case and the spacing of the header
    cells, and records without any cell, leave the result as it is. *)
Theorem read_scotiabank_csv_header_insensitive (df : CsvFrame)
  (file_name : option string) :
  read (mkCsvFrame (header df) (nonblank_records df)) file_name
  = read df file_name
  /\ read (mkCsvFrame (header df) (records df)) file_name = read df file_name
  /\ read (mkCsvFrame (columns df) (nonblank_records df)) file_name
     = read df file_name
  /\ header (mkCsvFrame (header df) (records df)) = header df.
Proof.
  unfold read_scotiabank_csv, header, nonblank_records.
  cbn [columns records].
  rewrite HeaderFacts.normalize_columns_idempotent, HeaderFacts.filter_idempotent.
  repeat split; reflexivity.
Qed.

Lemma number_under_blank (df : CsvFrame) (candidates : list string)
  (r : list (option string)) :
  blank_under df candidates r = true ->
  number_under df candidates r = Qzero.
Proof.
  unfold blank_under, TableTerms.number_under.
  destruct (_find_first_match (header df) candidates) as [name|];
    [|reflexivity].
  destruct (getitem (header df) r name) as [cell|]; [|reflexivity].
  unfold _clean_numeric. intros ->. reflexivity.
Qed.

(** X7.  When the header has no amount column, every row of the table
    comes from a non-blank record whose date parses, there are no more
    rows than such records, and a record with a date and with nothing
    under the debit column and nothing under the credit column (no such
    column, no cell, or white space only) is not lost for its amount: the
    table has a row of its date whose amount is zero. *)
Theorem read_scotiabank_csv_ledger (df : CsvFrame) (file_name : option string)
  (table : list Transaction) :
  has_column (header df) AMOUNT_CANDIDATES = false ->
  read df file_name = Ok table ->
  List.length table <= List.length (filter (dated df) (nonblank_records df))
  /\ Forall
       (fun t =>
          exists r, In r (nonblank_records df) /\ dated df r = true
                    /\ date t = date_under df r)
       table
  /\ (forall r,
        In r (nonblank_records df) -> dated df r = true ->
        blank_under df DEBIT_CANDIDATES r = true ->
        blank_under df CREDIT_CANDIDATES r = true ->
        exists t q, In t table /\ date t = date_under df r
                    /\ amount t = Some q /\ (q == 0)%Q).
Proof.
  intros Hamount H. apply read_table in H.
  destruct H as [dc [sc [amount_of [balance_of [Hdc [_ [-> Hledger]]]]]]].
  specialize (Hledger Hamount).
  set (build := fun r : list (option string) => mkTransaction _ _ _ _ _).
  assert (forall r, date (build r) = date_under df r) as Hdate.
  { intro r. unfold build, TableTerms.date_under. cbn [date]. now rewrite Hdc. }
  assert (forall r, is_some (date (build r)) && is_some (amount (build r))
                    = dated df r) as Hok.
  { intro r. unfold build, TableTerms.dated. cbn [date amount]. rewrite Hdc.
    destruct (Hledger r) as [q [-> _]]. apply andb_true_r. }
  split; [|split].
  - unfold sort_values.
    rewrite (Permutation_length (SortFacts.sort_by_perm _ _)).
    rewrite TransferFacts.filter_map_comm, length_map.
    rewrite (filter_ext _ _ Hok). reflexivity.
  - apply Forall_forall. intros t Ht.
    unfold sort_values in Ht. apply SortFacts.sort_by_In in Ht.
    apply filter_In in Ht. destruct Ht as [Ht Hd].
    apply in_map_iff in Ht. destruct Ht as [r [<- Hr]].
    rewrite Hok in Hd. exists r. auto.
  - intros r Hr Hd Hdebit Hcredit.
    destruct (Hledger r) as [q [Hq Hv]].
    exists (build r), q.
    split.
    { unfold sort_values. apply SortFacts.sort_by_In.
      apply filter_In. split; [now apply in_map|]. now rewrite Hok. }
    split; [apply Hdate|]. split; [exact Hq|].
    rewrite Hv, (number_under_blank _ _ _ Hdebit),
      (number_under_blank _ _ _ Hcredit).
    reflexivity.
Qed.

End Tables.

Lemma read_scotiabank_csv_rows_witness :
  exists table,
    read_scotiabank_csv Samples.sample_datetime Samples.sample_float
      Samples.two_account_frame (Some "statement.csv") = Ok table
    /\ StronglySorted dates_ascend table.
Proof.
  eexists. split; [vm_compute; reflexivity|].
  exact (proj1 (proj2 (read_scotiabank_csv_rows
                         Samples.sample_datetime Samples.sample_float
                         Samples.two_account_frame (Some "statement.csv") _
                         eq_refl))).
Defined.

Lemma read_scotiabank_csv_ledger_witness :
  exists table,
    read_scotiabank_csv Samples.sample_datetime Samples.sample_float
      Samples.ledger_frame None = Ok table
    /\ exists t q,
         In t table
         /\ date t
            = date_under Samples.sample_datetime Samples.ledger_frame
                [Some "2024-01-02"; Some "Opening"; Some "  "; None]
         /\ amount t = Some q /\ (q == 0)%Q.
Proof.
  eexists. split; [vm_compute; reflexivity|].
  exact (proj2 (proj2 (read_scotiabank_csv_ledger
                         Samples.sample_datetime Samples.sample_float
                         Samples.ledger_frame None _ eq_refl eq_refl))
           [Some "2024-01-02"; Some "Opening"; Some "  "; None]
           (or_intror (or_introl eq_refl)) eq_refl eq_refl eq_refl).
Defined.

End TableFacts.

(** * Facts about io_utils.py: what the removal of transfers leaves *)

Module RemovalFacts.
Import PyStr Re Pandas Py IoUtils TransferTerms RemovalTerms TransferFacts.

Lemma map_snd_filter_sublist {A B} (f : A * B -> bool) (l : list (A * B)) :
  sublist (map snd (filter f l)) (map snd l).
Proof.
  induction l as [|x l IH]; simpl; [constructor|].
  destruct (f x); simpl; [now apply sublist_skip|now apply sublist_cons].
Qed.

Lemma filter_absorb {A} (f g : A -> bool) (l : list A) :
  (forall x, In x l -> g x = true -> f x = true) ->
  filter g (filter f l) = filter g l.
Proof.
  induction l as [|x l IH]; intro H; [reflexivity|].
  simpl. destruct (f x) eqn:Ef; simpl.
  - destruct (g x); rewrite IH; auto; intros; apply H; simpl; auto.
  - destruct (g x) eqn:Eg.
    + rewrite (H x) in Ef by (simpl; auto). discriminate Ef.
    + apply IH. intros; apply H; simpl; auto.
Qed.

Lemma kept_index (df : list Transaction) (i : nat) (t : Transaction) :
  In (i, t) (kept df) <-> nth_error df i = Some t /\ is_label t = false.
Proof.
  unfold kept. rewrite filter_In. simpl.
  rewrite enumerate_In, negb_true_iff. tauto.
Qed.

(** A row the loop drops is one it can pair. *)
Lemma dropped_pairable (df : list Transaction) (tolerance_days : Z) (i : nat)
  (t : Transaction) :
  i ∈ dropped df tolerance_days -> nth_error df i = Some t ->
  is_label t = false /\ pairable t = true.
Proof.
  intros Hi Ht. apply dropped_taken in Hi. destruct Hi as [p [Hp Hi]].
  apply taken_from_incl, visited_pair_rows in Hp.
  destruct Hp as [tp [tn [dp [dn R]]]]. unfold pairable.
  destruct Hi as [<-|<-].
  - rewrite (pos_row _ _ _ _ _ _ _ R) in Ht. injection Ht as <-.
    rewrite (pos_kept _ _ _ _ _ _ _ R), (pos_flagged _ _ _ _ _ _ _ R),
      (pos_sign _ _ _ _ _ _ _ R), (pos_date _ _ _ _ _ _ _ R). auto.
  - rewrite (neg_row _ _ _ _ _ _ _ R) in Ht. injection Ht as <-.
    rewrite (neg_kept _ _ _ _ _ _ _ R), (neg_flagged _ _ _ _ _ _ _ R),
      (neg_sign _ _ _ _ _ _ _ R), (neg_date _ _ _ _ _ _ _ R).
    now rewrite orb_true_r.
Qed.

Lemma without_labels_sublist (df : list Transaction) :
  sublist (without_labels df) df.
Proof.
  unfold without_labels. induction df as [|t df IH]; simpl; [constructor|].
  destruct (negb (is_label t)); [now apply sublist_skip|now apply sublist_cons].
Qed.

Lemma removed_sublist (df : list Transaction) (tolerance_days : Z) :
  sublist (remove_internal_transfers df tolerance_days) df.
Proof.
  rewrite remove_internal_transfers_eq.
  etransitivity; [apply map_snd_filter_sublist|].
  rewrite kept_rows. apply without_labels_sublist.
Qed.

Lemma removed_no_label (df : list Transaction) (tolerance_days : Z) :
  Forall (fun t => is_label t = false)
    (remove_internal_transfers df tolerance_days).
Proof.
  rewrite remove_internal_transfers_eq.
  apply Forall_forall. intros t Ht.
  apply in_map_iff in Ht. destruct Ht as [[i t'] [<- Ht]].
  apply filter_In in Ht. destruct Ht as [Ht _].
  apply kept_index in Ht. tauto.
Qed.

(** X8.  [remove_internal_transfers] only removes rows: what it returns is
    the input with some rows left out, in the input order; no labelled row
    is left; and the rows that bear no fixed label and that the loop
    cannot pair (no transfer keyword, or a zero or null amount, or no date)
    are all still there, as many and in the same order. *)
Theorem remove_internal_transfers_sublist (df : list Transaction)
  (tolerance_days : Z) :
  sublist (remove_internal_transfers df tolerance_days) df
  /\ Forall (fun t => is_label t = false)
       (remove_internal_transfers df tolerance_days)
  /\ filter untouchable (remove_internal_transfers df tolerance_days)
     = filter untouchable df.
Proof.
  split; [apply removed_sublist|split; [apply removed_no_label|]].
  rewrite remove_internal_transfers_eq.
  rewrite filter_map_comm, filter_absorb.
  - rewrite <- filter_map_comm, kept_rows. unfold without_labels.
    apply filter_absorb. intros t _ H. unfold untouchable in H.
    apply andb_true_iff in H. tauto.
  - intros [i t] Hx Hu. simpl in *. apply negb_true_iff.
    apply bool_decide_eq_false. intro Hi.
    apply kept_index in Hx. destruct Hx as [Ht _].
    destruct (dropped_pairable df tolerance_days i t Hi Ht) as [_ Hp].
    unfold untouchable in Hu. rewrite Hp, andb_false_r in Hu.
    discriminate Hu.
Qed.

(** ** The loop leaves no pair behind *)

Lemma taken_from_complete (pairs : list Pair) (used_pos used_neg : gset nat)
  (p : Pair) :
  In p pairs ->
  pair_index_pos p ∈ used_pos ∪ pos_set (taken_from pairs used_pos used_neg)
  \/ pair_index_neg p ∈ used_neg ∪ neg_set (taken_from pairs used_pos used_neg).
Proof.
  revert used_pos used_neg.
  induction pairs as [|q rest IH]; intros UP UN; simpl; [tauto|].
  destruct (bool_decide (pair_index_pos q ∈ UP)) eqn:E1;
    destruct (bool_decide (pair_index_neg q ∈ UN)) eqn:E2; simpl.
  - apply bool_decide_eq_true in E1.
    intros [<-|H]; [left; set_solver|now apply IH].
  - apply bool_decide_eq_true in E1.
    intros [<-|H]; [left; set_solver|now apply IH].
  - apply bool_decide_eq_true in E2.
    intros [<-|H]; [right; set_solver|now apply IH].
  - unfold pos_set, neg_set. simpl.
    intros [<-|H]; [left; set_solver|].
    destruct (IH ({[pair_index_pos q]} ∪ UP) ({[pair_index_neg q]} ∪ UN) H)
      as [H'|H']; [left|right]; unfold pos_set, neg_set in H'; set_solver.
Qed.

Lemma candidates_true (tolerance_days : Z) (p n : Transaction) :
  candidates tolerance_days p n = true ->
  is_label p = false /\ has_keyword p = true /\ is_positive p = true
  /\ is_label n = false /\ has_keyword n = true /\ is_negative n = true
  /\ key_eqb (rounded_abs p) (rounded_abs n) = true
  /\ diff_le (abs_diff (date p) (date n)) (Timedelta_days tolerance_days) = true.
Proof.
  unfold candidates. rewrite !andb_true_iff.
  intros [[[[[Hp Hn] Hpp] Hnn] Hk] Hd].
  apply flagged_true in Hp, Hn. tauto.
Qed.

(** Two rows of the table that can form a pair are visited as one. *)
Lemma visited_pairs_complete (df : list Transaction) (tolerance_days : Z)
  (i j : nat) (tp tn : Transaction) :
  nth_error df i = Some tp -> nth_error df j = Some tn ->
  candidates tolerance_days tp tn = true ->
  exists p, In p (visited_pairs df tolerance_days)
            /\ pair_index_pos p = i /\ pair_index_neg p = j.
Proof.
  intros Hi Hj Hc. apply candidates_true in Hc.
  destruct Hc as [Lp [Kp [Sp [Ln [Kn [Sn [Hk Hd]]]]]]].
  exists (set_date_diff (pair_of (i, tp) (j, tn))).
  split; [|split; reflexivity].
  apply visited_pairs_In. exists (pair_of (i, tp) (j, tn)).
  split; [|split; [reflexivity|exact Hd]].
  unfold enumerated_pairs. apply in_flat_map. exists (i, tp).
  split; [apply positives_In; simpl; tauto|].
  apply in_map. apply filter_In. split; [|exact Hk].
  apply negatives_In. simpl. tauto.
Qed.

Lemma removed_In (df : list Transaction) (tolerance_days : Z) (t : Transaction) :
  In t (remove_internal_transfers df tolerance_days) ->
  exists i, nth_error df i = Some t /\ i ∉ dropped df tolerance_days.
Proof.
  rewrite remove_internal_transfers_eq. intro H.
  apply in_map_iff in H. destruct H as [[i t'] [<- H]].
  apply filter_In in H. destruct H as [H Hd]. simpl in *.
  apply kept_index in H. apply negb_true_iff, bool_decide_eq_false in Hd.
  exists i. tauto.
Qed.

Lemma no_visited_no_drop (df : list Transaction) (tolerance_days : Z) :
  visited_pairs df tolerance_days = [] ->
  remove_internal_transfers df tolerance_days = without_labels df.
Proof.
  intro H. rewrite remove_internal_transfers_eq.
  unfold dropped. rewrite H. cbn [resolve].
  rewrite filter_all by reflexivity. apply kept_rows.
Qed.

(** X9.  Among the rows [remove_internal_transfers] returns, no flagged
    positive row and flagged negative row of equal rounded absolute
    amounts are dated within the tolerance: the loop leaves no pair
    behind.  Hence a second pass over the result changes nothing. *)
Theorem remove_internal_transfers_settled (df : list Transaction)
  (tolerance_days : Z) :
  (forall p n,
     In p (remove_internal_transfers df tolerance_days) ->
     In n (remove_internal_transfers df tolerance_days) ->
     candidates tolerance_days p n = false)
  /\ remove_internal_transfers
       (remove_internal_transfers df tolerance_days) tolerance_days
     = remove_internal_transfers df tolerance_days.
Proof.
  assert (forall p n,
            In p (remove_internal_transfers df tolerance_days) ->
            In n (remove_internal_transfers df tolerance_days) ->
            candidates tolerance_days p n = false) as Hnone.
  { intros p n Hp Hn. apply not_true_is_false. intro Hc.
    apply removed_In in Hp, Hn.
    destruct Hp as [i [Hi Di]], Hn as [j [Hj Dj]].
    destruct (visited_pairs_complete df tolerance_days i j p n Hi Hj Hc)
      as [q [Hq [<- <-]]].
    pose proof (taken_from_complete _ ∅ ∅ q Hq) as Ht.
    unfold dropped in Di, Dj. rewrite resolve_taken in Di, Dj.
    set_solver. }
  split; [exact Hnone|].
  set (out := remove_internal_transfers df tolerance_days) in *.
  rewrite no_visited_no_drop.
  - apply filter_all. intros t Ht. apply negb_true_iff.
    pose proof (removed_no_label df tolerance_days) as Hl.
    rewrite Forall_forall in Hl. now apply Hl.
  - destruct (visited_pairs out tolerance_days) as [|q qs] eqn:E;
      [reflexivity|exfalso].
    assert (In q (visited_pairs out tolerance_days)) as Hq
      by (rewrite E; now left).
    apply visited_pair_rows in Hq.
    destruct Hq as [tp [tn [dp [dn R]]]].
    assert (candidates tolerance_days tp tn = true) as Hc.
    { unfold candidates, flagged, diff_le, abs_diff.
      rewrite (pos_kept _ _ _ _ _ _ _ R), (neg_kept _ _ _ _ _ _ _ R),
        (pos_flagged _ _ _ _ _ _ _ R), (neg_flagged _ _ _ _ _ _ _ R),
        (pos_sign _ _ _ _ _ _ _ R), (neg_sign _ _ _ _ _ _ _ R),
        (same_cents _ _ _ _ _ _ _ R), (pos_date _ _ _ _ _ _ _ R),
        (neg_date _ _ _ _ _ _ _ R).
      simpl. apply Z.leb_le. exact (within_tolerance _ _ _ _ _ _ _ R). }
    rewrite (Hnone tp tn) in Hc; [discriminate Hc| |].
    + exact (nth_error_In _ _ (pos_row _ _ _ _ _ _ _ R)).
    + exact (nth_error_In _ _ (neg_row _ _ _ _ _ _ _ R)).
Qed.

(** ** Counting *)

Lemma NoDup_map_fst_filter {A B} (f : A * B -> bool) (l : list (A * B)) :
  NoDup (map fst l) -> NoDup (map fst (filter f l)).
Proof.
  induction l as [|x l IH]; simpl; [auto|].
  intro H. inversion H as [|? ? Hx Hl]; subst.
  destruct (f x); simpl; [|auto].
  constructor; [|auto].
  intro Hin. apply Hx. apply in_map_iff in Hin.
  destruct Hin as [y [Hy Hin]]. apply filter_In in Hin.
  apply in_map_iff. exists y. tauto.
Qed.

Lemma map_fst_enumerate (df : list Transaction) :
  map fst (enumerate df) = seq 0 (List.length df).
Proof.
  unfold enumerate. generalize 0.
  induction df as [|t df IH]; intro k; simpl; [reflexivity|].
  now rewrite IH.
Qed.

Lemma kept_NoDup (df : list Transaction) : NoDup (map fst (kept df)).
Proof.
  unfold kept. apply NoDup_map_fst_filter.
  rewrite map_fst_enumerate. apply seq_NoDup.
Qed.

(** X10.  The rows the loop removes go two by two: the table returned,
    with two rows for each pair taken, is as long as the input without its
    labelled rows. *)
Theorem remove_internal_transfers_pairs_count (df : list Transaction)
  (tolerance_days : Z) :
  List.length (remove_internal_transfers df tolerance_days)
  + 2 * List.length (taken (visited_pairs df tolerance_days))
  = List.length (without_labels df).
Proof.
  set (T := taken (visited_pairs df tolerance_days)).
  set (D := dropped df tolerance_days).
  rewrite remove_internal_transfers_eq, length_map. fold D.
  rewrite <- kept_rows, length_map.
  rewrite <- (filter_length (fun x => negb (bool_decide (fst x ∈ D))) (kept df)).
  f_equal.
  rewrite (filter_ext (fun x => negb (negb (bool_decide (fst x ∈ D))))
             (fun x => bool_decide (fst x ∈ D)))
    by (intro x; apply negb_involutive).
  rewrite <- (length_map fst).
  assert (Permutation
            (map fst (filter (fun x => bool_decide (fst x ∈ D)) (kept df)))
            (map pair_index_pos T ++ map pair_index_neg T)) as HP.
  { apply Permutation.NoDup_Permutation.
    - apply NoDup_map_fst_filter, kept_NoDup.
    - apply taken_rows_NoDup.
    - intro i. rewrite in_map_iff, in_app_iff, !in_map_iff. split.
      + intros [[i' t] [<- H]]. apply filter_In in H. destruct H as [_ H].
        apply bool_decide_eq_true in H. simpl in *.
        apply dropped_taken in H. destruct H as [p [Hp [H|H]]]; eauto.
      + intro H.
        assert (i ∈ D) as Hi.
        { apply dropped_taken. destruct H as [[p [H Hp]]|[p [H Hp]]]; eauto. }
        assert (exists p, In p (visited_pairs df tolerance_days)
                          /\ (pair_index_pos p = i \/ pair_index_neg p = i))
          as [p [Hp Hpi]].
        { destruct H as [[p [H Hp]]|[p [H Hp]]];
            apply taken_from_incl in Hp; eauto. }
        apply visited_pair_rows in Hp. destruct Hp as [tp [tn [dp [dn R]]]].
        destruct Hpi as [<-|<-].
        * exists (pair_index_pos p, tp). split; [reflexivity|].
          apply filter_In. split.
          -- apply kept_index. split; [apply R|apply R].
          -- now apply bool_decide_eq_true.
        * exists (pair_index_neg p, tn). split; [reflexivity|].
          apply filter_In. split.
          -- apply kept_index. split; [apply R|apply R].
          -- now apply bool_decide_eq_true. }
  rewrite (Permutation_length HP), length_app, !length_map. lia.
Qed.

(** X12.  With a negative tolerance no pair qualifies, and
    [remove_internal_transfers] only drops the labelled rows. *)
Theorem remove_internal_transfers_negative_tolerance (df : list Transaction)
  (tolerance_days : Z) :
  (tolerance_days < 0)%Z ->
  visited_pairs df tolerance_days = []
  /\ remove_internal_transfers df tolerance_days = without_labels df.
Proof.
  intro Hneg.
  assert (visited_pairs df tolerance_days = []) as E.
  { destruct (visited_pairs df tolerance_days) as [|q qs] eqn:E;
      [reflexivity|exfalso].
    assert (In q (visited_pairs df tolerance_days)) as Hq
      by (rewrite E; now left).
    apply visited_pair_rows in Hq. destruct Hq as [tp [tn [dp [dn R]]]].
    pose proof (within_tolerance _ _ _ _ _ _ _ R) as Hw.
    unfold nanoseconds_per_day in Hw. lia. }
  split; [exact E|now apply no_visited_no_drop].
Qed.

Lemma remove_internal_transfers_negative_tolerance_witness :
  remove_internal_transfers
    [Samples.transfer_out; Samples.transfer_in_next_day] (-1)
  = [Samples.transfer_out; Samples.transfer_in_next_day].
Proof.
  exact (proj2 (remove_internal_transfers_negative_tolerance
                  [Samples.transfer_out; Samples.transfer_in_next_day] (-1)
                  eq_refl)).
Defined.

End RemovalFacts.

(** * Facts about io_utils.py: loading several files *)

Module LoadFacts.
Import PyStr Re Pandas Py IoUtils ReadTerms TransferTerms RemovalTerms Ingest.
Import TableTerms.

Lemma mapM_ext {A B} (f g : A -> result B) (l : list A) :
  (forall a, In a l -> f a = g a) -> Classify.mapM f l = Classify.mapM g l.
Proof.
  induction l as [|a l IH]; intro H; [reflexivity|].
  simpl. rewrite (H a) by now left.
  rewrite IH by (intros; apply H; now right). reflexivity.
Qed.

Lemma mapM_ok {A B} (f : A -> result B) (l : list A) (out : list B) :
  Classify.mapM f l = Ok out <-> Forall2 (fun a b => f a = Ok b) l out.
Proof.
  split; [apply ClassifyFacts.mapM_Forall2|].
  induction 1 as [|a b l out Hab _ IH]; [reflexivity|].
  simpl. now rewrite Hab, IH.
Qed.

Lemma mapM_raise {A B} (f : A -> result B) (l : list A) (e : exn) :
  Classify.mapM f l = Raise e
  <-> exists before a after,
        l = before ++ a :: after
        /\ Forall (fun x => is_ok (f x) = true) before
        /\ f a = Raise e.
Proof.
  induction l as [|x l IH]; simpl.
  - split; [discriminate|].
    intros [before [a [after [H _]]]]. destruct before; discriminate H.
  - destruct (f x) as [b|e'] eqn:E; cbn [bind].
    + destruct (Classify.mapM f l) as [bs|e''] eqn:El; cbn [bind].
      * split; [discriminate|].
        intros [before [a [after [H [Hb Ha]]]]].
        destruct before as [|y before]; simpl in H; injection H as -> ->.
        -- congruence.
        -- inversion Hb; subst.
           assert (@Ok (list B) bs = Raise e) as Hf; [|discriminate Hf].
           apply IH. exists before, a, after. auto.
      * split.
        -- intros [= ->]. destruct (proj1 IH eq_refl)
             as [before [a [after [-> [Hb Ha]]]]].
           exists (x :: before), a, after.
           split; [reflexivity|]. split; [|exact Ha].
           constructor; [now rewrite E|exact Hb].
        -- intros [before [a [after [H [Hb Ha]]]]].
           destruct before as [|y before]; simpl in H; injection H as -> ->.
           ++ congruence.
           ++ inversion Hb; subst. f_equal.
              assert (@Raise (list B) e'' = Raise e) as Hf; [|congruence].
              apply IH. exists before, a, after. auto.
    + split.
      * intros [= ->]. exists [], x, l. auto.
      * intros [before [a [after [H [Hb Ha]]]]].
        destruct before as [|y before]; simpl in H; injection H as -> ->.
        -- congruence.
        -- inversion Hb as [|? ? Hy _]; subst. rewrite E in Hy. discriminate Hy.
Qed.

Section Load.
Variable parse_datetime : string -> option Z.
Variable float : string -> option Q.

Abbreviation read := (read_scotiabank_csv parse_datetime float).
Abbreviation load := (load_and_normalize_files parse_datetime float).

Lemma load_unfold (file_payloads : list (string * CsvFrame)) :
  load file_payloads
  = bind (Classify.mapM (fun p => read (snd p) (Some (fst p))) file_payloads)
      (fun frames => Ok (remove_internal_transfers (List.concat frames) 2)).
Proof.
  unfold load_and_normalize_files.
  rewrite (mapM_ext _ (fun p => read (snd p) (Some (fst p))))
    by (intros [n c] _; reflexivity).
  destruct (Classify.mapM _ file_payloads) as [[|frame frames]|e]; reflexivity.
Qed.

(** X13.  The table [load_and_normalize_files] returns is made of the
    tables read from the files, one per file and in the order of the files:
    its rows are rows of these tables put one after the other, in that
    order and none more than once, so there are no more of them than rows
    in the files' tables.  No file gives the empty table. *)
Theorem load_and_normalize_files_order
  (file_payloads : list (string * CsvFrame)) (out : list Transaction) :
  load file_payloads = Ok out ->
  (exists frames,
     Forall2 (fun p frame => read (snd p) (Some (fst p)) = Ok frame)
       file_payloads frames
     /\ sublist out (List.concat frames)
     /\ List.length out <= list_sum (map (@List.length Transaction) frames))
  /\ (file_payloads = [] -> out = []).
Proof.
  rewrite load_unfold.
  destruct (Classify.mapM _ file_payloads) as [frames|e] eqn:E;
    cbn [bind]; [|discriminate].
  intros [= <-]. apply mapM_ok in E.
  pose proof (RemovalFacts.removed_sublist (List.concat frames) 2) as Hsub.
  split.
  - exists frames. split; [exact E|]. split; [exact Hsub|].
    apply sublist_length in Hsub.
    etransitivity; [exact Hsub|].
    clear. induction frames as [|f fs IH]; [reflexivity|].
    cbn [List.concat map]. rewrite length_app.
    unfold list_sum in *. cbn [fold_right]. lia.
  - intros ->. inversion E; subst. reflexivity.
Qed.

(** X14.  Every row of the table [load_and_normalize_files] returns is a
    row of the table read from one of the files, with the account name
    inferred for that file, and bears no fixed label; nothing is added and
    no row is altered. *)
Theorem load_and_normalize_files_rows
  (file_payloads : list (string * CsvFrame)) (out : list Transaction) :
  load file_payloads = Ok out ->
  Forall
    (fun t =>
       is_label t = false
       /\ exists p frame,
            In p file_payloads
            /\ read (snd p) (Some (fst p)) = Ok frame
            /\ In t frame
            /\ account_name t
               = infer_account_name (Some (fst p)) (account_series (snd p)))
    out.
Proof.
  rewrite load_unfold.
  destruct (Classify.mapM _ file_payloads) as [frames|e] eqn:E;
    cbn [bind]; [|discriminate].
  intros [= <-]. apply mapM_ok in E.
  pose proof (RemovalFacts.removed_sublist (List.concat frames) 2) as Hsub.
  pose proof (RemovalFacts.removed_no_label (List.concat frames) 2) as Hlab.
  apply Forall_forall. intros t Ht.
  split; [rewrite Forall_forall in Hlab; now apply Hlab|].
  assert (In t (List.concat frames)) as Hin.
  { apply list_elem_of_In. apply (elem_of_sublist _ _ _ (proj2 (list_elem_of_In _ _) Ht) Hsub). }
  apply in_concat in Hin. destruct Hin as [frame [Hframe Hin]].
  clear -E Hframe Hin.
  induction E as [|p f ps fs Hp _ IH]; [contradiction|].
  destruct Hframe as [->|Hframe].
  - exists p, frame. split; [now left|]. split; [exact Hp|].
    split; [exact Hin|].
    pose proof (TableFacts.read_account _ _ _ _ _ Hp) as Ha.
    rewrite Forall_forall in Ha. now apply Ha.
  - destruct (IH Hframe) as [q [g [Hq H]]]. exists q, g.
    split; [now right|exact H].
Qed.

End Load.

Lemma load_and_normalize_files_order_witness :
  exists out,
    load_and_normalize_files Samples.sample_datetime Samples.sample_float
      [("statement.csv", Samples.two_account_frame);
       ("ledger.csv", Samples.ledger_frame)] = Ok out
    /\ List.length out <= 4.
Proof.
  eexists. split; [vm_compute; reflexivity|].
  destruct (proj1 (load_and_normalize_files_order
                     Samples.sample_datetime Samples.sample_float
                     [("statement.csv", Samples.two_account_frame);
                      ("ledger.csv", Samples.ledger_frame)] _ eq_refl))
    as [frames [HF [_ Hlen]]].
  inversion HF as [|? f1 ? fs1 H1 HF1]; subst.
  inversion HF1 as [|? f2 ? fs2 H2 HF2]; subst.
  inversion HF2; subst.
  vm_compute in H1. injection H1 as <-.
  vm_compute in H2. injection H2 as <-.
  exact Hlen.
Defined.

Lemma load_and_normalize_files_rows_witness :
  exists out,
    load_and_normalize_files Samples.sample_datetime Samples.sample_float
      [("statement.csv", Samples.two_account_frame)] = Ok out
    /\ List.length out = 2
    /\ Forall (fun t => is_label t = false) out.
Proof.
  eexists. split; [vm_compute; reflexivity|]. split; [reflexivity|].
  pose proof (load_and_normalize_files_rows
                Samples.sample_datetime Samples.sample_float
                [("statement.csv", Samples.two_account_frame)] _ eq_refl) as H.
  revert H. apply Forall_impl. tauto.
Defined.

End LoadFacts.

(** * Facts about classify.py: normalization and the lookups *)

Module LookupFacts.
Import PyStr Re Pandas Py Classify ClassifyTerms LabelTerms.
Import StringTerms StringFacts ClassifyFacts.

Lemma normalize_squeeze (text : string) :
  normalize text = strip (squeeze (lower text)).
Proof. unfold normalize. now rewrite sub_spaces. Qed.

Lemma lower_normalize (text : string) :
  lower (normalize text) = normalize text.
Proof.
  rewrite normalize_squeeze.
  now rewrite lower_strip, lower_squeeze, CleaningFacts.lower_idempotent.
Qed.

Lemma strip_normalize (text : string) :
  strip (normalize text) = normalize text.
Proof. rewrite normalize_squeeze. apply strip_idempotent. Qed.

Lemma squeeze_normalize (text : string) :
  squeeze (normalize text) = normalize text.
Proof.
  rewrite normalize_squeeze. now rewrite squeeze_strip, squeeze_idempotent.
Qed.

Lemma normalize_lower (text : string) :
  normalize (lower text) = normalize text.
Proof.
  rewrite !normalize_squeeze. now rewrite CleaningFacts.lower_idempotent.
Qed.

Lemma normalize_strip (text : string) :
  normalize (strip text) = normalize text.
Proof.
  rewrite !normalize_squeeze.
  now rewrite lower_strip, squeeze_strip, strip_idempotent.
Qed.

Lemma normalize_sub_spaces (text : string) :
  normalize (Re.sub spaces " " text) = normalize text.
Proof.
  rewrite !normalize_squeeze, sub_spaces.
  now rewrite lower_squeeze, squeeze_idempotent.
Qed.

Lemma normalize_normalize (text : string) :
  normalize (normalize text) = normalize text.
Proof.
  rewrite (normalize_squeeze (normalize text)).
  now rewrite lower_normalize, squeeze_normalize, strip_normalize.
Qed.

(** X15.  [normalize] is idempotent: its result is in lower case, has no
    blank at either end and no run of white space other than single
    blanks, so normalizing it again, or applying any of the three steps to
    it, changes nothing; and text that differs only in case or in the
    white space around it normalizes alike. *)
Theorem normalize_idempotent (text : string) :
  normalize (normalize text) = normalize text
  /\ lower (normalize text) = normalize text
  /\ strip (normalize text) = normalize text
  /\ Re.sub spaces " " (normalize text) = normalize text
  /\ normalize (lower text) = normalize text
  /\ normalize (strip text) = normalize text
  /\ normalize (Re.sub spaces " " text) = normalize text.
Proof.
  split; [apply normalize_normalize|].
  split; [apply lower_normalize|].
  split; [apply strip_normalize|].
  split; [rewrite sub_spaces; apply squeeze_normalize|].
  split; [apply normalize_lower|].
  split; [apply normalize_strip|apply normalize_sub_spaces].
Qed.

(** ** The keyword table *)

Lemma occurs_left (a b hay : string) :
  occurs (String.append a b) hay -> occurs a hay.
Proof.
  intros [x [y H]]. exists x, (String.append b y).
  rewrite H. now rewrite (StringFacts.append_assoc a b y).
Qed.

Lemma contains_left (a b hay : string) :
  contains (String.append a b) hay = true -> contains a hay = true.
Proof. rewrite !contains_spec. apply occurs_left. Qed.

Lemma lookup_delivery (description : string) (mapping : string * string) :
  deterministic_lookup description = Some mapping ->
  is_delivery mapping = false.
Proof.
  unfold deterministic_lookup, DETERMINISTIC_KEYWORDS. cbn [lookup_keyword].
  repeat match goal with
         | |- context [if contains ?k description then _ else _] =>
             destruct (contains k description) eqn:?;
             [try (intros [= <-]; reflexivity)|]
         end; [|discriminate].
  exfalso.
  match goal with
  | H : contains "uber eats" description = true |- _ =>
      apply (contains_left "uber" " eats") in H
  end.
  congruence.
Qed.

(** X16.  [deterministic_lookup] never answers (Food & Drink, Delivery),
    the mapping its table gives for ["uber eats"]: the keyword ["uber"]
    stands earlier in the table and occurs wherever ["uber eats"] does.  A
    description that mentions uber eats gets the mapping of ["uber"], or
    that of a keyword listed before it. *)
Theorem deterministic_lookup_uber_eats :
  (forall description mapping,
     deterministic_lookup description = Some mapping ->
     is_delivery mapping = false)
  /\ (forall description,
        occurs "uber eats" description ->
        exists before keyword mapping after,
          DETERMINISTIC_KEYWORDS = before ++ (keyword, mapping) :: after
          /\ deterministic_lookup description = Some mapping
          /\ occurs keyword description
          /\ List.length before <= 22
          /\ is_delivery mapping = false)
  /\ nth_error DETERMINISTIC_KEYWORDS 22
     = Some ("uber", ("Transport", "Ride Share"))
  /\ nth_error DETERMINISTIC_KEYWORDS 43
     = Some ("uber eats", ("Food & Drink", "Delivery"))
  /\ deterministic_lookup "uber eats" = Some ("Transport", "Ride Share").
Proof.
  split; [exact lookup_delivery|].
  split; [|repeat split].
  intros d H. apply (occurs_left "uber" " eats") in H.
  destruct (lookup_keyword_at_most (firstn 22 DETERMINISTIC_KEYWORDS)
              (skipn 23 DETERMINISTIC_KEYWORDS) "uber"
              ("Transport", "Ride Share") d H)
    as [before [keyword [mapping [after [H1 [H2 [H3 H4]]]]]]].
  exists before, keyword, mapping, after.
  split; [exact H1|]. split; [exact H2|]. split; [exact H3|].
  split; [exact H4|]. exact (lookup_delivery d mapping H2).
Qed.

(** ** Classification *)

Section Rows.
Variable get_close_matches : string -> list string -> nat -> Q -> list string.

Abbreviation fuzzy := (fuzzy_lookup get_close_matches).
Abbreviation locally_unresolved :=
  (LabelTerms.locally_unresolved get_close_matches).

Lemma classify_row_same (use_api : bool)
  (url1 key1 url2 key2 : option string) (open1 open2 : string -> outcome)
  (r : Row) :
  (use_api = true -> locally_unresolved r ->
   _call_enrichment_api url1 key1 open1 (normalize (description r))
   = _call_enrichment_api url2 key2 open2 (normalize (description r))) ->
  classify_row get_close_matches url1 key1 open1 use_api r
  = classify_row get_close_matches url2 key2 open2 use_api r.
Proof.
  unfold classify_row, LabelTerms.locally_unresolved. cbv zeta. intro H.
  destruct (deterministic_lookup (normalize (description r)));
    cbn [option_map bind]; [reflexivity|].
  destruct (fuzzy (normalize (description r))) as [[m|]|e];
    cbn [option_map bind]; try reflexivity.
  destruct use_api; [|reflexivity].
  now rewrite H.
Qed.

(** X17.  The endpoint only counts for the rows that the keyword table and
    the fuzzy lookup both leave open: with [use_api] off the result of
    [classify_transactions] does not depend on the URL, the key or the
    endpoint at all, and with [use_api] on two configurations that answer
    alike on the descriptions of the locally unresolved rows classify the
    table alike. *)
Theorem classify_transactions_local (df : DataFrame)
  (url1 key1 url2 key2 : option string) (open1 open2 : string -> outcome) :
  classify_transactions get_close_matches url1 key1 open1 df false
  = classify_transactions get_close_matches url2 key2 open2 df false
  /\ ((forall r, In r (rows df) -> locally_unresolved r ->
         _call_enrichment_api url1 key1 open1 (normalize (description r))
         = _call_enrichment_api url2 key2 open2 (normalize (description r))) ->
      classify_transactions get_close_matches url1 key1 open1 df true
      = classify_transactions get_close_matches url2 key2 open2 df true).
Proof.
  rewrite !classify_unfold.
  destruct (empty df); [split; reflexivity|].
  split.
  - apply LoadFacts.mapM_ext. intros r _. apply classify_row_same. discriminate.
  - intro H. apply LoadFacts.mapM_ext. intros r Hr.
    apply classify_row_same. intros _ Hu.
    unfold classified_rows in Hr.
    destruct (negb (existsb (String.eqb "class") (columns df))).
    + apply in_map_iff in Hr. destruct Hr as [r' [<- Hr]].
      apply (H r' Hr). exact Hu.
    + now apply H.
Qed.

Section Endpoint.
Variable API_URL : option string.
Variable API_KEY : option string.
Variable urlopen : string -> outcome.

Abbreviation classify_one :=
  (classify_row get_close_matches API_URL API_KEY urlopen).
Abbreviation classify :=
  (classify_transactions get_close_matches API_URL API_KEY urlopen).

(** X18.  The class, the amount and the description up to case and white
    space are all that counts: two rows of one class whose descriptions
    normalize alike get the same labels, so a row keeps its labels when
    its description is put in lower case, stripped, squeezed or
    normalized. *)
Theorem classify_row_case_insensitive (use_api : bool) (r r' : Row) :
  (class_ r = class_ r' ->
   normalize (description r) = normalize (description r') ->
   labels (classify_one use_api r) = labels (classify_one use_api r'))
  /\ (forall f,
        In f [lower; strip; Re.sub spaces " "; normalize] ->
        labels (classify_one use_api
                  (mkRow (f (description r)) (amount r) (class_ r)))
        = labels (classify_one use_api r)).
Proof.
  assert (forall a b,
            class_ a = class_ b ->
            normalize (description a) = normalize (description b) ->
            labels (classify_one use_api a) = labels (classify_one use_api b))
    as Hsame.
  { intros a b Hc Hd. unfold classify_row. cbv zeta. rewrite Hd, Hc.
    destruct (deterministic_lookup (normalize (description b)));
      cbn [option_map bind labels]; [reflexivity|].
    destruct (fuzzy (normalize (description b))) as [[m|]|e];
      cbn [option_map bind labels]; try reflexivity.
    destruct use_api;
      [destruct (_call_enrichment_api _ _ _ _) as [[m|]|e]|];
      cbn [bind labels];
      first [reflexivity|destruct (default_mapping (class_ b)); reflexivity]. }
  split; [apply Hsame|].
  intros f Hf. apply Hsame; [reflexivity|]. cbn [description].
  simpl in Hf. destruct Hf as [<-|[<-|[<-|[<-|[]]]]].
  - apply normalize_lower.
  - apply normalize_strip.
  - apply normalize_sub_spaces.
  - apply normalize_normalize.
Qed.

(** X19.  When a row that neither local lookup resolves reaches the
    endpoint and the endpoint answers, with a status below 400, a body
    that is valid JSON but not an object, [_call_enrichment_api] raises
    [AttributeError], which its [except] clause does not catch:
    [classify_transactions] with [use_api] on then returns no table, for
    any table with columns that holds the row. *)
Theorem classify_transactions_aborts (df : DataFrame) (r : Row)
  (status : Z) (data : json) :
  truthy API_URL = true -> truthy API_KEY = true ->
  locally_unresolved r ->
  urlopen (normalize (description r)) = Response status (BodyJson data) ->
  (status < 400)%Z ->
  (forall fields, data <> JObj fields) ->
  classify_one true r = Raise AttributeError
  /\ (In r (rows df) -> columns df <> [] ->
      is_ok (classify df true) = false).
Proof.
  intros Hu Hk [Hd Hf] Ho Hs Hdata.
  pose proof (proj1 (call_enrichment_api_propagates
                       API_URL API_KEY urlopen (normalize (description r))
                       Hu Hk) status data Ho Hs Hdata) as Hcall.
  assert (forall c, classify_one true (mkRow (description r) (amount r) c)
                    = Raise AttributeError) as Hrow.
  { intro c. unfold classify_row. cbv zeta. cbn [description].
    rewrite Hd. cbn [option_map bind]. rewrite Hf. cbn [option_map bind].
    now rewrite Hcall. }
  split; [destruct r; apply Hrow|].
  intros Hin Hcols. rewrite classify_unfold.
  assert (empty df = false) as ->.
  { unfold empty. destruct (rows df); [contradiction|].
    destruct (columns df); [contradiction|reflexivity]. }
  assert (exists c, In (mkRow (description r) (amount r) c)
                      (classified_rows df))
    as [c Hc].
  { unfold classified_rows. destruct (negb _).
    - eexists. apply in_map_iff. exists r. split; [reflexivity|exact Hin].
    - exists (class_ r). now destruct r. }
  revert Hc. generalize (classified_rows df).
  induction l as [|x l IH]; [contradiction|].
  intros [->|Hc]; simpl.
  - now rewrite Hrow.
  - destruct (classify_one true x); [|reflexivity]. cbn [bind].
    specialize (IH Hc). destruct (mapM _ l); [discriminate IH|reflexivity].
Qed.

(** X20.  With [use_api] off, [classify_transactions] returns a table,
    with one row per input row, as soon as [get_close_matches] only
    proposes words among the possibilities it is given, as difflib does;
    and when the URL or the key of the endpoint is not set, turning
    [use_api] on changes nothing. *)
Theorem classify_transactions_offline (df : DataFrame) :
  (forall word possibilities n cutoff,
     incl (get_close_matches word possibilities n cutoff) possibilities) ->
  (exists out,
     classify df false = Ok out
     /\ List.length out = List.length (rows df))
  /\ (truthy API_URL = false \/ truthy API_KEY = false ->
      classify df true = classify df false).
Proof.
  intro Hclose. split.
  - destruct (classify_transactions_returns get_close_matches API_URL
                API_KEY urlopen df Hclose) as [out H].
    exists out. split; [exact H|].
    rewrite classify_unfold in H.
    destruct (empty df); [injection H as <-; apply length_map|].
    apply LoadFacts.mapM_ok in H. rewrite <- (Forall2_length H).
    apply classified_rows_length.
  - intro Hoff.
    assert (forall d, _call_enrichment_api API_URL API_KEY urlopen d
                      = Ok None) as Hcall.
    { intro d. unfold _call_enrichment_api.
      destruct Hoff as [-> | ->]; cbn [negb orb]; [reflexivity|].
      now rewrite orb_true_r. }
    rewrite !classify_unfold.
    destruct (empty df); [reflexivity|].
    apply LoadFacts.mapM_ext. intros r _.
    unfold classify_row. cbv zeta.
    destruct (deterministic_lookup (normalize (description r)));
      cbn [option_map bind]; [reflexivity|].
    destruct (fuzzy (normalize (description r))) as [[m|]|e];
      cbn [option_map bind]; try reflexivity.
    now rewrite Hcall.
Qed.

End Endpoint.
End Rows.

Lemma classify_transactions_aborts_witness :
  classify_row Samples.no_close_matches (Some "https://classify.example/api")
    (Some "key") Fixtures.array_endpoint true Fixtures.vet_row
  = Raise AttributeError
  /\ is_ok (classify_transactions Samples.no_close_matches
              (Some "https://classify.example/api") (Some "key")
              Fixtures.array_endpoint Samples.vet_table true) = false.
Proof.
  pose proof (classify_transactions_aborts Samples.no_close_matches
                (Some "https://classify.example/api") (Some "key")
                Fixtures.array_endpoint Samples.vet_table Fixtures.vet_row
                200%Z (JArr []) eq_refl eq_refl (conj eq_refl eq_refl)
                eq_refl eq_refl) as H.
  assert (forall fields, JArr [] <> JObj fields) as Hd by discriminate.
  destruct (H Hd) as [H1 H2].
  split; [exact H1|]. apply H2; [now left|discriminate].
Defined.

Lemma classify_transactions_offline_witness :
  exists out,
    classify_transactions Samples.no_close_matches None None
      Samples.failing_endpoint Samples.vet_table false = Ok out
    /\ List.length out = List.length (rows Samples.vet_table).
Proof.
  refine (proj1 (classify_transactions_offline Samples.no_close_matches
                   None None Samples.failing_endpoint Samples.vet_table _)).
  intros word possibilities n cutoff x H. destruct H.
Defined.

End LookupFacts.

(** * Facts about streamlit_app.py *)

Module AppFacts.
Import PyStr Pandas Py App AppTerms.

(** ** The date widgets *)

Lemma datetime_eqb_refl (d : datetime) : datetime_eqb d d = true.
Proof. unfold datetime_eqb. now rewrite !Z.eqb_refl. Qed.

Lemma slider_eqb_refl (s : option (datetime * datetime)) :
  slider_eqb s s = true.
Proof.
  destruct s as [[a b]|]; [|reflexivity]. simpl.
  now rewrite !datetime_eqb_refl.
Qed.


Lemma datetime_eqb_eq (a b : datetime) : datetime_eqb a b = true -> a = b.
Proof.
  unfold datetime_eqb. rewrite andb_true_iff, !Z.eqb_eq.
  destruct a, b. simpl. intros [-> ->]. reflexivity.
Qed.

Lemma slider_eqb_eq (a b : option (datetime * datetime)) :
  slider_eqb a b = true -> a = b.
Proof.
  destruct a as [[a1 a2]|], b as [[b1 b2]|]; simpl; try discriminate;
    [|reflexivity].
  rewrite andb_true_iff. intros [H1 H2].
  apply datetime_eqb_eq in H1, H2. now subst.
Qed.

Lemma tuple_eqb_eq (a b : list Z) : tuple_eqb a b = true -> a = b.
Proof.
  revert b. induction a as [|x a IH]; intros [|y b]; simpl;
    try discriminate; [reflexivity|].
  rewrite andb_true_iff, Z.eqb_eq. intros [-> H]. now rewrite (IH b H).
Qed.

Lemma picker_eqb_eq (a b : option (list Z)) : picker_eqb a b = true -> a = b.
Proof.
  destruct a as [a|], b as [b|]; simpl; try discriminate; [|reflexivity].
  intro H. now rewrite (tuple_eqb_eq a b H).
Qed.

Lemma set_date_slider_same (st : SessionState) (v : datetime * datetime) :
  date_slider st = Some v -> set_date_slider st v = st.
Proof. destruct st. simpl. intros ->. reflexivity. Qed.

Lemma set_date_picker_same (st : SessionState) (v : list Z) :
  date_picker st = Some v -> set_date_picker st v = st.
Proof. destruct st. simpl. intros ->. reflexivity. Qed.

(** The guards of the two callbacks only spare a write that would change
    nothing. *)
Lemma on_date_picker_change_eq (st : SessionState) (a b : Z) :
  date_picker st = Some [a; b] ->
  on_date_picker_change st
  = Ok (set_date_slider st
          (combine (Z.min a b) time_min, combine (Z.max a b) time_max)).
Proof.
  intro H. unfold on_date_picker_change. rewrite H.
  destruct (Z.ltb_spec b a) as [Hlt|Hge].
  - rewrite (Z.min_r a b), (Z.max_l a b) by lia.
    destruct (slider_eqb _ _) eqn:E; cbn [negb]; [|reflexivity].
    apply slider_eqb_eq in E. now rewrite set_date_slider_same.
  - rewrite (Z.min_l a b), (Z.max_r a b) by lia.
    destruct (slider_eqb _ _) eqn:E; cbn [negb]; [|reflexivity].
    apply slider_eqb_eq in E. now rewrite set_date_slider_same.
Qed.

Lemma on_slider_change_eq (st : SessionState) (s e : datetime) :
  date_slider st = Some (s, e) ->
  on_slider_change st = Ok (set_date_picker st [date_of s; date_of e]).
Proof.
  intro H. unfold on_slider_change. rewrite H. cbv zeta.
  destruct (picker_eqb _ _) eqn:E; cbn [negb]; [|reflexivity].
  apply picker_eqb_eq in E. now rewrite set_date_picker_same.
Qed.

(** X21.  The two callbacks bring the date widgets in step: when the
    picker holds two dates, after [on_date_picker_change] and then
    [on_slider_change] it holds the same two dates, in order, the slider
    runs from the first instant of the earlier to the last of the later,
    both callbacks leave that state as it is, and the filter selections
    are untouched.  [on_date_picker_change] raises [ValueError] when the
    picker holds a tuple of another length, as it does while a range is
    being chosen, and either callback raises [KeyError] when the entry it
    reads is not there. *)
Theorem date_widgets_agree (st : SessionState) :
  (forall a b,
     date_picker st = Some [a; b] ->
     exists st1 st2,
       on_date_picker_change st = Ok st1
       /\ on_slider_change st1 = Ok st2
       /\ date_picker st2 = Some [Z.min a b; Z.max a b]
       /\ date_slider st2
          = Some (combine (Z.min a b) time_min, combine (Z.max a b) time_max)
       /\ synced st2
       /\ on_date_picker_change st2 = Ok st2
       /\ on_slider_change st2 = Ok st2
       /\ (filter_class st2, filter_category st2, filter_sub_category st2,
           filter_account st2)
          = (filter_class st, filter_category st, filter_sub_category st,
             filter_account st))
  /\ (forall dates,
        date_picker st = Some dates -> List.length dates <> 2 ->
        exists msg, on_date_picker_change st = Raise (ValueError msg))
  /\ (date_picker st = None ->
      on_date_picker_change st = Raise (KeyError "date_picker"))
  /\ (date_slider st = None ->
      on_slider_change st = Raise (KeyError "date_slider")).
Proof.
  split; [|split; [|split]].
  - intros a b H.
    set (lo := Z.min a b). set (hi := Z.max a b).
    set (st1 := set_date_slider st (combine lo time_min, combine hi time_max)).
    set (st2 := set_date_picker st1 [lo; hi]).
    exists st1, st2.
    split; [now apply on_date_picker_change_eq|].
    split;
      [exact (on_slider_change_eq st1 (combine lo time_min)
                (combine hi time_max) eq_refl)|].
    split; [reflexivity|]. split; [reflexivity|].
    split; [exists lo, hi; repeat split; unfold lo, hi; lia|].
    split.
    + rewrite (on_date_picker_change_eq st2 lo hi) by reflexivity.
      rewrite Z.min_l, Z.max_r by (unfold lo, hi; lia). reflexivity.
    + split; [|reflexivity].
      now rewrite (on_slider_change_eq st2 _ _ eq_refl).
  - intros dates H Hn. unfold on_date_picker_change. rewrite H.
    destruct dates as [|x [|y [|z dates]]]; eauto.
    now destruct Hn.
  - intro H. unfold on_date_picker_change. now rewrite H.
  - intro H. unfold on_slider_change. now rewrite H.
Qed.

Lemma date_widgets_agree_witness :
  exists st1 st2,
    on_date_picker_change
      (mkSessionState (Some [19800; 19730]%Z) None None None None None)
    = Ok st1
    /\ on_slider_change st1 = Ok st2
    /\ date_picker st2 = Some [19730; 19800]%Z.
Proof.
  destruct (proj1 (date_widgets_agree
                     (mkSessionState (Some [19800; 19730]%Z) None None None
                        None None))
              19800%Z 19730%Z eq_refl)
    as [st1 [st2 [H1 [H2 [H3 _]]]]].
  exists st1, st2. auto.
Defined.

(** X22.  [set_full_period] puts the two date widgets in step on the
    whole period, as soon as the first date is not after the last, and
    both callbacks then leave the state as it is; [ensure_state_defaults]
    keeps the entries that are there and fills a state that has neither
    as [set_full_period] does. *)
Theorem set_full_period_synced (min_date max_date : Z) (st : SessionState) :
  (min_date <= max_date)%Z ->
  synced (set_full_period min_date max_date st)
  /\ on_date_picker_change (set_full_period min_date max_date st)
     = Ok (set_full_period min_date max_date st)
  /\ on_slider_change (set_full_period min_date max_date st)
     = Ok (set_full_period min_date max_date st)
  /\ (date_picker st = None -> date_slider st = None ->
      ensure_state_defaults min_date max_date st
      = set_full_period min_date max_date st)
  /\ (forall picker slider,
        date_picker st = Some picker -> date_slider st = Some slider ->
        ensure_state_defaults min_date max_date st = st).
Proof.
  intro H.
  assert (Timestamp_date min_date <= Timestamp_date max_date)%Z as Hd.
  { unfold Timestamp_date. apply Z.div_le_mono; [reflexivity|exact H]. }
  set (full := set_full_period min_date max_date st).
  split; [|split; [|split; [|split]]].
  - exists (Timestamp_date min_date), (Timestamp_date max_date).
    repeat split. exact Hd.
  - rewrite (on_date_picker_change_eq full _ _ eq_refl).
    rewrite Z.min_l, Z.max_r by exact Hd. reflexivity.
  - now rewrite (on_slider_change_eq full _ _ eq_refl).
  - intros Hp Hs. unfold ensure_state_defaults, full, set_full_period.
    cbv zeta. rewrite Hp. cbn [date_slider set_date_picker]. now rewrite Hs.
  - intros picker slider Hp Hs. unfold ensure_state_defaults. cbv zeta.
    now rewrite Hp, Hs.
Qed.

Lemma set_full_period_synced_witness :
  synced
    (set_full_period 1704153600000000000 1704412800000000000
       (mkSessionState None None None None None None)).
Proof.
  refine (proj1 (set_full_period_synced 1704153600000000000
                   1704412800000000000
                   (mkSessionState None None None None None None) _)).
  vm_compute. discriminate.
Defined.

(** ** The filters *)

Lemma filter_sublist {A} (f : A -> bool) (l : list A) : sublist (filter f l) l.
Proof.
  induction l as [|x l IH]; simpl; [constructor|].
  destruct (f x); [now apply sublist_skip|now apply sublist_cons].
Qed.

Lemma select_sublist (selected : option (list string))
  (column : Entry -> option string) (l : list Entry) :
  sublist (select selected column l) l.
Proof.
  unfold select. destruct selected as [[|v vs]|]; try reflexivity.
  apply filter_sublist.
Qed.

Lemma select_filter (selected : option (list string))
  (column : Entry -> option string) (l : list Entry) :
  select selected column l
  = filter (fun r => match selected with
                     | Some ((_ :: _) as values) => isin (column r) values
                     | _ => true
                     end) l.
Proof.
  unfold select. destruct selected as [[|v vs]|]; try reflexivity;
    symmetry; now apply TransferFacts.filter_all.
Qed.

Lemma filter_filter_comm {A} (f g : A -> bool) (l : list A) :
  filter f (filter g l) = filter (fun x => g x && f x) l.
Proof.
  induction l as [|x l IH]; [reflexivity|].
  simpl. destruct (g x); simpl; [|exact IH].
  destruct (f x); now rewrite IH.
Qed.

(** X23.  [filter_dataset] keeps the rows dated within the slider's range
    (so none without a date) whose class, category, sub-category and
    account are among those selected, in the order of the table; a
    selection that is missing or empty does not filter at all, so that
    with nothing selected anywhere every row in the range is kept; and
    filtering the result again changes nothing.  It raises [KeyError] when
    the slider entry is not there. *)
Theorem filter_dataset_selection (st : SessionState) (df : list Entry) :
  (forall start_dt end_dt,
     date_slider st = Some (start_dt, end_dt) ->
     exists out,
       filter_dataset st df = Ok out
       /\ sublist out df
       /\ Forall (fun r => in_range start_dt end_dt r = true) out
       /\ filter_dataset st out = Ok out
       /\ (nothing_selected (filter_class st) ->
           nothing_selected (filter_category st) ->
           nothing_selected (filter_sub_category st) ->
           nothing_selected (filter_account st) ->
           out = filter (in_range start_dt end_dt) df)
       /\ (forall selected column r,
             In (selected, column)
               [(filter_class st, class_); (filter_category st, category);
                (filter_sub_category st, sub_category);
                (filter_account st, account_name)] ->
             forall values,
               selected = Some values -> values <> [] -> In r out ->
               exists v, column r = Some v /\ In v values))
  /\ (date_slider st = None ->
      filter_dataset st df = Raise (KeyError "date_slider")).
Proof.
  split; [|intro H; unfold filter_dataset; now rewrite H].
  intros start_dt end_dt Hs. unfold filter_dataset. rewrite Hs. cbv zeta.
  fold (in_range start_dt end_dt).
  eexists. split; [reflexivity|].
  rewrite !select_filter, !filter_filter_comm.
  set (keep := fun x : Entry => _ && _).
  split; [apply filter_sublist|].
  split.
  { apply Forall_forall. intros r Hr. apply filter_In in Hr.
    destruct Hr as [_ Hr]. unfold keep in Hr.
    rewrite !andb_true_iff in Hr. tauto. }
  split.
  { f_equal. apply filter_ext. intro x.
    change (keep x && keep x = keep x). now destruct (keep x). }
  split.
  { intros H1 H2 H3 H4. apply filter_ext. intro r. unfold keep.
    destruct H1 as [-> | ->], H2 as [-> | ->], H3 as [-> | ->],
      H4 as [-> | ->]; now rewrite !andb_true_r. }
  intros selected column r Hin values Hv Hne Hr. apply filter_In in Hr.
  destruct Hr as [_ Hr]. unfold keep in Hr.
  destruct values as [|v vs]; [contradiction|].
  rewrite !andb_true_iff in Hr.
  destruct Hr as [_ [Hc [Hk [Hb Ha]]]].
  assert (isin (column r) (v :: vs) = true) as Hi.
  { simpl in Hin.
    destruct Hin as [E|[E|[E|[E|[]]]]]; injection E as <- <-;
      rewrite Hv in *; assumption. }
  unfold isin in Hi. destruct (column r) as [c|]; [|discriminate Hi].
  apply existsb_exists in Hi. destruct Hi as [x [Hx Hi]].
  apply String.eqb_eq in Hi. subst x. eauto.
Qed.

Lemma filter_dataset_selection_witness :
  exists out,
    filter_dataset
      (mkSessionState None
         (Some (combine 19730 time_min, combine 19730 time_max))
         (Some []) None None None)
      [ mkEntry (Some 1704700000000000000%Z) (Some (-9 # 2)%Q)
          (Some "Expenses") (Some "Others") (Some "Others") (Some "chequing");
        mkEntry None (Some (5 # 1)%Q) None None None None ]
    = Ok out
    /\ List.length out = 1.
Proof.
  destruct (proj1 (filter_dataset_selection
              (mkSessionState None
                 (Some (combine 19730 time_min, combine 19730 time_max))
                 (Some []) None None None)
              [ mkEntry (Some 1704700000000000000%Z) (Some (-9 # 2)%Q)
                  (Some "Expenses") (Some "Others") (Some "Others")
                  (Some "chequing");
                mkEntry None (Some (5 # 1)%Q) None None None None ])
              (combine 19730 time_min) (combine 19730 time_max) eq_refl)
    as [out [H _]].
  exists out. split; [exact H|].
  vm_compute in H. injection H as <-. reflexivity.
Defined.

End AppFacts.

(** * Facts about cleaning.py: the columns of the cleaned table *)

Module CleanedFacts.
Import PyStr Re Pandas Cleaning CleaningTerms StringTerms StringFacts.

Lemma standardize_text_stripped (text : string) :
  strip (standardize_text text) = standardize_text text.
Proof.
  unfold standardize_text, DESCRIPTION_TRAILING_PATTERNS. cbv zeta.
  cbn [fold_left]. apply strip_idempotent.
Qed.

Section Cleaned.
Variable parse_datetime : string -> option Z.
Variable parse_number : string -> option Q.
Variable day_name : Z -> string.
Variable month_period : Z -> string.

Abbreviation clean :=
  (clean_transactions parse_datetime parse_number day_name month_period).

Lemma clean_length (df : list Row) :
  List.length (clean df) <= List.length df.
Proof.
  destruct df as [|r0 df]; [simpl; lia|].
  rewrite CleaningFacts.clean_unfold, length_map.
  etransitivity; [apply filter_length_le|].
  rewrite length_map. apply CleaningFacts.drop_duplicates_from_length.
Qed.


(** The amount and the class of a row of the cleaned table. *)
Lemma cleaned_class (df : list Row) (r : Row) :
  In r (clean df) ->
  exists q s,
    amount r = Val q /\ description r = Some s
    /\ class_ r = Some (if Qpositive q then "Earnings" else "Expenses").
Proof.
  intro Hr.
  apply CleaningFacts.in_clean in Hr. destruct Hr as [r' [-> Hs]].
  destruct (CleaningFacts.survives_values _ _ _ Hs) as [t [q [Ht Hq]]].
  destruct (CleaningFacts.finish_row_fields parse_number day_name
              month_period (coerce_row parse_datetime parse_number r'))
    as [_ [Fs [Fa [_ [_ [Fc _]]]]]].
  exists q. eexists. split; [now rewrite Fa|]. split; [exact Fs|].
  rewrite Fc, Hq. cbn [gt_zero]. now destruct (Qpositive q).
Qed.

End Cleaned.

End CleanedFacts.

(** * Facts about streamlit_app.py: the pipeline *)

Module PipelineFacts.
Import PyStr Re Pandas Py App AppTerms.

Section Pipeline.
Variable parse_datetime : string -> option Z.
Variable parse_number : string -> option Q.
Variable day_name : Z -> string.
Variable month_period : Z -> string.
Variable get_close_matches : string -> list string -> nat -> Q -> list string.
Variable API_URL : option string.
Variable API_KEY : option string.
Variable urlopen : string -> Classify.outcome.

Abbreviation transform :=
  (transform_dataset parse_datetime parse_number day_name month_period
     get_close_matches API_URL API_KEY urlopen).
Abbreviation clean :=
  (Cleaning.clean_transactions parse_datetime parse_number day_name
     month_period).
Abbreviation unresolved :=
  (ClassifyTerms.unresolved get_close_matches API_URL API_KEY urlopen).
Abbreviation answered_by_remote :=
  (ClassifyTerms.answered_by_remote get_close_matches API_URL API_KEY urlopen).

Lemma cleaned_columns_class (raw_columns : list string)
  (raw_df : list Cleaning.Row) :
  empty raw_columns raw_df = false ->
  cleaned_columns raw_columns raw_df <> []
  /\ existsb (String.eqb "class") (cleaned_columns raw_columns raw_df) = true.
Proof.
  intro He. unfold cleaned_columns. rewrite He. cbn [fold_left].
  assert (forall l c, existsb (String.eqb "class") l = true ->
            existsb (String.eqb "class") (with_column l c) = true) as Hkeep.
  { intros l c H. unfold with_column. destruct (existsb (String.eqb c) l);
      [exact H|]. rewrite existsb_app, H. reflexivity. }
  assert (existsb (String.eqb "class") (with_column raw_columns "class")
          = true) as H1.
  { unfold with_column.
    destruct (existsb (String.eqb "class") raw_columns) eqn:E; [exact E|].
    rewrite existsb_app. cbn. now rewrite orb_true_r. }
  assert (existsb (String.eqb "class")
            (with_column (with_column (with_column raw_columns "class")
                            "weekday_name") "month") = true) as H3
    by now apply Hkeep, Hkeep.
  split; [|exact H3].
  intro Hnil. rewrite Hnil in H3. discriminate H3.
Qed.

Lemma transform_rows (raw_columns : list string) (raw_df : list Cleaning.Row)
  (use_api : bool) (out : list Classify.Classified) :
  raw_columns <> [] ->
  transform raw_columns raw_df use_api = Ok out ->
  Forall2
    (fun r c =>
       Classify.classify_row get_close_matches API_URL API_KEY urlopen
         use_api (classify_view r) = Ok c)
    (clean raw_df) out.
Proof.
  intro Hcols. unfold transform_dataset. cbv zeta.
  rewrite ClassifyFacts.classify_unfold.
  destruct raw_df as [|r0 raw].
  { cbn. intros [= <-]. constructor. }
  assert (empty raw_columns (r0 :: raw) = false) as He
    by (destruct raw_columns; [contradiction|reflexivity]).
  rewrite He.
  destruct (cleaned_columns_class raw_columns (r0 :: raw) He) as [Hne Hclass].
  set (cleaned := clean (r0 :: raw)).
  unfold Classify.empty, ClassifyTerms.classified_rows.
  cbn [Classify.rows Classify.columns]. rewrite Hclass. cbn [negb].
  destruct (map classify_view cleaned) as [|v vs] eqn:E.
  { intros [= <-]. destruct cleaned; [constructor|discriminate E]. }
  destruct (cleaned_columns raw_columns (r0 :: raw)); [contradiction|].
  rewrite <- E. intro H. apply ClassifyFacts.mapM_Forall2 in H.
  clear -H. revert out H.
  induction cleaned as [|r l IH]; intros out H; inversion H; subst;
    constructor; auto.
Qed.

(** X25.  In the pipeline the class and the fallback of a row follow the
    sign of its amount: on a raw table with columns, every row
    [transform_dataset] returns has an amount, is of class Earnings when
    that amount is positive and of class Expenses otherwise, which are the
    only two labels the acceptance check allows; its category and its
    sub-category are strings unless the endpoint answered for it, so that
    with [use_api] off none is null; and when no strategy resolves it they
    are (Income, General) for a positive amount and (Others, Others)
    otherwise.  There are no more rows than in the raw table.  A raw table
    with rows and no column comes back with NaN for every label. *)
Theorem transform_dataset_classes (raw_columns : list string)
  (raw_df : list Cleaning.Row) (use_api : bool)
  (out : list Classify.Classified) :
  transform raw_columns raw_df use_api = Ok out ->
  (raw_columns <> [] ->
   Forall
     (fun c =>
        exists q,
          Classify.amount (Classify.row c) = Some q
          /\ Classify.class_ (Classify.row c)
             = Some (if Qpositive q then "Earnings" else "Expenses")
          /\ In (Classify.class_ (Classify.row c))
               [Some "Earnings"; Some "Expenses"]
          /\ (ClassifyTerms.text_labels c \/ answered_by_remote use_api c)
          /\ (use_api = false -> ClassifyTerms.null_label c = false)
          /\ (unresolved use_api (Classify.row c) ->
              (Classify.category c, Classify.sub_category c)
              = if Qpositive q
                then (Classify.JStr "Income", Classify.JStr "General")
                else (Classify.JStr "Others", Classify.JStr "Others")))
     out
   /\ List.length out <= List.length raw_df)
  /\ (raw_columns = [] ->
      out = map (fun r => Classify.mkClassified (classify_view r)
                            Classify.JNaN Classify.JNaN) raw_df).
Proof.
  intro H0. split.
  2:{ intros ->. unfold transform_dataset in H0. cbv zeta in H0.
      rewrite ClassifyFacts.classify_unfold in H0.
      assert (empty [] raw_df = true) as He by (now destruct raw_df).
      unfold cleaned_columns in H0. rewrite He in H0.
      assert (Classify.empty (Classify.mkDataFrame [] (map classify_view raw_df))
              = true) as Hc.
      { unfold Classify.empty. cbn. now destruct (map classify_view raw_df). }
      rewrite Hc in H0. cbn [Classify.rows] in H0. rewrite map_map in H0.
      injection H0 as <-. reflexivity. }
  intro Hcols. pose proof (transform_rows _ _ _ _ Hcols H0) as H.
  split.
  - assert (forall r, In r (clean raw_df) ->
              exists q s,
                Cleaning.amount r = Val q /\ Cleaning.description r = Some s
                /\ Cleaning.class_ r
                   = Some (if Qpositive q then "Earnings" else "Expenses"))
      as Hclean by (intros r Hr; now apply CleanedFacts.cleaned_class in Hr).
    clear H0.
    induction H as [|r c l out Hrc _ IH]; [constructor|].
    constructor; [|apply IH; intros x Hx; apply Hclean; now right].
    destruct (Hclean r (or_introl eq_refl)) as [q [s [Hq [Hs Hc]]]].
    destruct (ClassifyFacts.classify_row_ok _ _ _ _ _ _ _ Hrc)
      as [R1 [R2 [R3 R4]]].
    pose proof (ClassifyFacts.classify_row_labels _ _ _ _ _ _ _ Hrc) as RL.
    exists q. rewrite R1. unfold classify_view. cbn. rewrite Hq, Hc.
    split; [reflexivity|]. split; [reflexivity|].
    split; [destruct (Qpositive q); simpl; auto|].
    split; [exact RL|].
    split.
    { intros ->. destruct RL as [Ht|[Hr _]];
        [now apply ClassifyFacts.text_labels_not_null|discriminate Hr]. }
    intro Hu. rewrite (R4 Hu). unfold classify_view.
    cbn [Classify.class_]. rewrite Hc.
    destruct (Qpositive q); reflexivity.
  - rewrite <- (Forall2_length H).
    apply CleanedFacts.clean_length.
Qed.

End Pipeline.

Lemma transform_dataset_classes_witness :
  exists out,
    transform_dataset Samples.no_datetime Samples.no_number Samples.some_day
      Samples.some_month Samples.no_close_matches None None
      Samples.failing_endpoint IoUtils.CANONICAL_COLUMNS
      [Samples.plain_row; Samples.salary_row] false
    = Ok out
    /\ List.length out <= 2.
Proof.
  assert (is_ok
            (transform_dataset Samples.no_datetime Samples.no_number
               Samples.some_day Samples.some_month Samples.no_close_matches
               None None Samples.failing_endpoint IoUtils.CANONICAL_COLUMNS
               [Samples.plain_row; Samples.salary_row] false) = true) as H
    by (vm_compute; reflexivity).
  destruct (transform_dataset Samples.no_datetime Samples.no_number
              Samples.some_day Samples.some_month Samples.no_close_matches
              None None Samples.failing_endpoint IoUtils.CANONICAL_COLUMNS
              [Samples.plain_row; Samples.salary_row] false)
    as [out|e] eqn:E; [|discriminate H].
  exists out. split; [reflexivity|].
  refine (proj2 (proj1 (transform_dataset_classes Samples.no_datetime
                          Samples.no_number Samples.some_day
                          Samples.some_month Samples.no_close_matches None
                          None Samples.failing_endpoint
                          IoUtils.CANONICAL_COLUMNS
                          [Samples.plain_row; Samples.salary_row] false out E)
                   _)).
  discriminate.
Defined.

End PipelineFacts.

(** * Facts about streamlit_app.py: the largest expenses *)

Module RankingFacts.
Import PyStr Pandas Py App AppTerms.

Lemma key_ge_total (a b : option Q) : key_ge a b = true \/ key_ge b a = true.
Proof.
  destruct a as [x|], b as [y|]; simpl; auto.
  destruct (Qle_bool y x) eqn:E; [now left|right].
  apply Qle_bool_iff. apply Qlt_le_weak, Qnot_le_lt.
  intro H. apply Qle_bool_iff in H. congruence.
Qed.

Lemma key_ge_trans (a b c : option Q) :
  key_ge a b = true -> key_ge b c = true -> key_ge a c = true.
Proof.
  destruct a as [x|], b as [y|], c as [z|]; simpl; try easy.
  rewrite !Qle_bool_iff. intros H1 H2. now apply (Qle_trans _ y).
Qed.

Lemma skipn_In {A} (n : nat) (l : list A) (x : A) :
  In x (skipn n l) -> In x l.
Proof.
  revert l. induction n as [|n IH]; intros l H; [exact H|].
  destruct l as [|y l]; [contradiction|]. right. now apply IH.
Qed.

Lemma sorted_split {A} (R : A -> A -> Prop) (n : nat) (l : list A) :
  StronglySorted R l ->
  forall s h, In s (firstn n l) -> In h (skipn n l) -> R s h.
Proof.
  intro HS. revert n. induction HS as [|a l HS IH Ha]; intros n s h Hs Hh.
  - rewrite firstn_nil in Hs. contradiction.
  - destruct n as [|n]; [contradiction|].
    simpl in Hs, Hh. destruct Hs as [<-|Hs].
    + rewrite Forall_forall in Ha. apply Ha.
      apply (skipn_In _ _ _ Hh).
    + now apply (IH n).
Qed.

(** X26.  [top_expenses_section] shows the ten rows of largest absolute
    amount (all of them when there are fewer), each with its amount turned
    negative and its other columns as they were: no row left out has a
    larger absolute amount than a row shown, a row with a null amount
    coming after all others. *)
Theorem top_expenses_section_largest (expenses_df : list Entry) :
  List.length (top_expenses_section expenses_df)
  = Nat.min 10 (List.length expenses_df)
  /\ Forall (fun r => forall q, amount r = Some q -> (q <= 0)%Q)
       (top_expenses_section expenses_df)
  /\ exists top rest,
       Permutation expenses_df (top ++ rest)
       /\ top_expenses_section expenses_df = map shown top
       /\ forall s h, In s top -> In h rest ->
            key_ge (abs_amount s) (abs_amount h) = true.
Proof.
  unfold top_expenses_section. cbv zeta. fold shown.
  set (sorted := IoUtils.sort_by _ expenses_df).
  assert (Permutation sorted expenses_df) as HP
    by apply SortFacts.sort_by_perm.
  split; [|split].
  - rewrite length_map, length_firstn, (Permutation_length HP). reflexivity.
  - apply Forall_forall. intros r Hr. apply in_map_iff in Hr.
    destruct Hr as [x [<- _]]. unfold shown. cbn [amount set_amount].
    destruct (amount x) as [a|]; cbn [option_map]; [|discriminate].
    intros q [= <-].
    pose proof (Qabs_nonneg a) as Hn.
    apply (Qopp_le_compat 0 (Qabs a)) in Hn. exact Hn.
  - exists (firstn 10 sorted), (skipn 10 sorted).
    split; [now rewrite firstn_skipn|]. split; [reflexivity|].
    apply (sorted_split
             (fun x y => key_ge (abs_amount x) (abs_amount y) = true)).
    apply (SortFacts.sort_by_sorted
             (fun x y : Entry => key_ge (abs_amount x) (abs_amount y))).
    + intros x y. apply key_ge_total.
    + intros x y z. apply key_ge_trans.
Qed.

End RankingFacts.

(** * Facts about cleaning.py: what [standardize_description] removes *)

Module StandardizeFacts.
Import PyStr Re Pandas Cleaning StringTerms StringFacts CellFacts.

(** ** What a match leaves *)

Section Engine.
Variable q : ascii -> bool.

Lemma rep_all_chars (k : option ascii -> string -> option string)
  (p : ascii -> bool) (n : nat) (prev : option ascii) (s r : string) :
  (forall prev s r, k prev s = Some r ->
     all_chars q s = true -> all_chars q r = true) ->
  rep k p n prev s = Some r -> all_chars q s = true -> all_chars q r = true.
Proof.
  intro Hk. revert n prev. induction s as [|c s IH]; intros n prev.
  - cbn [rep]. destruct (Nat.eqb n 0); [apply Hk|discriminate].
  - cbn [rep]. intros H Hs.
    assert ((if Nat.eqb n 0 then k prev (String c s) else None) = Some r ->
            all_chars q r = true) as Hstop.
    { destruct (Nat.eqb n 0); [|discriminate]. intro E. now apply (Hk _ _ _ E). }
    destruct (p c); [|now apply Hstop].
    destruct (rep k p (Nat.pred n) (Some c) s) as [r'|] eqn:E;
      [|now apply Hstop].
    injection H as ->. apply (IH _ _ E).
    cbn [all_chars] in Hs. apply andb_true_iff in Hs. tauto.
Qed.

Lemma match_here_all_chars (pat : pattern) (prev : option ascii)
  (s r : string) :
  match_here pat prev s = Some r ->
  all_chars q s = true -> all_chars q r = true.
Proof.
  revert prev s r. induction pat as [|a pat IH]; intros prev s r.
  - cbn [match_here]. now intros [= ->].
  - destruct a as [p|p|n p| |]; cbn [match_here].
    + destruct s as [|c s]; [discriminate|].
      destruct (p c); [|discriminate]. intros H Hs. apply (IH _ _ _ H).
      cbn [all_chars] in Hs. apply andb_true_iff in Hs. tauto.
    + destruct s as [|c s]; [apply IH|].
      destruct (p c); [|apply IH].
      destruct (match_here pat (Some c) s) as [r'|] eqn:E; [|apply IH].
      intros [= ->] Hs. apply (IH _ _ _ E).
      cbn [all_chars] in Hs. apply andb_true_iff in Hs. tauto.
    + apply rep_all_chars. exact IH.
    + destruct (boundary prev s); [apply IH|discriminate].
    + destruct (at_eos s); [apply IH|discriminate].
Qed.

End Engine.

Lemma rep_at_eos (k : option ascii -> string -> option string)
  (p : ascii -> bool) (n : nat) (prev : option ascii) (s r : string) :
  (forall prev s r, k prev s = Some r -> at_eos r = true) ->
  rep k p n prev s = Some r -> at_eos r = true.
Proof.
  intro Hk. revert n prev. induction s as [|c s IH]; intros n prev.
  - cbn [rep]. destruct (Nat.eqb n 0); [apply Hk|discriminate].
  - cbn [rep]. intro H.
    assert ((if Nat.eqb n 0 then k prev (String c s) else None) = Some r ->
            at_eos r = true) as Hstop.
    { destruct (Nat.eqb n 0); [apply Hk|discriminate]. }
    destruct (p c); [|now apply Hstop].
    destruct (rep k p (Nat.pred n) (Some c) s) as [r'|] eqn:E;
      [|now apply Hstop].
    injection H as ->. apply (IH _ _ E).
Qed.

(** What a pattern that ends with [$] leaves is at the end of the text. *)
Lemma match_here_at_eos (pat : pattern) (prev : option ascii) (s r : string) :
  anchored pat = true -> match_here pat prev s = Some r -> at_eos r = true.
Proof.
  revert prev s r. induction pat as [|a pat IH]; intros prev s r Ha;
    [discriminate Ha|].
  destruct pat as [|b pat'].
  - destruct a; try discriminate Ha. cbn [match_here].
    destruct (at_eos s) eqn:E; [|discriminate]. now intros [= <-].
  - assert (anchored (b :: pat') = true) as Ha'
      by (destruct a; exact Ha).
    specialize (fun prev s r => IH prev s r Ha').
    clear Ha Ha'. set (tl := b :: pat') in *. clearbody tl.
    destruct a as [p|p|n p| |]; cbn [match_here].
    + destruct s as [|c s]; [discriminate|].
      destruct (p c); [apply IH|discriminate].
    + destruct s as [|c s]; [apply IH|].
      destruct (p c); [|apply IH].
      destruct (match_here tl (Some c) s) as [r'|] eqn:E;
        [|apply IH].
      intros [= <-]. exact (IH _ _ _ E).
    + apply rep_at_eos. exact IH.
    + destruct (boundary prev s); [apply IH|discriminate].
    + destruct (at_eos s); [apply IH|discriminate].
Qed.

(** ** Prefixes *)

Lemma is_prefix_refl (s : string) : is_prefix s s.
Proof. exists "". now rewrite append_nil_r. Qed.

Lemma is_prefix_trans (a b c : string) :
  is_prefix a b -> is_prefix b c -> is_prefix a c.
Proof.
  intros [t ->] [u ->]. exists (String.append t u). apply append_assoc.
Qed.

Lemma is_prefix_cons (c : ascii) (a s : string) :
  is_prefix a s -> is_prefix (String c a) (String c s).
Proof. intros [t ->]. now exists t. Qed.

Lemma is_prefix_nil (s : string) : is_prefix "" s.
Proof. now exists s. Qed.

Lemma is_prefix_all_chars (q : ascii -> bool) (a s : string) :
  is_prefix a s -> all_chars q s = true -> all_chars q a = true.
Proof.
  intros [t ->]. rewrite all_chars_append, andb_true_iff. tauto.
Qed.

Lemma is_prefix_head (p : ascii -> bool) (a s : string) :
  is_prefix a s -> head_fails p s = true -> head_fails p a = true.
Proof.
  intros [t ->]. destruct a; [reflexivity|]. now rewrite ClassifyFacts.append_cons.
Qed.

Lemma rstrip_by_prefix (p : ascii -> bool) (s : string) :
  is_prefix (rstrip_by p s) s.
Proof.
  induction s as [|c s IH]; [apply is_prefix_refl|].
  rewrite rstrip_by_cons. destruct (rstrip_by p s) as [|d r].
  - destruct (p c); [apply is_prefix_nil|].
    apply is_prefix_cons, is_prefix_nil.
  - now apply is_prefix_cons.
Qed.

Lemma lstrip_by_head (p : ascii -> bool) (s : string) :
  head_fails p (lstrip_by p s) = true.
Proof.
  induction s as [|c s IH]; [reflexivity|].
  cbn [lstrip_by]. destruct (p c) eqn:E; [exact IH|].
  cbn [head_fails]. now rewrite E.
Qed.

Lemma lstrip_by_head_fails (p : ascii -> bool) (s : string) :
  head_fails p s = true -> lstrip_by p s = s.
Proof.
  destruct s as [|c s]; [reflexivity|]. cbn [head_fails lstrip_by].
  now destruct (p c).
Qed.

(** ** [re.sub(pattern, "", s)] for a pattern that ends with [$] *)

Lemma sub_go_skip_all (pat : pattern) (repl : string) (prev : option ascii)
  (s : string) :
  sub_go pat repl prev (String.length s) s = "".
Proof.
  revert prev. induction s as [|c s IH]; intro prev; [reflexivity|].
  cbn [sub_go String.length]. apply IH.
Qed.

Lemma at_eos_empty (r : string) :
  at_eos r = true -> all_chars no_newline r = true -> r = "".
Proof.
  destruct r as [|c [|d r]]; [reflexivity| |discriminate].
  cbn [at_eos all_chars]. unfold no_newline. intros ->. discriminate.
Qed.

Lemma sub_anchored_prefix (pat : pattern) (s : string) :
  anchored pat = true -> all_chars no_newline s = true ->
  is_prefix (Re.sub pat "" s) s.
Proof.
  intros Ha. unfold Re.sub. generalize (@None ascii).
  induction s as [|c s IH]; intros prev Hs; [apply is_prefix_refl|].
  cbn [sub_go].
  assert (is_prefix (String c (sub_go pat "" (Some c) 0 s)) (String c s))
    as Hkeep.
  { apply is_prefix_cons, IH.
    cbn [all_chars] in Hs. apply andb_true_iff in Hs. tauto. }
  destruct (match_here pat prev (String c s)) as [rest|] eqn:E;
    [|exact Hkeep].
  pose proof (match_here_at_eos _ _ _ _ Ha E) as He.
  pose proof (match_here_all_chars no_newline _ _ _ _ E Hs) as Hr.
  rewrite (at_eos_empty rest He Hr).
  cbn [String.length]. rewrite Nat.sub_0_r.
  rewrite sub_go_skip_all. apply is_prefix_nil.
Qed.

(** ** The description *)

Lemma squeeze_from_blank_only (b : bool) (s : string) :
  all_chars blank_only (squeeze_from b s) = true.
Proof.
  revert b. induction s as [|c s IH]; intro b; [reflexivity|].
  cbn [squeeze_from]. destruct (isspace c) eqn:E.
  - destruct b; [apply IH|]. cbn [all_chars]. now rewrite IH.
  - cbn [all_chars]. unfold blank_only at 1. rewrite E. cbn. apply IH.
Qed.

Lemma blank_only_no_newline (s : string) :
  all_chars blank_only s = true -> all_chars no_newline s = true.
Proof.
  apply all_chars_weaken. intro c. unfold blank_only, no_newline.
  destruct c as [[] [] [] [] [] [] [] []]; cbn; intro H;
    first [reflexivity|discriminate H].
Qed.

(** One turn of the loop, on text that does not start with white space
    and whose white space is blanks. *)
Lemma trailing_pattern_prefix (pat : pattern) (cleaned : string) :
  anchored pat = true ->
  all_chars blank_only cleaned = true ->
  head_fails isspace cleaned = true ->
  is_prefix (strip (Re.sub pat "" cleaned)) cleaned
  /\ all_chars blank_only (strip (Re.sub pat "" cleaned)) = true
  /\ head_fails isspace (strip (Re.sub pat "" cleaned)) = true.
Proof.
  intros Ha Hb Hh.
  pose proof (sub_anchored_prefix pat cleaned Ha (blank_only_no_newline _ Hb))
    as Hp.
  set (x := Re.sub pat "" cleaned) in *.
  assert (strip x = rstrip_by isspace x) as ->.
  { unfold strip, strip_by. rewrite lstrip_by_head_fails; [reflexivity|].
    exact (is_prefix_head _ _ _ Hp Hh). }
  assert (is_prefix (rstrip_by isspace x) cleaned) as Hp'.
  { apply (is_prefix_trans _ x); [apply rstrip_by_prefix|exact Hp]. }
  split; [exact Hp'|]. split.
  - exact (is_prefix_all_chars _ _ _ Hp' Hb).
  - exact (is_prefix_head _ _ _ Hp' Hh).
Qed.

(** X27.  [standardize_description] only cuts a tail off: its result is a
    prefix of the text once stripped, with its runs of white space
    squeezed and the dots and blanks at its ends removed; nothing before
    the tail is altered.  The result has no blank at either end, and what
    is not text gives the empty text. *)
Theorem standardize_description_prefix (text : string) :
  is_prefix (standardize_description (Some text))
    (strip_chars ". " (Re.sub spaces " " (strip text)))
  /\ strip (standardize_description (Some text))
     = standardize_description (Some text)
  /\ standardize_description None = "".
Proof.
  split; [|split; [apply CleanedFacts.standardize_text_stripped|reflexivity]].
  unfold standardize_description, standardize_text,
    DESCRIPTION_TRAILING_PATTERNS.
  cbv zeta. cbn [fold_left]. rewrite sub_spaces.
  set (c2 := strip_chars ". " (squeeze (strip text))).
  assert (all_chars blank_only c2 = true) as Hb.
  { apply strip_by_all_chars, squeeze_from_blank_only. }
  assert (head_fails isspace c2 = true) as Hh.
  { assert (head_fails (fun c => mem_char c ". ") c2 = true) as H.
    { unfold c2, strip_chars, strip_by.
      apply (is_prefix_head _ _ _ (rstrip_by_prefix _ _)), lstrip_by_head. }
    destruct c2 as [|c s]; [reflexivity|].
    cbn [head_fails all_chars] in *.
    apply andb_true_iff in Hb. destruct Hb as [Hc _].
    unfold blank_only in Hc.
    destruct (isspace c); [|reflexivity].
    cbn in Hc. apply Ascii.eqb_eq in Hc. subst c. discriminate H. }
  match goal with
  | |- is_prefix (strip (Re.sub ?p3 "" (strip (Re.sub ?p2 ""
                   (strip (Re.sub ?p1 "" c2)))))) c2 =>
      destruct (trailing_pattern_prefix p1 c2 eq_refl Hb Hh) as [P1 [B1 H1]];
      destruct (trailing_pattern_prefix p2 _ eq_refl B1 H1) as [P2 [B2 H2]];
      destruct (trailing_pattern_prefix p3 _ eq_refl B2 H2) as [P3 _]
  end.
  exact (is_prefix_trans _ _ _ P3 (is_prefix_trans _ _ _ P2 P1)).
Qed.

End StandardizeFacts.

(** * Facts across io_utils.py and classify.py: the transfer keywords *)

Module KeywordFacts.
Import PyStr Re Pandas Py IoUtils Classify ClassifyTerms.
Import StringTerms StringFacts ClassifyFacts.

Lemma squeeze_from_plain (in_run : bool) (c : ascii) (k b : string) :
  all_chars nonspace (String c k) = true ->
  squeeze_from in_run (String.append (String c k) b)
  = String.append (String c k) (squeeze_from false b).
Proof.
  revert in_run c. induction k as [|d k IH]; intros in_run c H;
    cbn [all_chars] in H; apply andb_true_iff in H; destruct H as [Hc Hk];
    unfold nonspace in Hc; apply negb_true_iff in Hc.
  - rewrite append_cons, append_nil. cbn [squeeze_from]. now rewrite Hc.
  - rewrite append_cons. cbn [squeeze_from]. rewrite Hc.
    now rewrite (IH false d Hk).
Qed.

Lemma occurs_squeeze_from (in_run : bool) (k s : string) :
  k <> "" -> all_chars nonspace k = true ->
  occurs k s -> occurs k (squeeze_from in_run s).
Proof.
  intros Hne Hk [a [b ->]]. destruct k as [|c k]; [contradiction|].
  revert in_run. induction a as [|x a IH]; intro in_run.
  - rewrite append_nil, squeeze_from_plain by exact Hk.
    now exists "", (squeeze_from false b).
  - rewrite append_cons. cbn [squeeze_from].
    destruct (isspace x); [destruct in_run|].
    + apply IH.
    + destruct (IH true) as [a' [b' H]]. exists (String " " a'), b'.
      now rewrite H.
    + destruct (IH false) as [a' [b' H]]. exists (String x a'), b'.
      now rewrite H.
Qed.

Lemma occurs_lstrip (k s : string) :
  k <> "" -> all_chars nonspace k = true ->
  occurs k s -> occurs k (lstrip_by isspace s).
Proof.
  intros Hne Hk [a [b ->]]. destruct k as [|c k]; [contradiction|].
  cbn [all_chars] in Hk. apply andb_true_iff in Hk. destruct Hk as [Hc _].
  unfold nonspace in Hc. apply negb_true_iff in Hc.
  induction a as [|x a IH].
  - rewrite append_nil, append_cons. cbn [lstrip_by]. rewrite Hc.
    now exists "", b.
  - rewrite append_cons. cbn [lstrip_by].
    destruct (isspace x); [exact IH|].
    now exists (String x a), b.
Qed.

Lemma rstrip_plain (c : ascii) (k b : string) :
  all_chars nonspace (String c k) = true ->
  exists b',
    rstrip_by isspace (String.append (String c k) b)
    = String.append (String c k) b'.
Proof.
  revert c. induction k as [|d k IH]; intros c H;
    cbn [all_chars] in H; apply andb_true_iff in H; destruct H as [Hc Hk];
    unfold nonspace in Hc; apply negb_true_iff in Hc.
  - rewrite append_cons, append_nil, rstrip_by_cons, Hc.
    destruct (rstrip_by isspace b) as [|y r]; [now exists ""|].
    now exists (String y r).
  - rewrite append_cons, rstrip_by_cons.
    destruct (IH d Hk) as [b' ->]. rewrite append_cons. now exists b'.
Qed.

Lemma occurs_rstrip (k s : string) :
  k <> "" -> all_chars nonspace k = true ->
  occurs k s -> occurs k (rstrip_by isspace s).
Proof.
  intros Hne Hk [a [b ->]]. destruct k as [|c k]; [contradiction|].
  induction a as [|x a IH].
  - rewrite append_nil. destruct (rstrip_plain c k b Hk) as [b' ->].
    now exists "", b'.
  - rewrite append_cons, rstrip_by_cons.
    destruct IH as [a' [b' ->]].
    destruct a' as [|y a']; rewrite ?append_nil, !append_cons.
    + now exists (String x ""), b'.
    + now exists (String x (String y a')), b'.
Qed.

(** A word without white space that occurs in a text in lower case occurs
    in its normal form. *)
Lemma occurs_normalize (k text : string) :
  k <> "" -> all_chars nonspace k = true ->
  occurs k (lower text) -> occurs k (normalize text).
Proof.
  intros Hne Hk H. rewrite LookupFacts.normalize_squeeze.
  unfold strip, strip_by.
  apply occurs_rstrip, occurs_lstrip, occurs_squeeze_from; assumption.
Qed.

Lemma occurs_right (a b hay : string) :
  occurs (String.append a b) hay -> occurs b hay.
Proof.
  intros [x [y H]]. exists (String.append x a), y.
  rewrite H. now rewrite !StringFacts.append_assoc.
Qed.

Lemma contains_right (a b hay : string) :
  contains (String.append a b) hay = true -> contains b hay = true.
Proof. rewrite !contains_spec. apply occurs_right. Qed.

(** X28.  Of the six transfer keywords four decide:
    [_matches_transfer_keyword] flags a text when, whatever its case, it
    contains "transfer", "xfer", "between accounts" or "etfr".  A text
    flagged through "xfer", "transfer" or "etfr" is settled by the keyword
    table of the classifier, once normalized, by one of its first 22
    entries (the three keywords stand at 19, 20 and 21): such a row never
    reaches the fuzzy lookup, the endpoint or the default. *)
Theorem transfer_keyword_classified (text : string) :
  _matches_transfer_keyword text
  = (contains "transfer" (lower text) || contains "xfer" (lower text)
     || contains "between accounts" (lower text)
     || contains "etfr" (lower text))
  /\ _matches_transfer_keyword (lower text) = _matches_transfer_keyword text
  /\ (contains "xfer" (lower text) || contains "transfer" (lower text)
      || contains "etfr" (lower text) = true ->
      exists before keyword mapping after,
        DETERMINISTIC_KEYWORDS = before ++ (keyword, mapping) :: after
        /\ deterministic_lookup (normalize text) = Some mapping
        /\ occurs keyword (normalize text)
        /\ List.length before <= 21)
  /\ map (fun i => option_map fst (nth_error DETERMINISTIC_KEYWORDS i))
       [19; 20; 21]
     = [Some "xfer"; Some "transfer"; Some "etfr"].
Proof.
  assert (_matches_transfer_keyword text
          = (contains "transfer" (lower text) || contains "xfer" (lower text)
             || contains "between accounts" (lower text)
             || contains "etfr" (lower text))) as Hflag.
  { unfold _matches_transfer_keyword, TRANSFER_KEYWORDS. cbv zeta.
    cbn [existsb].
    destruct (contains "transfer" (lower text)) eqn:Et; [reflexivity|].
    destruct (contains "online banking transfer" (lower text)) eqn:Eo.
    { apply (contains_right "online banking " "transfer") in Eo. congruence. }
    destruct (contains "customer transfer" (lower text)) eqn:Ec.
    { apply (contains_right "customer " "transfer") in Ec. congruence. }
    destruct (contains "xfer" (lower text)),
      (contains "between accounts" (lower text)),
      (contains "etfr" (lower text)); reflexivity. }
  split; [exact Hflag|].
  split.
  { unfold _matches_transfer_keyword.
    now rewrite CleaningFacts.lower_idempotent. }
  split; [|reflexivity].
  intro H.
  assert (forall n k m,
            nth_error DETERMINISTIC_KEYWORDS n = Some (k, m) ->
            n <= 21 -> k <> "" -> all_chars nonspace k = true ->
            contains k (lower text) = true ->
            exists before keyword mapping after,
              DETERMINISTIC_KEYWORDS = before ++ (keyword, mapping) :: after
              /\ deterministic_lookup (normalize text) = Some mapping
              /\ occurs keyword (normalize text)
              /\ List.length before <= 21) as Hat.
  { intros n k m Hn Hle Hne Hk Hc.
    apply contains_spec in Hc. apply occurs_normalize in Hc; [|assumption..].
    destruct (nth_error_split _ _ Hn) as [l1 [l2 [Hs Hl]]].
    destruct (lookup_keyword_at_most l1 l2 k m (normalize text) Hc)
      as [before [keyword [mapping [after [H1 [H2 [H3 H4]]]]]]].
    exists before, keyword, mapping, after.
    unfold deterministic_lookup. rewrite Hs.
    split; [exact H1|]. split; [exact H2|]. split; [exact H3|]. lia. }
  apply orb_true_iff in H. destruct H as [H|H];
    [apply orb_true_iff in H; destruct H as [H|H]|].
  - apply (Hat 19 "xfer" ("Transfers", "Internal Transfer"));
      [reflexivity|lia|discriminate|reflexivity|exact H].
  - apply (Hat 20 "transfer" ("Transfers", "Internal Transfer"));
      [reflexivity|lia|discriminate|reflexivity|exact H].
  - apply (Hat 21 "etfr" ("Transfers", "Internal Transfer"));
      [reflexivity|lia|discriminate|reflexivity|exact H].
Qed.

End KeywordFacts.

(** * Facts about classify.py: the fuzzy lookup *)

Module FuzzyFacts.
Import PyStr Re Pandas Py Classify ClassifyTerms LabelTerms.

Section Fuzzy.
Variable get_close_matches : string -> list string -> nat -> Q -> list string.

Abbreviation fuzzy := (fuzzy_lookup get_close_matches).
Abbreviation first_close := (first_close_match get_close_matches).

Lemma dict_getitem_In {V} (d : list (string * V)) (key : string) :
  In key (map fst d) ->
  exists v, dict_getitem d key = Ok v /\ In v (map snd d).
Proof.
  unfold dict_getitem. induction d as [|[k v] d IH]; simpl; [tauto|].
  intro H. destruct (String.eqb_spec k key) as [->|Hne].
  - exists v. auto.
  - destruct H as [H|H]; [contradiction|].
    destruct (IH H) as [v' [Hv Hin]]. exists v'. auto.
Qed.

Lemma first_close_none (tokens candidates : list string) :
  first_close tokens candidates = None
  <-> Forall (fun token =>
                get_close_matches token candidates 1 (92 # 100)%Q = [])
        tokens.
Proof.
  induction tokens as [|t ts IH]; cbn [first_close_match].
  - split; [constructor|reflexivity].
  - destruct (get_close_matches t candidates 1 (92 # 100)%Q) as [|b bs] eqn:E.
    + rewrite IH. split; [now constructor|now inversion 1].
    + split; [discriminate|]. inversion 1. congruence.
Qed.

Lemma first_close_some (tokens candidates : list string) (best : string) :
  first_close tokens candidates = Some best ->
  exists token,
    In token tokens
    /\ In best (get_close_matches token candidates 1 (92 # 100)%Q).
Proof.
  induction tokens as [|t ts IH]; cbn [first_close_match]; [discriminate|].
  destruct (get_close_matches t candidates 1 (92 # 100)%Q) as [|b bs] eqn:E.
  - intro H. destruct (IH H) as [token [H1 H2]]. exists token.
    split; [now right|exact H2].
  - intros [= <-]. exists t. rewrite E. split; now left.
Qed.

(** X29.  When [get_close_matches] only proposes words among the
    possibilities it is given, as difflib does, [fuzzy_lookup] raises
    nothing and answers with a mapping of its own table or with None; it
    answers None exactly when no token of the description has a match at
    the cutoff 0.92 and the description as a whole has none at 0.8. *)
Theorem fuzzy_lookup_targets (description : string) :
  (forall word possibilities n cutoff,
     incl (get_close_matches word possibilities n cutoff) possibilities) ->
  exists answer,
    fuzzy description = Ok answer
    /\ (forall mapping,
          answer = Some mapping -> In mapping (map snd FUZZY_TARGETS))
    /\ (answer = None
        <-> Forall
              (fun token =>
                 get_close_matches token (map fst FUZZY_TARGETS) 1
                   (92 # 100)%Q = [])
              (tokens description)
            /\ get_close_matches description (map fst FUZZY_TARGETS) 1
                 (8 # 10)%Q = []).
Proof.
  intro Hclose. unfold fuzzy_lookup. cbv zeta. fold (tokens description).
  destruct (first_close (tokens description) (map fst FUZZY_TARGETS))
    as [best|] eqn:E.
  - destruct (first_close_some _ _ _ E) as [token [_ Hb]].
    apply Hclose in Hb.
    destruct (dict_getitem_In FUZZY_TARGETS best Hb) as [m [-> Hm]].
    cbn [bind]. exists (Some m).
    split; [reflexivity|]. split; [now intros ? [= <-]|].
    split; [discriminate|]. intros [H _].
    apply first_close_none in H. congruence.
  - apply first_close_none in E.
    destruct (get_close_matches description (map fst FUZZY_TARGETS) 1
                (8 # 10)%Q) as [|best rest] eqn:G.
    + exists None. split; [reflexivity|]. split; [discriminate|].
      split; auto.
    + assert (In best (map fst FUZZY_TARGETS)) as Hb.
      { apply (Hclose description _ 1 (8 # 10)%Q). rewrite G. now left. }
      destruct (dict_getitem_In FUZZY_TARGETS best Hb) as [m [-> Hm]].
      cbn [bind]. exists (Some m).
      split; [reflexivity|]. split; [now intros ? [= <-]|].
      split; [discriminate|]. intros [_ H]. discriminate H.
Qed.

End Fuzzy.

Lemma fuzzy_lookup_targets_witness :
  exists answer,
    fuzzy_lookup Fixtures.exact_matches "subway 123" = Ok answer
    /\ (forall mapping,
          answer = Some mapping -> In mapping (map snd FUZZY_TARGETS)).
Proof.
  destruct (fuzzy_lookup_targets Fixtures.exact_matches "subway 123")
    as [answer [H1 [H2 _]]].
  - intros word possibilities n cutoff. apply incl_filter.
  - exists answer. split; assumption.
Defined.

End FuzzyFacts.
